(** * Checkpoint / recovery protocol of the batch processors

    A shallow embedding of the checkpointing code shared by
    [bulletproof_gemini_processor.py], [bulletproof_recovery.py],
    [large_batch_processor.py], [small_batch_processor.py] and the loop of
    [gemini_business_context_generator.py].

    Python [int] is [Z]; Python [str] is [string] (ASCII code points only);
    a [Set[str]] is a [gset string]; the file system is a [gmap] from path
    to file content. *)

From Stdlib Require Import ZArith Lia List Ascii String Decimal DecimalString DecimalZ.
From stdpp Require Import base option strings list sets gmap sorting.

#[local] Open Scope string_scope.
#[local] Open Scope Z_scope.

(** ** Python built-ins used by the scripts *)

Module Py.

(** [str(n)] and the [{n}] field of an f-string, for an [int]. *)
Definition str (z : Z) : string := NilZero.string_of_int (Z.to_int z).

(** [c.isspace()] on an ASCII code point: TAB..CR, FS..US and SPACE. *)
Definition is_space (c : ascii) : bool :=
  let n := nat_of_ascii c in
  (Nat.leb 9 n && Nat.leb n 13) || (Nat.leb 28 n && Nat.leb n 31) || Nat.eqb n 32.

Definition is_digit (c : ascii) : bool :=
  let n := nat_of_ascii c in Nat.leb 48 n && Nat.leb n 57.

Fixpoint lstrip (s : string) : string :=
  match s with
  | EmptyString => EmptyString
  | String c s' => if is_space c then lstrip s' else s
  end.

Fixpoint rstrip (s : string) : string :=
  match s with
  | EmptyString => EmptyString
  | String c s' =>
      match rstrip s' with
      | EmptyString => if is_space c then EmptyString else String c EmptyString
      | r => String c r
      end
  end.

(** [s.strip()] *)
Definition strip (s : string) : string := rstrip (lstrip s).

(** The digit part of an integer literal accepted by [int(s)]: decimal
    digits, where single underscores may separate digits.  [after_digit]
    is false when the next character has to be a digit.  The result is the
    literal without its underscores. *)
Fixpoint int_digits (after_digit : bool) (s : string) : option string :=
  match s with
  | EmptyString => if after_digit then Some EmptyString else None
  | String c s' =>
      if is_digit c then
        match int_digits true s' with
        | Some r => Some (String c r)
        | None => None
        end
      else if Ascii.eqb c "_" && after_digit then int_digits false s'
      else None
  end.

Definition int_magnitude (s : string) : option Z :=
  match int_digits false s with
  | Some ds =>
      match NilEmpty.uint_of_string ds with
      | Some d => Some (Z.of_uint d)
      | None => None
      end
  | None => None
  end.

(** [int(s)] in base 10; [None] stands for [ValueError].  (The 4300-digit
    limit of recent interpreters and non-ASCII digits are outside the
    model.) *)
Definition int (s : string) : option Z :=
  match strip s with
  | EmptyString => None
  | String c r =>
      if Ascii.eqb c "-" then
        match int_magnitude r with Some m => Some (- m) | None => None end
      else if Ascii.eqb c "+" then int_magnitude r
      else int_magnitude (String c r)
  end.

(** [s.replace(old, new)]: every non-overlapping occurrence, leftmost
    first.  [skip] counts the characters of a matched occurrence that are
    still to be dropped. *)
Fixpoint replace_from (old new : string) (skip : nat) (s : string) : string :=
  match s with
  | EmptyString =>
      match skip, old with
      | O, EmptyString => new
      | _, _ => EmptyString
      end
  | String c s' =>
      match skip with
      | S k => replace_from old new k s'
      | O =>
          if String.prefix old s then
            match String.length old with
            | O => new +:+ String c (replace_from old new 0 s')
            | S k => new +:+ replace_from old new k s'
            end
          else String c (replace_from old new 0 s')
      end
  end.

Definition replace (s old new : string) : string := replace_from old new 0 s.

(** [sep.join(l)] *)
Fixpoint join (sep : string) (l : list string) : string :=
  match l with
  | [] => EmptyString
  | [x] => x
  | x :: l' => x +:+ sep +:+ join sep l'
  end.

(** [list(range(a, b + 1))] *)
Definition range_incl (a b : Z) : list Z :=
  map (fun i => a + Z.of_nat i) (seq 0 (Z.to_nat (b - a + 1))).


(** [s.split(sep)] for a separator of one character: the pieces between
    the occurrences of [sep], at least one. *)
Fixpoint split_char (sep : ascii) (s : string) : list string :=
  match s with
  | EmptyString => [EmptyString]
  | String c s' =>
      if Ascii.eqb c sep then EmptyString :: split_char sep s'
      else match split_char sep s' with
           | piece :: rest => String c piece :: rest
           | [] => [String c EmptyString]
           end
  end.


(** [s[n:]] *)
Fixpoint drop (n : nat) (s : string) : string :=
  match n, s with
  | S k, String _ s' => drop k s'
  | _, _ => s
  end.

(** [sub in s] *)
Fixpoint contains (sub s : string) : bool :=
  String.prefix sub s
  || match s with
     | EmptyString => false
     | String _ s' => contains sub s'
     end.

(** [s.lstrip(c)] for one character. *)
Fixpoint lstrip_char (c : ascii) (s : string) : string :=
  match s with
  | String d s' => if Ascii.eqb d c then lstrip_char c s' else s
  | EmptyString => EmptyString
  end.

(** [os.path.splitext(path)[1]] without its dot: the text after the last
    dot of the last component of [path], the leading dots of the component
    apart; empty when the component has no such dot. *)
Definition extension (path : string) : string :=
  let base := List.last (split_char "/" path) EmptyString in
  match split_char "." (lstrip_char "." base) with
  | [] | [_] => EmptyString
  | pieces => List.last pieces EmptyString
  end.

End Py.

(** ** Data model *)

(** A row of the source catalog ([excel_file]) as the loops read it: each
    column already passed through [str(row.get(col, default))], so that a
    missing cell is the text [nan]. *)
Record CatalogRow := mkRow {
  report_name : string;
  description : string;
  sql_query : string
}.

(** The catalog file as [pd.read_excel(excel_file)] and the generator's
    constructor see it.  The scripts never write [excel_file]; it is taken
    to be a path other than the ones the persisters write. *)
Inductive CatalogFile :=
| CatalogMissing
| CatalogUnreadable
| CatalogRows (rows : list CatalogRow).

(** ResultRecord: one row of the sheet [Business_Context_Results].  The
    four columns that [parse_gemini_response] derives from the response are
    functions of [raw_response] and are not repeated. *)
Record ResultRecord := mkResult {
  report_id : string;
  original_report_name : string;
  original_description : string;
  original_sql_query : string;
  raw_response : string;
  processing_timestamp : string
}.

(** FailureRecord: [{'report_id', 'error', 'report_name'}]; the batch
    processors leave [report_name] out. *)
Record FailureRecord := mkFailure {
  failed_report_id : string;
  error : string;
  failed_report_name : option string
}.

(** The sheet [Processing_Summary]; the completion rate is computed from
    the first two entries (and needs a non-zero [total_in_dataset]). *)
Record Summary := mkSummary {
  total_in_dataset : Z;
  successfully_processed : Z;
  failed_count : Z;
  last_updated : string;
  checkpoint_number : option Z
}.

(** Content of a file.  The sheets of a workbook are written from lists
    of rows and read back as such.  A cell without text is read as NaN,
    which the [report_id] [""] stands for.  A sheet written from the empty
    list has no header, and is read as a table without columns. *)
Inductive file :=
| Workbook (results : list ResultRecord) (summary : Summary)
           (failed : list FailureRecord)
| StateJson (processed : list string) (failed : list FailureRecord)
            (last_save : string) (total_processed : option Z)
| EmergencyJson (results : list ResultRecord) (timestamp : string)
| EmergencyCsv (results : list ResultRecord)
| EmergencyXlsx (results : list ResultRecord)
| Corrupt (bytes : string).

Abbreviation FS := (gmap string file).

(** ** The world outside the process *)

(** What [generator.call_gemini_api] does: it returns the text, or [None]
    (blocked, empty, or an error it caught itself).  [ApiRaised] is an
    exception escaping the call; the generator of this repository catches
    its own, the case is kept for the handler that guards the call. *)
Inductive ApiOutcome :=
| ApiReturned (response : option string)
| ApiRaised (msg : string).

(** Outcome of writing a file: done, or an exception that leaves
    [left_behind] at the path ([None]: nothing was created or changed). *)
Inductive WriteFault :=
| WriteOk
| WriteRaises (left_behind : option file).

(** Faults injected into the input/output operations of one flush. *)
Record Faults := mkFaults {
  master_write : WriteFault;
  master_rename_raises : bool;
  state_write : WriteFault;
  state_rename_raises : bool;
  backup_write : WriteFault
}.

Definition no_faults : Faults := mkFaults WriteOk false WriteOk false WriteOk.

(** Everything a run reads from outside; [nat] arguments are the logical
    time of the world at the moment of the call. *)
Record Env := mkEnv {
  catalog : CatalogFile;
  setup_gemini_api : bool;
  call_gemini_api : nat -> string -> ApiOutcome;
  now : nat -> string;
  io_faults : nat -> Faults;
  sigint_after : option nat
}.

(** The world a run acts on: the files, the log of external processing
    calls (by report id, latest first) and a logical clock that advances
    with every external call and every flush attempt. *)
Record World := mkWorld {
  fs : FS;
  api_calls : list string;
  time : nat
}.

Definition set_fs (f : FS -> FS) (w : World) : World :=
  mkWorld (f (fs w)) (api_calls w) (time w).

Definition tick (w : World) : World :=
  mkWorld (fs w) (api_calls w) (S (time w)).

(** ** Exceptions, [sys.exit] and state *)

(** A computation over a state [S] returns, raises an [Exception] or
    leaves through [sys.exit]; the state built so far is kept in all three
    cases. *)
Inductive Outcome (S A : Type) :=
| Ok (a : A) (s : S)
| Raise (e : string) (s : S)
| Exit (s : S).
Arguments Ok {S A} a s.
Arguments Raise {S A} e s.
Arguments Exit {S A} s.

Definition M (S A : Type) : Type := S -> Outcome S A.

Definition ret {S A} (a : A) : M S A := fun s => Ok a s.
Definition raise {S A} (e : string) : M S A := fun s => Raise e s.
Definition sys_exit {S A} : M S A := fun s => Exit s.
Definition bind {S A B} (m : M S A) (k : A -> M S B) : M S B :=
  fun s => match m s with
           | Ok a s' => k a s'
           | Raise e s' => Raise e s'
           | Exit s' => Exit s'
           end.
(** [try: m  except Exception as e: h e] ([SystemExit] is not caught). *)
Definition try_except {S A} (m : M S A) (h : string -> M S A) : M S A :=
  fun s => match m s with
           | Ok a s' => Ok a s'
           | Raise e s' => h e s'
           | Exit s' => Exit s'
           end.
Definition get {S} : M S S := fun s => Ok s s.
Definition modify {S} (f : S -> S) : M S unit := fun s => Ok tt (f s).

Definition final_state {S A} (o : Outcome S A) : S :=
  match o with Ok _ s | Raise _ s | Exit s => s end.

Declare Scope py_scope.
Delimit Scope py_scope with py.
Notation "x <~ m ; k" := (bind m (fun x => k))
  (at level 20, m at level 100, k at level 200, only parsing) : py_scope.
#[local] Open Scope py_scope.

(** ** File operations *)

Definition exists_ (path : string) (files : FS) : bool :=
  bool_decide (is_Some (files !! path)).

(** Writing [content] to [path] under a fault. *)
Definition write_file (fault : WriteFault) (path : string) (content : file)
  : M World unit :=
  match fault with
  | WriteOk => modify (set_fs <[path := content]>)
  | WriteRaises left_behind =>
      _ <~ modify (set_fs (fun files =>
                match left_behind with
                | Some junk => <[path := junk]> files
                | None => files
                end)) ;
      raise "OSError"
  end.

(** [pd.ExcelWriter(path, engine='openpyxl')] checks the extension of
    [path] before it opens the file: with an extension that is part of
    neither [.xlsx] nor [.xlsm] it raises [ValueError].  The recovery
    script alone writes a workbook under another extension; the names of
    the other scripts end in [.xlsx], and [write_file] stands for their
    writes. *)
Definition excel_extension_ok (path : string) : bool :=
  Py.contains (Py.extension path) ".xlsx" || Py.contains (Py.extension path) ".xlsm".

Definition write_excel (fault : WriteFault) (path : string) (content : file)
  : M World unit :=
  if excel_extension_ok path then write_file fault path content
  else raise "Invalid extension for engine 'openpyxl'".

(** [os.rename(src, dst)]: one atomic step that replaces [dst]. *)
Definition rename (raises : bool) (src dst : string) : M World unit :=
  w <~ get ;
  if raises then raise "OSError"
  else match fs w !! src with
       | Some content => modify (set_fs (fun files => <[dst := content]> (delete src files)))
       | None => raise "FileNotFoundError"
       end.

(** [if os.path.exists(path): os.remove(path)] *)
Definition remove_if_exists (path : string) : M World unit :=
  modify (set_fs (delete path)).

(** [pd.read_excel(path, sheet_name='Business_Context_Results')] *)
Definition read_results (path : string) (files : FS) : option (list ResultRecord) :=
  match files !! path with
  | Some (Workbook results _ _) => Some results
  | _ => None
  end.

(** [len(pd.read_excel(excel_file))] *)
Definition read_catalog_len {S} (env : Env) : M S Z :=
  match catalog env with
  | CatalogRows rows => ret (Z.of_nat (length rows))
  | _ => raise "cannot read the catalog"
  end.

(** [df.iloc[k]] on the catalog rows: negative positions count from the
    end, a position out of bounds raises [IndexError]. *)
Definition iloc {S} (rows : list CatalogRow) (k : Z) : M S CatalogRow :=
  let n := Z.of_nat (length rows) in
  let k' := if k <? 0 then k + n else k in
  if (k' <? 0) || (n <=? k') then raise "single positional indexer is out-of-bounds"
  else match rows !! Z.to_nat k' with
       | Some row => ret row
       | None => raise "single positional indexer is out-of-bounds"
       end.

(** [not report_name or report_name == 'nan' or not sql_query or
    sql_query == 'nan'] *)
Definition missing_essential_data (row : CatalogRow) : bool :=
  bool_decide (report_name row = "") || bool_decide (report_name row = "nan")
  || bool_decide (sql_query row = "") || bool_decide (sql_query row = "nan").

(** [f"Report_{report_num}"] *)
Definition report_key (report_num : Z) : string := "Report_" +:+ Py.str report_num.

(** [int(report_id.replace('Report_', ''))]; [None] when it raises. *)
Definition report_number (id : string) : option Z :=
  Py.int (Py.replace id "Report_" "").

(** [extract_number], the sort key of the persisters. *)
Definition extract_number (result : ResultRecord) : Z :=
  match report_number (report_id result) with
  | Some n => n
  | None => 0
  end.

(** [l.sort(key=key)] and [sorted(l, key=key)]: the stable sort. *)
Fixpoint insert_by {A} (key : A -> Z) (x : A) (l : list A) : list A :=
  match l with
  | [] => [x]
  | y :: l' => if key x <=? key y then x :: l else y :: insert_by key x l'
  end.

Definition sort_by {A} (key : A -> Z) (l : list A) : list A :=
  foldr (insert_by key) [] l.

(** [sorted(X)] for a set of integers. *)
Definition sorted (X : gset Z) : list Z := sort_by id (elements X).

(** ** bulletproof_gemini_processor.py *)

Module Bulletproof.

Definition master_file : string := "MASTER_BULLETPROOF_RESULTS.xlsx".
Definition state_file : string := "BULLETPROOF_STATE.json".

(** The attributes of a [BulletproofProcessor] that the methods change or
    read. *)
Record Processor := mkProcessor {
  processed_reports : gset string;
  all_results : list ResultRecord;
  failed_reports : list FailureRecord;
  save_frequency : Z;
  interrupted : bool
}.

(** [__init__] *)
Definition init : Processor := mkProcessor ∅ [] [] 5 false.

Definition St : Type := Processor * World.

Definition in_world {A} (m : M World A) : M St A :=
  fun s => match m s.2 with
           | Ok a w => Ok a (s.1, w)
           | Raise e w => Raise e (s.1, w)
           | Exit w => Exit (s.1, w)
           end.

Definition on_processor (f : Processor -> Processor) : M St unit :=
  modify (fun s : St => (f s.1, s.2)).

Definition add_result (r : ResultRecord) (p : Processor) : Processor :=
  mkProcessor ({[report_id r]} ∪ processed_reports p) (all_results p ++ [r])
              (failed_reports p) (save_frequency p) (interrupted p).

Definition add_failure (f : FailureRecord) (p : Processor) : Processor :=
  mkProcessor (processed_reports p) (all_results p) (failed_reports p ++ [f])
              (save_frequency p) (interrupted p).

Definition set_all_results (l : list ResultRecord) (p : Processor) : Processor :=
  mkProcessor (processed_reports p) l (failed_reports p)
              (save_frequency p) (interrupted p).

Definition set_failed_reports (l : list FailureRecord) (p : Processor) : Processor :=
  mkProcessor (processed_reports p) (all_results p) l
              (save_frequency p) (interrupted p).

Definition set_interrupted (b : bool) (p : Processor) : Processor :=
  mkProcessor (processed_reports p) (all_results p) (failed_reports p)
              (save_frequency p) b.

(** The body of [for _, row in df.iterrows()] in [load_existing_work].
    The test [if report_id] holds for every row of a sheet: the id is a
    text that is not empty, or NaN, which is true. *)
Definition load_row (p : Processor) (row : ResultRecord) : Processor :=
  mkProcessor ({[report_id row]} ∪ processed_reports p)
              (all_results p ++ [row]) (failed_reports p)
              (save_frequency p) (interrupted p).

(** [load_existing_work] (lines 65-94): both reads sit in a
    [try ... except Exception] that prints a warning and goes on. *)
Definition load_existing_work : M St unit :=
  s <~ get;
  _ <~ (if exists_ master_file (fs s.2) then
          try_except
            (match read_results master_file (fs s.2) with
             | Some df => on_processor (fun p => foldl load_row p df)
             | None => raise "cannot read the master file"
             end)
            (fun _ => ret tt)
        else ret tt);
  s <~ get;
  if exists_ state_file (fs s.2) then
    try_except
      (match fs s.2 !! state_file with
       | Some (StateJson _ failed _ _) => on_processor (set_failed_reports failed)
       | _ => raise "cannot read the state file"
       end)
      (fun _ => ret tt)
  else ret tt.

(** The numbers of the processed report ids; an id that [int] rejects is
    skipped by the bare [except]. *)
Definition processed_numbers (ids : gset string) : gset Z :=
  set_omap report_number ids.

(** [set(range(1, total_reports + 1))] *)
Definition all_numbers (total_reports : Z) : gset Z :=
  list_to_set (Py.range_incl 1 total_reports).

(** [sorted(all_numbers - processed_numbers)] *)
Definition missing_numbers (total_reports : Z) (ids : gset string) : list Z :=
  sorted (all_numbers total_reports ∖ processed_numbers ids).

(** [identify_missing_reports] (lines 96-125).  The completion percentage
    that it prints divides by [total_reports]. *)
Definition identify_missing_reports (env : Env) : M St (list Z) :=
  total_reports <~ read_catalog_len env;
  s <~ get;
  let missing := missing_numbers total_reports (processed_reports s.1) in
  if total_reports =? 0 then raise "division by zero"
  else ret missing.

(** One iteration of the loop of [_format_ranges] over
    [numbers[1:] + [None]]; the state is [(ranges, start, end)]. *)
Definition range_step {T} (tok : Z -> Z -> T) (st : list T * Z * Z) (num : option Z)
  : list T * Z * Z :=
  let '(ranges, start, end_) := st in
  match num with
  | Some n =>
      if negb (n =? end_ + 1) then ((ranges ++ [tok start end_])%list, n, n)
      else (ranges, start, n)
  | None => ((ranges ++ [tok start end_])%list, start, end_)
  end.

Definition range_loop {T} (tok : Z -> Z -> T) (first : Z) (rest : list Z) : list T :=
  (foldl (range_step tok) ([], first, first) (map Some rest ++ [None])%list).1.1.

(** [str(start)] or [f"{start}-{end}"] *)
Definition range_text (start end_ : Z) : string :=
  if start =? end_ then Py.str start
  else Py.str start +:+ "-" +:+ Py.str end_.

(** [_format_ranges] (lines 127-147; the same text is in
    bulletproof_recovery.py, lines 124-144). *)
Definition _format_ranges (numbers : list Z) : string :=
  match numbers with
  | [] => "None"
  | first :: rest => Py.join ", " (range_loop range_text first rest)
  end.

Definition temp_file : string := Py.replace master_file ".xlsx" "_temp.xlsx".
Definition state_temp : string := Py.replace state_file ".json" "_temp.json".

(** [save_all_progress] (lines 149-221). *)
Definition save_all_progress (env : Env) : M St unit :=
  s <~ get;
  match all_results s.1 with
  | [] => ret tt
  | _ :: _ =>
      _ <~ on_processor (fun p => set_all_results (sort_by extract_number (all_results p)) p);
      s <~ get;
      let p := s.1 in
      let faults := io_faults env (time s.2) in
      let stamp := now env (time s.2) in
      _ <~ in_world (modify tick);
      try_except
        (total <~ read_catalog_len env;
         _ <~ (if total =? 0 then raise "division by zero" else ret tt);
         _ <~ in_world (write_file (master_write faults) temp_file
                 (Workbook (all_results p)
                    (mkSummary total (Z.of_nat (length (all_results p)))
                       (Z.of_nat (length (failed_reports p))) stamp None)
                    (failed_reports p)));
         _ <~ in_world (rename (master_rename_raises faults) temp_file master_file);
         _ <~ in_world (write_file (state_write faults) state_temp
                 (StateJson (elements (processed_reports p)) (failed_reports p) stamp
                    (Some (Z.of_nat (length (all_results p))))));
         in_world (rename (state_rename_raises faults) state_temp state_file))
        (fun _ =>
           _ <~ in_world (remove_if_exists temp_file);
           in_world (remove_if_exists state_temp))
  end.

(** [handle_interrupt] (lines 56-63), run when SIGINT is delivered. *)
Definition handle_interrupt (env : Env) : M St unit :=
  _ <~ on_processor (set_interrupted true);
  _ <~ save_all_progress env;
  sys_exit.

(** [generator.call_gemini_api(prompt, report_id)]: logged, and the clock
    advances. *)
Definition api_call (env : Env) (id : string) : M St (option string) :=
  fun s =>
    let w := s.2 in
    let s' := (s.1, mkWorld (fs w) (id :: api_calls w) (S (time w))) in
    match call_gemini_api env (time w) id with
    | ApiReturned response => Ok response s'
    | ApiRaised e => Raise e s'
    end.

(** The body of the loop of [process_missing_reports] (lines 251-325) for
    the [i]-th entry [report_num] of [missing_numbers]. *)
Definition process_item (env : Env) (df : list CatalogRow) (i : nat) (report_num : Z)
  : M St unit :=
  let id := report_key report_num in
  try_except
    (row <~ iloc df (report_num - 1);
     if missing_essential_data row then
       on_processor (add_failure
         (mkFailure id "Missing essential data" (Some (report_name row))))
     else
       response <~ api_call env id;
       s <~ get;
       _ <~ (match response with
             | Some (String c text) =>
                 on_processor (add_result
                   (mkResult id (report_name row) (description row) (sql_query row)
                      (String c text) (now env (time s.2))))
             | _ =>
                 on_processor (add_failure
                   (mkFailure id "API call failed" (Some (report_name row))))
             end);
       s <~ get;
       if save_frequency s.1 =? 0 then raise "integer modulo by zero"
       else if (Z.of_nat i + 1) mod save_frequency s.1 =? 0 then save_all_progress env
       else ret tt)
    (fun e =>
       on_processor (add_failure
         (mkFailure id ("Unexpected error: " +:+ e) (Some "Unknown")))).

(** [for i, report_num in enumerate(missing_numbers)] from position [i]
    on.  A SIGINT that arrives when [i] iterations are complete runs the
    handler, which leaves the process. *)
Fixpoint process_loop (env : Env) (df : list CatalogRow) (i : nat) (items : list Z)
  : M St unit :=
  match items with
  | [] => ret tt
  | report_num :: rest =>
      if bool_decide (sigint_after env = Some i) then handle_interrupt env
      else
        s <~ get;
        if interrupted s.1 then ret tt
        else
          _ <~ process_item env df i report_num;
          process_loop env df (S i) rest
  end.

(** [process_missing_reports] (lines 223-331). *)
Definition process_missing_reports (env : Env) (missing : list Z) : M St bool :=
  match missing with
  | [] => ret true
  | _ :: _ =>
      match catalog env with
      | CatalogMissing => raise "Excel file not found"
      | CatalogUnreadable => ret false
      | CatalogRows df =>
          if negb (setup_gemini_api env) then ret false
          else
            _ <~ process_loop env df 0 missing;
            _ <~ save_all_progress env;
            ret true
      end
  end.

(** [main] (lines 333-373), the operator confirming the prompt. *)
Definition main (env : Env) : M St unit :=
  try_except
    (_ <~ load_existing_work;
     missing_reports <~ identify_missing_reports env;
     match missing_reports with
     | [] => save_all_progress env
     | _ :: _ =>
         _ <~ process_missing_reports env missing_reports;
         ret tt
     end)
    (fun _ => save_all_progress env).

(** A run of the script on the files of [w]. *)
Definition run (env : Env) (w : World) : St := final_state (main env (init, w)).

End Bulletproof.

(** ** bulletproof_recovery.py *)

Module Recovery.

Definition recovery_file : string := "RECOVERY_STATE.json".
Definition master_results_file : string := "MASTER_RESULTS.xlsx".

Record Processor := mkProcessor {
  processed_reports : gset string;
  failed_reports : list FailureRecord;
  all_results : list ResultRecord
}.

Definition init : Processor := mkProcessor ∅ [] [].

Definition St : Type := Processor * World.

Definition in_world {A} (m : M World A) : M St A :=
  fun s => match m s.2 with
           | Ok a w => Ok a (s.1, w)
           | Raise e w => Raise e (s.1, w)
           | Exit w => Exit (s.1, w)
           end.

Definition on_processor (f : Processor -> Processor) : M St unit :=
  modify (fun s : St => (f s.1, s.2)).

(** Shell-style matching of a file name against a pattern whose only
    special character is the star. *)
Fixpoint fnmatch (pat : string) (name : string) {struct pat} : bool :=
  match pat with
  | EmptyString => match name with EmptyString => true | _ => false end
  | String c pat' =>
      if Ascii.eqb c "*" then
        (fix star (s : string) : bool :=
           fnmatch pat' s
           || match s with EmptyString => false | String _ s' => star s' end) name
      else
        match name with
        | String d name' => Ascii.eqb c d && fnmatch pat' name'
        | EmptyString => false
        end
  end.

Fixpoint has_char (c : ascii) (s : string) : bool :=
  match s with
  | EmptyString => false
  | String d s' => Ascii.eqb c d || has_char c s'
  end.

(** [glob.glob(pattern)] in the working directory: the names without a
    directory part that match, hidden files excepted, in the order of the
    directory listing. *)
Definition glob (pat : string) (files : FS) : list string :=
  List.filter
    (fun name => fnmatch pat name && negb (has_char "/" name)
                 && negb (String.prefix "." name))
    (map fst (map_to_list files)).

(** Step 1 of [load_existing_work]: no membership test, and the test
    [if report_id] holds for every row of a sheet (NaN is true). *)
Definition load_row (p : Processor) (row : ResultRecord) : Processor :=
  mkProcessor ({[report_id row]} ∪ processed_reports p) (failed_reports p)
              (all_results p ++ [row]).

(** Step 2: a row is taken only when its id is new; so is the first row
    without an id, since NaN is true.  NaN is one object for the cells of
    a column that holds text, and is found in the set afterwards. *)
Definition recover_row (p : Processor) (row : ResultRecord) : Processor :=
  if bool_decide (report_id row ∈ processed_reports p)
  then p
  else mkProcessor ({[report_id row]} ∪ processed_reports p) (failed_reports p)
                   (all_results p ++ [row]).

Definition load_master_results : M St unit :=
  s <~ get;
  if exists_ master_results_file (fs s.2) then
    try_except
      (match read_results master_results_file (fs s.2) with
       | Some df => on_processor (fun p => foldl load_row p df)
       | None => raise "cannot read the master results"
       end)
      (fun _ => ret tt)
  else ret tt.

Definition load_progress_file (file_path : string) : M St unit :=
  if bool_decide (file_path = master_results_file) then ret tt
  else
    s <~ get;
    try_except
      (match read_results file_path (fs s.2) with
       | Some df => on_processor (fun p => foldl recover_row p df)
       | None => raise "cannot read the progress file"
       end)
      (fun _ => ret tt).

Fixpoint load_progress_files (paths : list string) : M St unit :=
  match paths with
  | [] => ret tt
  | file_path :: rest => _ <~ load_progress_file file_path; load_progress_files rest
  end.

Definition load_recovery_state : M St unit :=
  s <~ get;
  if exists_ recovery_file (fs s.2) then
    try_except
      (match fs s.2 !! recovery_file with
       | Some (StateJson _ failed _ _) =>
           on_processor (fun p => mkProcessor (processed_reports p) failed (all_results p))
       | _ => raise "cannot read the recovery state"
       end)
      (fun _ => ret tt)
  else ret tt.

(** [load_existing_work] (lines 41-92). *)
Definition load_existing_work : M St unit :=
  _ <~ load_master_results;
  s <~ get;
  _ <~ load_progress_files
         (glob "temp_progress_*.xlsx" (fs s.2) ++ glob "*business_context*.xlsx" (fs s.2));
  load_recovery_state.

Definition temp_file : string := master_results_file +:+ ".tmp".

(** [save_master_results] (lines 146-208); the result is the path written,
    or the empty text.  The temporary name ends in [.tmp], which the
    writer of the workbook does not accept. *)
Definition save_master_results (env : Env) : M St string :=
  s <~ get;
  match all_results s.1 with
  | [] => ret ""
  | _ :: _ =>
      _ <~ on_processor (fun p =>
             mkProcessor (processed_reports p) (failed_reports p)
                         (sort_by extract_number (all_results p)));
      s <~ get;
      let p := s.1 in
      let faults := io_faults env (time s.2) in
      let stamp := now env (time s.2) in
      _ <~ in_world (modify tick);
      total <~ read_catalog_len env;
      _ <~ (if total =? 0 then raise "division by zero" else ret tt);
      try_except
        (_ <~ in_world (write_excel (master_write faults) temp_file
                 (Workbook (all_results p)
                    (mkSummary total (Z.of_nat (length (all_results p)))
                       (Z.of_nat (length (failed_reports p))) stamp None)
                    (failed_reports p)));
         _ <~ in_world (rename (master_rename_raises faults) temp_file master_results_file);
         ret master_results_file)
        (fun _ =>
           _ <~ in_world (remove_if_exists temp_file);
           ret "")
  end.

(** [save_recovery_state] (lines 210-227). *)
Definition save_recovery_state (env : Env) : M St unit :=
  s <~ get;
  let p := s.1 in
  let faults := io_faults env (time s.2) in
  let stamp := now env (time s.2) in
  let temp := recovery_file +:+ ".tmp" in
  _ <~ in_world (modify tick);
  try_except
    (_ <~ in_world (write_file (state_write faults) temp
             (StateJson (elements (processed_reports p)) (failed_reports p) stamp None));
     in_world (rename (state_rename_raises faults) temp recovery_file))
    (fun _ => in_world (remove_if_exists temp)).


(** [identify_missing_reports] (lines 94-122): the computation of the
    bulletproof processor's; the completion percentage that it prints
    divides by [total_reports]. *)
Definition identify_missing_reports (env : Env) : M St (list Z) :=
  total_reports <~ read_catalog_len env;
  s <~ get;
  let missing := Bulletproof.missing_numbers total_reports (processed_reports s.1) in
  if total_reports =? 0 then raise "division by zero"
  else ret missing.

Definition add_result (r : ResultRecord) (p : Processor) : Processor :=
  mkProcessor ({[report_id r]} ∪ processed_reports p) (failed_reports p)
              (all_results p ++ [r]).

Definition add_failure (f : FailureRecord) (p : Processor) : Processor :=
  mkProcessor (processed_reports p) (failed_reports p ++ [f]) (all_results p).

Definition api_call (env : Env) (id : string) : M St (option string) :=
  fun s =>
    let w := s.2 in
    let s' := (s.1, mkWorld (fs w) (id :: api_calls w) (S (time w))) in
    match call_gemini_api env (time w) id with
    | ApiReturned response => Ok response s'
    | ApiRaised e => Raise e s'
    end.

(** The body of the loop of [process_missing_reports] (lines 250-320) for
    the [i]-th entry [report_num] of [missing_numbers]; the two saves of
    the checkpoint sit inside the [try] statement. *)
Definition process_item (env : Env) (df : list CatalogRow) (i : nat) (report_num : Z)
  : M St unit :=
  let id := report_key report_num in
  try_except
    (row <~ iloc df (report_num - 1);
     if missing_essential_data row then
       on_processor (add_failure
         (mkFailure id "Missing essential data" (Some (report_name row))))
     else
       response <~ api_call env id;
       s <~ get;
       _ <~ (match response with
             | Some (String c text) =>
                 on_processor (add_result
                   (mkResult id (report_name row) (description row) (sql_query row)
                      (String c text) (now env (time s.2))))
             | _ =>
                 on_processor (add_failure
                   (mkFailure id "API call failed" (Some (report_name row))))
             end);
       if (Z.of_nat i + 1) mod 10 =? 0 then
         _ <~ save_master_results env;
         save_recovery_state env
       else ret tt)
    (fun e =>
       on_processor (add_failure
         (mkFailure id ("Unexpected error: " +:+ e) (Some "Unknown")))).

(** [for i, report_num in enumerate(missing_numbers)] from position [i]
    on.  The script installs no signal handler: a SIGINT that arrives when
    [i] iterations are complete raises [KeyboardInterrupt], which is no
    [Exception]; no [except Exception] clause catches it and the process
    ends there. *)
Fixpoint process_loop (env : Env) (df : list CatalogRow) (i : nat) (items : list Z)
  : M St unit :=
  match items with
  | [] => ret tt
  | report_num :: rest =>
      if bool_decide (sigint_after env = Some i) then sys_exit
      else
        _ <~ process_item env df i report_num;
        process_loop env df (S i) rest
  end.

(** [process_missing_reports] (lines 229-326). *)
Definition process_missing_reports (env : Env) (missing : list Z) : M St bool :=
  match missing with
  | [] => ret true
  | _ :: _ =>
      match catalog env with
      | CatalogMissing => raise "Excel file not found"
      | CatalogUnreadable => ret false
      | CatalogRows df =>
          if negb (setup_gemini_api env) then ret false
          else
            _ <~ process_loop env df 0 missing;
            _ <~ save_master_results env;
            _ <~ save_recovery_state env;
            ret true
      end
  end.

(** [main] (lines 328-363). *)
Definition main (env : Env) : M St unit :=
  try_except
    (_ <~ load_existing_work;
     missing_reports <~ identify_missing_reports env;
     match missing_reports with
     | [] => _ <~ save_master_results env; ret tt
     | _ :: _ =>
         ok <~ process_missing_reports env missing_reports;
         if ok then _ <~ save_master_results env; ret tt
         else ret tt
     end)
    (fun _ => save_recovery_state env).

(** A run of the script on the files of [w]. *)
Definition run (env : Env) (w : World) : St := final_state (main env (init, w)).

End Recovery.

(** ** large_batch_processor.py *)

Module LargeBatch.

Definition master_file : string := "MASTER_BULLETPROOF_RESULTS.xlsx".
Definition state_file : string := "BULLETPROOF_STATE.json".
Definition emergency_backup_dir : string := "EMERGENCY_BACKUPS".
Definition temp_file : string := Py.replace master_file ".xlsx" "_temp.xlsx".
Definition state_temp : string := Py.replace state_file ".json" "_temp.json".

Record Processor := mkProcessor {
  checkpoint_frequency : Z;
  interrupted : bool
}.

(** [__init__] *)
Definition init : Processor := mkProcessor 10 false.

(** [handle_interrupt] (lines 53-58): the flag only. *)
Definition handle_interrupt (self : Processor) : Processor :=
  mkProcessor (checkpoint_frequency self) true.

(** [batch_info] *)
Record BatchInfo := mkBatchInfo {
  batch_start : Z;
  batch_end : Z;
  batch_size : Z;
  start_time : string
}.

(** [os.path.join(self.emergency_backup_dir,
    f"emergency_results_{timestamp}{ext}")] *)
Definition backup_path (timestamp ext : string) : string :=
  emergency_backup_dir +:+ "/" +:+ "emergency_results_" +:+ timestamp +:+ ext.

(** [emergency_save] (lines 59-94). *)
Definition emergency_save (env : Env) (results_so_far : list ResultRecord)
    (info : BatchInfo) : M World bool :=
  w <~ get;
  let timestamp := now env (time w) in
  let fault := backup_write (io_faults env (time w)) in
  _ <~ modify tick;
  try_except
    (_ <~ write_file fault (backup_path timestamp ".json")
            (EmergencyJson results_so_far timestamp);
     _ <~ (match results_so_far with
           | [] => ret tt
           | _ :: _ => write_file fault (backup_path timestamp ".csv")
                         (EmergencyCsv results_so_far)
           end);
     _ <~ (match results_so_far with
           | [] => ret tt
           | _ :: _ => write_file fault (backup_path timestamp ".xlsx")
                         (EmergencyXlsx results_so_far)
           end);
     ret true)
    (fun _ => ret false).

(** [save_checkpoint] (lines 96-153): the handler reports the failure and
    removes nothing. *)
Definition save_checkpoint (env : Env) (all_results : list ResultRecord)
    (checkpoint_num : Z) (info : BatchInfo) : M World bool :=
  w <~ get;
  let faults := io_faults env (time w) in
  let stamp := now env (time w) in
  _ <~ modify tick;
  try_except
    (total <~ read_catalog_len env;
     _ <~ (if total =? 0 then raise "division by zero" else ret tt);
     _ <~ write_file (master_write faults) temp_file
            (Workbook all_results
               (mkSummary total (Z.of_nat (length all_results)) 0 stamp
                  (Some checkpoint_num))
               []);
     _ <~ rename (master_rename_raises faults) temp_file master_file;
     _ <~ write_file (state_write faults) state_temp
            (StateJson (map report_id all_results) [] stamp
               (Some (Z.of_nat (length all_results))));
     _ <~ rename (state_rename_raises faults) state_temp state_file;
     ret true)
    (fun _ => ret false).

(** The dictionary that [get_current_status] returns, the completion rate
    left out. *)
Record Status := mkStatus {
  total_reports : Z;
  processed_count : Z;
  missing_count : Z;
  missing_numbers : list Z
}.

(** [get_current_status] (lines 155-184; the same text is in
    small_batch_processor.py, lines 26-55).  Nothing is caught here; on a
    results sheet without a row [df['report_id']] raises [KeyError]. *)
Definition get_current_status (env : Env) : M World Status :=
  w <~ get;
  processed_reports <~
    (if exists_ master_file (fs w) then
       match read_results master_file (fs w) with
       | Some [] => raise "KeyError: 'report_id'"
       | Some df => ret (list_to_set (map report_id df) : gset string)
       | None => raise "cannot read the master file"
       end
     else ret (∅ : gset string));
  total <~ read_catalog_len env;
  let processed := Bulletproof.processed_numbers processed_reports in
  let missing := sorted (Bulletproof.all_numbers total ∖ processed) in
  if total =? 0 then raise "division by zero"
  else ret (mkStatus total (Z.of_nat (size processed)) (Z.of_nat (length missing)) missing).

(** The object and the local variables of [process_large_batch]. *)
Record Run := mkRun {
  self : Processor;
  all_existing_results : list ResultRecord;
  new_results : list ResultRecord;
  failed : list FailureRecord;
  checkpoint_count : Z;
  world : World
}.

Definition start_run (p : Processor) (w : World) : Run := mkRun p [] [] [] 0 w.

Definition in_world {A} (m : M World A) : M Run A :=
  fun s =>
    let back w := mkRun (self s) (all_existing_results s) (new_results s) (failed s)
                        (checkpoint_count s) w in
    match m (world s) with
    | Ok a w => Ok a (back w)
    | Raise e w => Raise e (back w)
    | Exit w => Exit (back w)
    end.

Definition add_result (r : ResultRecord) (s : Run) : Run :=
  mkRun (self s) (all_existing_results s) (new_results s ++ [r]) (failed s)
        (checkpoint_count s) (world s).

Definition add_failure (f : FailureRecord) (s : Run) : Run :=
  mkRun (self s) (all_existing_results s) (new_results s) (failed s ++ [f])
        (checkpoint_count s) (world s).

Definition next_checkpoint (s : Run) : Run :=
  mkRun (self s) (all_existing_results s) (new_results s) (failed s)
        (checkpoint_count s + 1) (world s).

Definition set_existing (l : list ResultRecord) (s : Run) : Run :=
  mkRun (self s) l (new_results s) (failed s) (checkpoint_count s) (world s).

Definition deliver_sigint (s : Run) : Run :=
  mkRun (handle_interrupt (self s)) (all_existing_results s) (new_results s) (failed s)
        (checkpoint_count s) (world s).

Definition api_call (env : Env) (id : string) : M Run (option string) :=
  fun s =>
    let w := world s in
    let s' := mkRun (self s) (all_existing_results s) (new_results s) (failed s)
                    (checkpoint_count s)
                    (mkWorld (fs w) (id :: api_calls w) (S (time w))) in
    match call_gemini_api env (time w) id with
    | ApiReturned response => Ok response s'
    | ApiRaised e => Raise e s'
    end.

(** The [try] statement of the loop (lines 237-297). *)
Definition process_item (env : Env) (df : list CatalogRow) (info : BatchInfo)
    (report_num : Z) : M Run unit :=
  let id := report_key report_num in
  try_except
    (row <~ iloc df (report_num - 1);
     if missing_essential_data row then
       modify (add_failure (mkFailure id "Missing data" None))
     else
       response <~ api_call env id;
       s <~ get;
       _ <~ (match response with
             | Some (String c text) =>
                 modify (add_result
                   (mkResult id (report_name row) (description row) (sql_query row)
                      (String c text) (now env (time (world s)))))
             | _ => modify (add_failure (mkFailure id "API failed" None))
             end);
       s <~ get;
       let n := Z.of_nat (length (new_results s)) in
       let K := checkpoint_frequency (self s) in
       if 0 <? n then
         if K =? 0 then raise "integer modulo by zero"
         else if n mod K =? 0 then
           _ <~ modify next_checkpoint;
           s <~ get;
           saved <~ in_world (save_checkpoint env
                      (all_existing_results s ++ new_results s) (checkpoint_count s) info);
           if saved then ret tt
           else _ <~ in_world (emergency_save env (new_results s) info); ret tt
         else ret tt
       else ret tt)
    (fun e =>
       _ <~ modify (add_failure (mkFailure id e None));
       s <~ get;
       _ <~ in_world (emergency_save env (new_results s) info);
       ret tt).

(** [for i, report_num in enumerate(batch_reports)] from position [i] on
    (lines 227-297).  A SIGINT that arrives when [i] iterations are
    complete sets the flag; the test at the top of the loop then writes the
    emergency backup and leaves the process. *)
Fixpoint process_loop (env : Env) (df : list CatalogRow) (info : BatchInfo)
    (i : nat) (items : list Z) : M Run unit :=
  match items with
  | [] => ret tt
  | report_num :: rest =>
      _ <~ (if bool_decide (sigint_after env = Some i) then modify deliver_sigint
            else ret tt);
      s <~ get;
      if interrupted (self s) then
        _ <~ in_world (emergency_save env (new_results s) info);
        sys_exit
      else
        _ <~ process_item env df info report_num;
        process_loop env df info (S i) rest
  end.

(** [process_large_batch] (lines 186-327). *)
Definition process_large_batch (env : Env) (batch_reports : list Z) : M Run bool :=
  match batch_reports, last batch_reports with
  | first :: _, Some last_ =>
      s <~ get;
      let info := mkBatchInfo first last_ (Z.of_nat (length batch_reports))
                              (now env (time (world s))) in
      baseline <~
        (if exists_ master_file (fs (world s)) then
           match read_results master_file (fs (world s)) with
           | Some df => ret df
           | None => raise "cannot read the master file"
           end
         else ret []);
      _ <~ modify (set_existing baseline);
      match catalog env with
      | CatalogMissing => raise "Excel file not found"
      | CatalogUnreadable => ret false
      | CatalogRows df =>
          if negb (setup_gemini_api env) then ret false
          else
            _ <~ process_loop env df info 0 batch_reports;
            s <~ get;
            saved <~ in_world (save_checkpoint env
                       (all_existing_results s ++ new_results s)
                       (checkpoint_count s + 1) info);
            if saved then
              s <~ get;
              match read_results master_file (fs (world s)) with
              | Some df_verify =>
                  ret (bool_decide (length df_verify
                                    = (length baseline + length (new_results s))%nat))
              | None => raise "cannot read the master file"
              end
            else
              _ <~ in_world (emergency_save env (new_results s) info);
              ret false
      end
  | _, _ => raise "list index out of range"
  end.

(** [main] (lines 329-385), the operator answering [y]. *)
Definition main (env : Env) : M Run unit :=
  status <~ in_world (get_current_status env);
  match missing_numbers status with
  | [] => ret tt
  | _ :: _ =>
      ok <~ process_large_batch env (take 100 (missing_numbers status));
      if ok then _ <~ in_world (get_current_status env); ret tt
      else ret tt
  end.

Definition run (env : Env) (p : Processor) (w : World) : Run :=
  final_state (main env (start_run p w)).

End LargeBatch.

(** ** small_batch_processor.py *)

Module SmallBatch.

(** [get_current_status] (lines 26-55) has the text of the large batch
    processor's, on the same master file. *)
Definition get_current_status : Env -> M World LargeBatch.Status :=
  LargeBatch.get_current_status.


Definition master_file : string := "MASTER_BULLETPROOF_RESULTS.xlsx".
Definition state_file : string := "BULLETPROOF_STATE.json".
Definition temp_file : string := Py.replace master_file ".xlsx" "_temp.xlsx".
Definition state_temp : string := Py.replace state_file ".json" "_temp.json".

(** The local variables [results] and [failed] of [process_batch]. *)
Record Batch := mkBatch {
  results : list ResultRecord;
  failed : list FailureRecord
}.

Definition St : Type := Batch * World.

Definition start (w : World) : St := (mkBatch [] [], w).

Definition in_world {A} (m : M World A) : M St A :=
  fun s => match m s.2 with
           | Ok a w => Ok a (s.1, w)
           | Raise e w => Raise e (s.1, w)
           | Exit w => Exit (s.1, w)
           end.

Definition add_result (r : ResultRecord) (s : St) : St :=
  (mkBatch (results s.1 ++ [r]) (failed s.1), s.2).

Definition add_failure (f : FailureRecord) (s : St) : St :=
  (mkBatch (results s.1) (failed s.1 ++ [f]), s.2).

Definition api_call (env : Env) (id : string) : M St (option string) :=
  fun s =>
    let w := s.2 in
    let s' := (s.1, mkWorld (fs w) (id :: api_calls w) (S (time w))) in
    match call_gemini_api env (time w) id with
    | ApiReturned response => Ok response s'
    | ApiRaised e => Raise e s'
    end.

(** [if os.path.exists(self.master_file): pd.read_excel(...)], which
    [process_batch] does twice, outside of any [try] statement. *)
Definition read_master : M St (list ResultRecord) :=
  s <~ get;
  if exists_ master_file (fs s.2) then
    match read_results master_file (fs s.2) with
    | Some df => ret df
    | None => raise "cannot read the master file"
    end
  else ret [].

(** The [try] statement of the loop (lines 88-126): nothing is written. *)
Definition process_item (env : Env) (df : list CatalogRow) (report_num : Z)
  : M St unit :=
  let id := report_key report_num in
  try_except
    (row <~ iloc df (report_num - 1);
     if missing_essential_data row then
       modify (add_failure (mkFailure id "Missing data" None))
     else
       response <~ api_call env id;
       s <~ get;
       match response with
       | Some (String c text) =>
           modify (add_result
             (mkResult id (report_name row) (description row) (sql_query row)
                (String c text) (now env (time s.2))))
       | _ => modify (add_failure (mkFailure id "API failed" None))
       end)
    (fun e => modify (add_failure (mkFailure id e None))).

(** [for i, report_num in enumerate(batch_reports)] from position [i] on
    (lines 85-126).  The script installs no signal handler: a SIGINT that
    arrives when [i] iterations are complete raises [KeyboardInterrupt],
    which no handler of the script catches, and the process ends. *)
Fixpoint process_loop (env : Env) (df : list CatalogRow) (i : nat) (items : list Z)
  : M St unit :=
  match items with
  | [] => ret tt
  | report_num :: rest =>
      if bool_decide (sigint_after env = Some i) then sys_exit
      else
        _ <~ process_item env df report_num;
        process_loop env df (S i) rest
  end.

(** The save of [process_batch] (lines 128-192): the rows of the master
    file are read again, the results of the batch are appended, and the
    master file and the state file are each written to a temporary file
    that is renamed.  The entries [Batch Size] and [Last Batch] of the
    summary and [last_batch] of the state are functions of the batch and
    are not repeated. *)
Definition save (env : Env) (df : list CatalogRow) : M St bool :=
  existing <~ read_master;
  s <~ (get : M St St);
  let all_results := (existing ++ results s.1)%list in
  let faults := io_faults env (time s.2) in
  let stamp := now env (time s.2) in
  _ <~ in_world (modify tick);
  try_except
    (let total := Z.of_nat (length df) in
     _ <~ (if total =? 0 then raise "division by zero" else ret tt);
     _ <~ in_world (write_file (master_write faults) temp_file
            (Workbook all_results
               (mkSummary total (Z.of_nat (length all_results))
                  (Z.of_nat (length (failed s.1))) stamp None)
               (failed s.1)));
     _ <~ in_world (rename (master_rename_raises faults) temp_file master_file);
     _ <~ in_world (write_file (state_write faults) state_temp
            (StateJson (map report_id all_results) (failed s.1) stamp
               (Some (Z.of_nat (length all_results)))));
     _ <~ in_world (rename (state_rename_raises faults) state_temp state_file);
     ret true)
    (fun _ => ret false).

(** [process_batch] (lines 57-222). *)
Definition process_batch (env : Env) (batch_reports : list Z) : M St bool :=
  match batch_reports, last batch_reports with
  | first :: _, Some last_ =>
      df_baseline <~ read_master;
      let baseline_count := length df_baseline in
      match catalog env with
      | CatalogMissing => raise "Excel file not found"
      | CatalogUnreadable => ret false
      | CatalogRows df =>
          if negb (setup_gemini_api env) then ret false
          else
            _ <~ process_loop env df 0 batch_reports;
            saved <~ save env df;
            if saved then
              s <~ get;
              match read_results master_file (fs s.2) with
              | Some df_verify =>
                  if bool_decide (length df_verify
                                  = (baseline_count + length (results s.1))%nat)
                  then
                    (* [report_ids = df_verify['report_id'].tolist()] *)
                    match df_verify with
                    | [] => raise "KeyError: 'report_id'"
                    | _ :: _ => ret true
                    end
                  else ret false
              | None => raise "cannot read the master file"
              end
            else ret false
      end
  | _, _ => raise "list index out of range"
  end.

(** [main] (lines 224-276), the operator answering [y]. *)
Definition main (env : Env) : M St unit :=
  status <~ in_world (get_current_status env);
  match LargeBatch.missing_numbers status with
  | [] => ret tt
  | _ :: _ =>
      ok <~ process_batch env (take 20 (LargeBatch.missing_numbers status));
      if ok then _ <~ in_world (get_current_status env); ret tt
      else ret tt
  end.

End SmallBatch.

(** ** gemini_business_context_generator.py *)

Module Generator.

Record Generator := mkGenerator {
  df : option (list CatalogRow);
  results : list ResultRecord;
  failed_reports : list FailureRecord
}.

Definition St : Type := Generator * World.

Definition in_world {A} (m : M World A) : M St A :=
  fun s => match m s.2 with
           | Ok a w => Ok a (s.1, w)
           | Raise e w => Raise e (s.1, w)
           | Exit w => Exit (s.1, w)
           end.

Definition on_generator (f : Generator -> Generator) : M St unit :=
  modify (fun s : St => (f s.1, s.2)).

Definition add_result (r : ResultRecord) (g : Generator) : Generator :=
  mkGenerator (df g) (results g ++ [r]) (failed_reports g).

Definition add_failure (f : FailureRecord) (g : Generator) : Generator :=
  mkGenerator (df g) (results g) (failed_reports g ++ [f]).

Definition api_call (env : Env) (id : string) : M St (option string) :=
  fun s =>
    let w := s.2 in
    let s' := (s.1, mkWorld (fs w) (id :: api_calls w) (S (time w))) in
    match call_gemini_api env (time w) id with
    | ApiReturned response => Ok response s'
    | ApiRaised e => Raise e s'
    end.

(** [save_results(output_file)] (lines 432-493) for a given path: written
    in place, every exception caught. *)
Definition save_results (env : Env) (output_file : string) : M St string :=
  s <~ get;
  let g := s.1 in
  let faults := io_faults env (time s.2) in
  let stamp := now env (time s.2) in
  _ <~ in_world (modify tick);
  try_except
    (match results g with
     | [] => ret ""
     | _ :: _ =>
         _ <~ in_world (write_file (master_write faults) output_file
                 (Workbook (results g)
                    (mkSummary (match df g with
                                | Some rows => Z.of_nat (length rows)
                                | None => 0
                                end)
                       (Z.of_nat (length (results g)))
                       (Z.of_nat (length (failed_reports g))) stamp None)
                    (failed_reports g)));
         ret output_file
     end)
    (fun _ => ret "").

(** The [try] statement of the loop of [process_reports] (lines 336-416)
    for the row at position [index]. *)
Definition process_item (env : Env) (row : CatalogRow) (index : Z) : M St unit :=
  let id := report_key (index + 1) in
  try_except
    (if missing_essential_data row then
       on_generator (add_failure
         (mkFailure id "Missing essential data (name or SQL)" (Some (report_name row))))
     else
       response <~ api_call env id;
       s <~ get;
       _ <~ (match response with
             | Some (String c text) =>
                 on_generator (add_result
                   (mkResult id (report_name row) (description row) (sql_query row)
                      (String c text) (now env (time s.2))))
             | _ =>
                 on_generator (add_failure
                   (mkFailure id "API call failed or content blocked"
                      (Some (report_name row))))
             end);
       s <~ get;
       let completed_in_session := Z.of_nat (length (results s.1)) in
       if (0 <? completed_in_session) && (completed_in_session mod 25 =? 0) then
         _ <~ save_results env
                ("temp_progress_" +:+ Py.str completed_in_session +:+ "_reports.xlsx");
         ret tt
       else ret tt)
    (fun e =>
       on_generator (add_failure
         (mkFailure id ("Unexpected error: " +:+ e) (Some (report_name row))))).

(** [for index in range(start_index, end_index + 1)]: the row is fetched
    before the [try] statement. *)
Fixpoint process_loop (env : Env) (rows : list CatalogRow) (indices : list Z)
  : M St unit :=
  match indices with
  | [] => ret tt
  | index :: rest =>
      row <~ iloc rows index;
      _ <~ process_item env row index;
      process_loop env rows rest
  end.

(** [process_reports(start_from_report, end_at_report)] (lines 296-430). *)
Definition process_reports (env : Env) (start_from_report : Z)
    (end_at_report : option Z) : M St bool :=
  s <~ get;
  match df s.1 with
  | None => ret false
  | Some rows =>
      let total_reports := Z.of_nat (length rows) in
      let start_index := start_from_report - 1 in
      let end_index :=
        match end_at_report with
        | Some e => if e =? 0 then total_reports - 1 else e - 1
        | None => total_reports - 1
        end in
      _ <~ process_loop env rows (Py.range_incl start_index end_index);
      ret true
  end.

End Generator.

(** ** Reading a range text back *)

Module RangeText.

(** [s.split(", ")]: the first piece and the pieces after it. *)
Fixpoint pieces (s : string) : string * list string :=
  match s with
  | EmptyString => (EmptyString, [])
  | String c s' =>
      match s' with
      | String d s'' =>
          if Ascii.eqb c "," && Ascii.eqb d " " then
            let r := pieces s'' in (EmptyString, r.1 :: r.2)
          else let r := pieces s' in (String c r.1, r.2)
      | EmptyString => (String c EmptyString, [])
      end
  end.

Definition split (s : string) : list string :=
  let r := pieces s in r.1 :: r.2.

(** The text up to the first dash and the text after it. *)
Fixpoint split_dash (s : string) : option (string * string) :=
  match s with
  | EmptyString => None
  | String c s' =>
      if Ascii.eqb c "-" then Some (EmptyString, s')
      else match split_dash s' with
           | Some (a, b) => Some (String c a, b)
           | None => None
           end
  end.

(** Expansion of one token, in the words of the claim: a standalone
    number to itself, a token [a-b] to the inclusive sequence from [a] to
    [b].  The dash that separates the two numbers is the first one after
    the leading character, which may be the sign of [a]. *)
Definition expand_token (t : string) : option (list Z) :=
  match t with
  | EmptyString => None
  | String c r =>
      match split_dash r with
      | None =>
          match Py.int t with
          | Some a => Some [a]
          | None => None
          end
      | Some (a, b) =>
          match Py.int (String c a), Py.int b with
          | Some x, Some y => Some (Py.range_incl x y)
          | _, _ => None
          end
      end
  end.

Fixpoint expand_tokens (ts : list string) : option (list Z) :=
  match ts with
  | [] => Some []
  | t :: ts' =>
      match expand_token t, expand_tokens ts' with
      | Some l, Some l' => Some (l ++ l')%list
      | _, _ => None
      end
  end.

(** Expansion of a range text: every comma-separated token expanded, in
    order. *)
Definition expand (s : string) : option (list Z) := expand_tokens (split s).

End RangeText.

(** ** Predicates of the statements *)

(** Every character of [s] satisfies [P]. *)
Fixpoint chars_in (P : ascii -> bool) (s : string) : bool :=
  match s with
  | EmptyString => true
  | String c s' => P c && chars_in P s'
  end.

(** A character of the decimal text of an integer. *)
Definition is_numeric (c : ascii) : bool := Py.is_digit c || Ascii.eqb c "-".

(** The report ids of a list of result rows. *)
Definition keys (rows : list ResultRecord) : list string := map report_id rows.

(** The integers that a pair [(start, end)] of the range loop stands
    for. *)
Definition span (p : Z * Z) : list Z := Py.range_incl p.1 p.2.

Definition not_comma (c : ascii) : bool := negb (Ascii.eqb c ",").

(** The flush reaches its rename and the rename succeeds. *)
Definition write_phase_ok (faults : Faults) : bool :=
  match master_write faults with
  | WriteOk => negb (master_rename_raises faults)
  | WriteRaises _ => false
  end.

Definition catalog_len (env : Env) : Z :=
  match catalog env with
  | CatalogRows rows => Z.of_nat (length rows)
  | _ => 0
  end.

(** A flush attempted in the world [w] replaces the master file. *)
Definition flush_commits (env : Env) (w : World) : bool :=
  match catalog env with
  | CatalogRows rows =>
      negb (Z.of_nat (length rows) =? 0) && write_phase_ok (io_faults env (time w))
  | _ => false
  end.

(** The world after an external processing call for [id]. *)
Definition called (id : string) (w : World) : World :=
  mkWorld (fs w) (id :: api_calls w) (S (time w)).

(** The rows of the durable store, when it can be read. *)
Definition store_rows (path : string) (w : World) : option (list ResultRecord) :=
  read_results path (fs w).

(** At most one row per report id in the durable store. *)
Definition unique_keys (path : string) (w : World) : Prop :=
  forall rows, store_rows path w = Some rows -> NoDup (keys rows).

(** ** Scenarios *)

Definition a_row : CatalogRow := mkRow "Orders by day" "daily orders" "select 1".
Definition a_bad_row : CatalogRow := mkRow "Orders by day" "daily orders" "nan".

(** A world in which every call succeeds and no operation fails. *)
Definition calm (rows : list CatalogRow) (sigint : option nat) : Env :=
  mkEnv (CatalogRows rows) true (fun _ _ => ApiReturned (Some "summary"))
        (fun t => Py.str (Z.of_nat t)) (fun _ => no_faults) sigint.

Definition empty_world : World := mkWorld ∅ [] 0.

(** ** The loop of the bulletproof processor, iteration by iteration *)

(** The state after the body of the loop ran for the [i]-th entry. *)
Definition item_state (env : Env) (df : list CatalogRow) (i : nat) (report_num : Z)
    (s : Bulletproof.St) : Bulletproof.St :=
  final_state (Bulletproof.process_item env df i report_num s).

(** The state after the iterations for [items], the first at position
    [i], when no signal arrives. *)
Fixpoint loop_state (env : Env) (df : list CatalogRow) (i : nat) (items : list Z)
    (s : Bulletproof.St) : Bulletproof.St :=
  match items with
  | [] => s
  | report_num :: rest => loop_state env df (S i) rest (item_state env df i report_num s)
  end.

(** The error classifications of the bulletproof processor. *)
Definition error_class (e : string) : Prop :=
  e = "Missing essential data" \/ e = "API call failed"
  \/ exists msg, e = "Unexpected error: " +:+ msg.

(** What one iteration records before the checkpoint test: a failure
    without a call, a failure after a call that raised, a failure after a
    call without a response, or a result.  The flag tells whether the
    checkpoint test is reached. *)
Inductive attempt (report_num : Z) : Bulletproof.St -> Bulletproof.St -> bool -> Prop :=
| attempt_rejected p w f :
    failed_report_id f = report_key report_num -> error_class (error f) ->
    attempt report_num (p, w) (Bulletproof.add_failure f p, w) false
| attempt_raised p w f :
    failed_report_id f = report_key report_num -> error_class (error f) ->
    attempt report_num (p, w)
      (Bulletproof.add_failure f p, called (report_key report_num) w) false
| attempt_failed p w f :
    failed_report_id f = report_key report_num -> error_class (error f) ->
    attempt report_num (p, w)
      (Bulletproof.add_failure f p, called (report_key report_num) w) true
| attempt_done p w r :
    report_id r = report_key report_num ->
    attempt report_num (p, w)
      (Bulletproof.add_result r p, called (report_key report_num) w) true.

(** The checkpoint test [(i + 1) % self.save_frequency == 0] and what
    follows it. *)
Definition checkpoint (env : Env) (i : nat) (report_num : Z) (s : Bulletproof.St)
  : Bulletproof.St :=
  if Bulletproof.save_frequency s.1 =? 0 then
    (Bulletproof.add_failure
       (mkFailure (report_key report_num)
          ("Unexpected error: " +:+ "integer modulo by zero") (Some "Unknown")) s.1,
     s.2)
  else if (Z.of_nat i + 1) mod Bulletproof.save_frequency s.1 =? 0
       then final_state (Bulletproof.save_all_progress env s)
       else s.

(** The buffer and the store agree on unique report ids: no id twice in
    the buffer, every id of the buffer marked as processed, no id twice in
    the master file. *)
Definition coherent (s : Bulletproof.St) : Prop :=
  NoDup (keys (Bulletproof.all_results s.1))
  /\ (forall k, k ∈ keys (Bulletproof.all_results s.1) -> k ∈ Bulletproof.processed_reports s.1)
  /\ unique_keys Bulletproof.master_file s.2.

(** The rows that [load_existing_work] keeps: the rows of the master
    file, those without a report id too. *)
Definition kept_rows (w : World) : list ResultRecord :=
  match store_rows Bulletproof.master_file w with
  | Some rows => rows
  | None => []
  end.

(** ** The loop of the large batch processor, iteration by iteration *)

Definition batch_item_state (env : Env) (df : list CatalogRow)
    (info : LargeBatch.BatchInfo) (report_num : Z) (s : LargeBatch.Run) : LargeBatch.Run :=
  final_state (LargeBatch.process_item env df info report_num s).

Fixpoint batch_loop_state (env : Env) (df : list CatalogRow)
    (info : LargeBatch.BatchInfo) (items : list Z) (s : LargeBatch.Run) : LargeBatch.Run :=
  match items with
  | [] => s
  | report_num :: rest =>
      batch_loop_state env df info rest (batch_item_state env df info report_num s)
  end.

(** The rows that a checkpoint of the run [s] writes. *)
Definition batch_rows (s : LargeBatch.Run) : list ResultRecord :=
  (LargeBatch.all_existing_results s ++ LargeBatch.new_results s)%list.

(** No id twice among the rows of the run, nor in the master file. *)
Definition batch_coherent (s : LargeBatch.Run) : Prop :=
  NoDup (keys (batch_rows s)) /\ unique_keys LargeBatch.master_file (LargeBatch.world s).

Definition with_world (s : LargeBatch.Run) (w : World) : LargeBatch.Run :=
  LargeBatch.mkRun (LargeBatch.self s) (LargeBatch.all_existing_results s)
    (LargeBatch.new_results s) (LargeBatch.failed s) (LargeBatch.checkpoint_count s) w.


(** What an iteration may change: the new results grow by at most one
    row, which carries the id of the report; at most one call is made; the
    master file is left alone or replaced by the rows of the run. *)
Definition item_effect (n : Z) (s s' : LargeBatch.Run) : Prop :=
  LargeBatch.self s' = LargeBatch.self s
  /\ LargeBatch.all_existing_results s' = LargeBatch.all_existing_results s
  /\ (LargeBatch.new_results s' = LargeBatch.new_results s
      \/ exists r, report_id r = report_key n
                   /\ LargeBatch.new_results s' = (LargeBatch.new_results s ++ [r])%list)
  /\ (api_calls (LargeBatch.world s') = api_calls (LargeBatch.world s)
      \/ api_calls (LargeBatch.world s') = report_key n :: api_calls (LargeBatch.world s))
  /\ (fs (LargeBatch.world s') !! LargeBatch.master_file = fs (LargeBatch.world s) !! LargeBatch.master_file
      \/ exists summary,
           fs (LargeBatch.world s') !! LargeBatch.master_file = Some (Workbook (batch_rows s') summary [])).


(** A computation keeps [P] when [P] holds of the state it ends in,
    however it ends, whenever [P] holds of the state it starts in. *)
Definition keeps {S A} (P : S -> Prop) (m : M S A) : Prop :=
  forall s, P s -> P (final_state (m s)).

(** The rows that [process_large_batch] starts from. *)
Definition baseline_rows (w : World) : list ResultRecord :=
  match store_rows LargeBatch.master_file w with
  | Some rows => rows
  | None => []
  end.

(** The error classifications of the generator's own loop. *)
Definition generator_error_class (e : string) : Prop :=
  e = "Missing essential data (name or SQL)"
  \/ e = "API call failed or content blocked"
  \/ exists msg, e = "Unexpected error: " +:+ msg.

(** What the iteration for [report_num] leaves in the generator: one more
    result for the report, or one more failure with its id and a
    classification and the results as they were. *)
Definition generator_recorded (report_num : Z) (g g' : Generator.Generator) : Prop :=
  (exists r, report_id r = report_key report_num
             /\ Generator.results g' = (Generator.results g ++ [r])%list
             /\ Generator.failed_reports g' = Generator.failed_reports g)
  \/ (Generator.results g' = Generator.results g
      /\ exists f, Generator.failed_reports g' = (Generator.failed_reports g ++ [f])%list
                   /\ failed_report_id f = report_key report_num
                   /\ generator_error_class (error f)).

(** The number of records, results and failures together. *)
Definition generator_records (g : Generator.Generator) : nat :=
  (length (Generator.results g) + length (Generator.failed_reports g))%nat.

(** A result row for report [n]. *)
Definition result_for (n : Z) (response : string) : ResultRecord :=
  mkResult (report_key n) "Orders by day" "daily orders" "select 1" response "t".

(** A master file that holds two rows for report 1. *)
Definition duplicated_world : World :=
  mkWorld {[ Bulletproof.master_file :=
               Workbook [result_for 1 "first"; result_for 1 "second"]
                        (mkSummary 1 2 0 "t" None) [] ]} [] 0.

(** A master file that cannot be parsed. *)
Definition corrupt_world : World :=
  mkWorld {[ Bulletproof.master_file := Corrupt "PK" ]} [] 0.

(** A master file with a row for each of two reports. *)
Definition complete_world : World :=
  mkWorld {[ Bulletproof.master_file :=
               Workbook [result_for 1 "first"; result_for 2 "second"]
                        (mkSummary 2 2 0 "t" None) [] ]} [] 0.

(** Ten reports, the fifth without a query. *)
Definition fifth_bad : list CatalogRow :=
  (replicate 4 a_row ++ [a_bad_row] ++ replicate 5 a_row)%list.

(** A world in which the write of the temporary master file breaks off
    and leaves a partial file. *)
Definition broken_write : Env :=
  mkEnv (CatalogRows [a_row]) true (fun _ _ => ApiReturned (Some "summary"))
        (fun t => Py.str (Z.of_nat t))
        (fun _ => mkFaults (WriteRaises (Some (Corrupt "half"))) false WriteOk false WriteOk)
        None.

(** A world in which the external call raises. *)
Definition raising_call : Env :=
  mkEnv (CatalogRows [a_row]) true (fun _ _ => ApiRaised "timeout")
        (fun t => Py.str (Z.of_nat t)) (fun _ => no_faults) None.

(** The ids of the buffer that have no row in the durable store. *)
Definition only_in_memory (s : Bulletproof.St) : list string :=
  let durable := match store_rows Bulletproof.master_file s.2 with
                 | Some rows => keys rows
                 | None => []
                 end in
  List.filter (fun k => negb (bool_decide (k ∈ durable)))
              (keys (Bulletproof.all_results s.1)).

(** ** Maximal ranges *)

(** No range of the list starts right after the end of the range before
    it. *)
Fixpoint separated (l : list (Z * Z)) : Prop :=
  match l with
  | p :: (q :: _) as rest => q.1 <> p.2 + 1 /\ separated rest
  | _ => True
  end.

(** ** Predicates of the further properties *)

(** The write of the state file and its rename both succeed. *)
Definition state_phase_ok (faults : Faults) : bool :=
  match state_write faults with
  | WriteOk => negb (state_rename_raises faults)
  | WriteRaises _ => false
  end.

(** The failures that [load_existing_work] takes from the state file:
    its [failed_reports] entry, nothing when the file is absent or cannot
    be read. *)
Definition state_failures (w : World) : list FailureRecord :=
  match fs w !! Bulletproof.state_file with
  | Some (StateJson _ failed _ _) => failed
  | _ => []
  end.

(** The result row [r] is made from the catalog row of its number: its id
    is [Report_n] for a position [n] of the catalog, it repeats the three
    columns of that row, the row has a name and a query, and the response
    is not empty. *)
Definition from_catalog (df : list CatalogRow) (r : ResultRecord) : Prop :=
  exists n row,
    report_id r = report_key n
    /\ 1 <= n <= Z.of_nat (length df)
    /\ df !! Z.to_nat (n - 1) = Some row
    /\ original_report_name r = report_name row
    /\ original_description r = description row
    /\ original_sql_query r = sql_query row
    /\ missing_essential_data row = false
    /\ raw_response r <> EmptyString.

(** The rows of the buffer and the rows of the master file, where the
    run has replaced it, are made from the catalog. *)
Definition rows_from_catalog_inv (df : list CatalogRow) (w0 : World) (s : Bulletproof.St) : Prop :=
  Forall (from_catalog df) (Bulletproof.all_results s.1)
  /\ (fs s.2 !! Bulletproof.master_file = fs w0 !! Bulletproof.master_file
      \/ exists rows summary failed,
           fs s.2 !! Bulletproof.master_file = Some (Workbook rows summary failed)
           /\ Forall (from_catalog df) rows).

(** The number of new results that the checkpoints of the run [s] have
    covered: the largest multiple of the checkpoint frequency that is not
    above their number. *)
Definition covered (s : LargeBatch.Run) : nat :=
  let K := LargeBatch.checkpoint_frequency (LargeBatch.self s) in
  Z.to_nat (K * (Z.of_nat (length (LargeBatch.new_results s)) / K)).

(** The master file of the run [s] holds the existing rows and the new
    results that the checkpoints have covered, when they have covered
    any. *)
Definition covered_in_store (s : LargeBatch.Run) : Prop :=
  covered s <> 0%nat ->
  exists summary,
    fs (LargeBatch.world s) !! LargeBatch.master_file
    = Some (Workbook (LargeBatch.all_existing_results s
                      ++ take (covered s) (LargeBatch.new_results s)) summary []).

(** The name of the incremental progress file of the generator,
    [f"temp_progress_{completed_in_session}_reports.xlsx"]. *)
Definition progress_file (completed_in_session : Z) : string :=
  "temp_progress_" +:+ Py.str completed_in_session +:+ "_reports.xlsx".

(** The completed ids of the recovery script are the ids of its
    buffer. *)
Definition ids_agree (p : Recovery.Processor) : Prop :=
  forall k, k ∈ Recovery.processed_reports p <-> k ∈ keys (Recovery.all_results p).

(** A master file of the recovery script with one row, and a progress
    file of the generator that repeats its id and brings another. *)
Definition merge_world : World :=
  mkWorld {[ Recovery.master_results_file :=
               Workbook [result_for 1 "first"] (mkSummary 2 1 0 "t" None) [];
             progress_file 25 :=
               Workbook [result_for 1 "again"; result_for 2 "second"]
                        (mkSummary 2 2 0 "t" None) [] ]} [] 0.

(** A generator that holds one result. *)
Definition one_result : Generator.Generator :=
  Generator.mkGenerator (Some [a_row; a_row]) [result_for 2 "second"] [].

(** ** The response of the model, as the generator reads it *)

Module Response.











End Response.

(** ** combine_all_results.py *)

Module Combine.

(** The three accumulators of [combine_all_results]. *)
Record Acc := mkAcc {
  all_results : list ResultRecord;
  all_failed : list FailureRecord;
  processed_report_ids : gset string
}.

(** The body of the loop over the rows of the results sheet (lines
    49-54): a row is added only when its id is new.  The test
    [if report_id] holds for every row of a sheet (NaN is true), so the
    first row without an id is added too.  NaN is one object for the cells
    of a column that holds text, and is then found in the set. *)
Definition add_result_row (a : Acc) (row : ResultRecord) : Acc :=
  if bool_decide (report_id row ∈ processed_report_ids a)
  then a
  else mkAcc (all_results a ++ [row]) (all_failed a)
             ({[report_id row]} ∪ processed_report_ids a).

(** The body of the loop over the rows of the sheet of failures (lines
    65-68).  The ids are compared with [==], and NaN equals nothing: a
    failure without an id is added every time. *)
Definition add_failed_row (a : Acc) (row : FailureRecord) : Acc :=
  if negb (bool_decide (failed_report_id row = ""))
     && existsb (fun f => bool_decide (failed_report_id f = failed_report_id row))
                (all_failed a)
  then a
  else mkAcc (all_results a) (all_failed a ++ [row]) (processed_report_ids a).

(** The body of the loop over the files (lines 38-73): each of the two
    sheets is read in a [try] statement of its own; a file that is no
    workbook gives nothing, a workbook without failures has no sheet of
    failures. *)
Definition read_file (files : FS) (a : Acc) (file_path : string) : Acc :=
  match files !! file_path with
  | Some (Workbook results _ failed) =>
      foldl add_failed_row (foldl add_result_row a results) failed
  | _ => a
  end.

(** [all_files]: the matches of the two patterns, sorted by modification
    time with the stable [list.sort]. *)
Definition all_files (getmtime : string -> Z) (files : FS) : list string :=
  sort_by getmtime
    (Recovery.glob "temp_progress_*.xlsx" files
     ++ Recovery.glob "metabase_reports_with_business_context_*.xlsx" files)%list.

Definition output_file (timestamp : string) : string :=
  "COMPLETE_metabase_reports_with_business_context_" +:+ timestamp +:+ ".xlsx".

Section SortValues.

(** [results_df.sort_values('_sort_key')]: the default algorithm of
    pandas is not stable, so the order of rows of equal key is left to the
    parameter. *)
Variable sort_values : list ResultRecord -> list ResultRecord.

(** [combine_all_results] (lines 14-148); [getmtime] gives the
    modification time of a file.  The output file is written in place. *)
Definition combine_all_results (env : Env) (getmtime : string -> Z)
  : M World (option string) :=
  w <~ get;
  let a := foldl (read_file (fs w)) (mkAcc [] [] ∅) (all_files getmtime (fs w)) in
  match all_results a with
  | [] => ret None
  | _ :: _ =>
      let stamp := now env (time w) in
      _ <~ modify tick;
      _ <~ write_file (master_write (io_faults env (time w))) (output_file stamp)
             (Workbook (sort_values (all_results a))
                (mkSummary 1555 (Z.of_nat (length (all_results a)))
                   (Z.of_nat (length (all_failed a))) stamp None)
                (all_failed a));
      ret (Some (output_file stamp))
  end.

End SortValues.

End Combine.

(** The rows of the results sheets of the files that [combine_all_results]
    reads. *)
Definition combined_input (getmtime : string -> Z) (files : FS) (r : ResultRecord) : Prop :=
  exists path rows,
    path ∈ Combine.all_files getmtime files
    /\ read_results path files = Some rows /\ r ∈ rows.

(** The accumulators of [combine_all_results] hold no id twice: the ids
    seen are the ids of the results, no result repeats an id (the empty id
    of a row without one included), no failure repeats an id that is not
    empty, and every result satisfies [origin]. *)
Definition combine_inv (origin : ResultRecord -> Prop) (a : Combine.Acc) : Prop :=
  (forall k, k ∈ Combine.processed_report_ids a <-> k ∈ keys (Combine.all_results a))
  /\ NoDup (keys (Combine.all_results a))
  /\ Forall origin (Combine.all_results a)
  /\ NoDup (filter (fun k => k <> EmptyString)
                   (map failed_report_id (Combine.all_failed a))).

(** Two progress files of the generator that share a report; the second
    has a row without an id. *)
Definition progress_world : World :=
  mkWorld {[ progress_file 25 :=
               Workbook [result_for 1 "first"; result_for 2 "second"]
                        (mkSummary 3 2 0 "t" None) [];
             progress_file 50 :=
               Workbook [result_for 2 "again"; result_for 3 "third";
                         mkResult "" "Orders" "" "select 2" "text" "t"]
                        (mkSummary 3 2 0 "t" None)
                        [mkFailure "Report_4" "API call failed or content blocked" None] ]}
          [] 0.

(** The rows of the master file of the small batch processor; none when
    the file is absent. *)
Definition master_rows (files : FS) : list ResultRecord :=
  match read_results SmallBatch.master_file files with
  | Some rows => rows
  | None => []
  end.

(** The master file is absent or a workbook. *)
Definition master_readable (files : FS) : Prop :=
  is_Some (files !! SmallBatch.master_file)
  -> is_Some (read_results SmallBatch.master_file files).

(** Between [s] and [s'] the files are untouched, and every report of
    [items] got one entry: a result or a failure under its id. *)
Definition accounted (items : list Z) (s s' : SmallBatch.St) : Prop :=
  fs s'.2 = fs s.2
  /\ exists rs fl,
       SmallBatch.results s'.1 = (SmallBatch.results s.1 ++ rs)%list
       /\ SmallBatch.failed s'.1 = (SmallBatch.failed s.1 ++ fl)%list
       /\ (map report_id rs ++ map failed_report_id fl)%list ≡ₚ map report_key items.

(** The small batch processor's save reaches the rename of the master
    file and that rename succeeds. *)
Definition small_save_commits (env : Env) (df : list CatalogRow) (w : World) : bool :=
  negb (Z.of_nat (length df) =? 0) && write_phase_ok (io_faults env (time w)).

(** ** Per-item failures *)

(** The per-item failures of the loop of the bulletproof processor, with
    the error text of each: the report has no row in the catalog, the row
    lacks its name or its query, the call returns no text (an API failure,
    blocked content or a timeout, all of which [call_gemini_api] reports
    by returning [None]), or an exception escapes the call.  [t] is the
    time of the call. *)
Inductive item_failure (env : Env) (df : list CatalogRow) (report_num : Z) (t : nat)
  : string -> Prop :=
| fails_no_row e :
    iloc df (report_num - 1) tt = Raise e tt ->
    item_failure env df report_num t ("Unexpected error: " +:+ e)
| fails_missing_data row :
    iloc df (report_num - 1) tt = Ok row tt ->
    missing_essential_data row = true ->
    item_failure env df report_num t "Missing essential data"
| fails_no_response row response :
    iloc df (report_num - 1) tt = Ok row tt ->
    missing_essential_data row = false ->
    call_gemini_api env t (report_key report_num) = ApiReturned response ->
    response = None \/ response = Some EmptyString ->
    item_failure env df report_num t "API call failed"
| fails_raised row msg :
    iloc df (report_num - 1) tt = Ok row tt ->
    missing_essential_data row = false ->
    call_gemini_api env t (report_key report_num) = ApiRaised msg ->
    item_failure env df report_num t ("Unexpected error: " +:+ msg).

(** The same for the loop of the generator, which has its row already. *)
Inductive generator_item_failure (env : Env) (row : CatalogRow) (index : Z) (t : nat)
  : string -> Prop :=
| generator_missing_data :
    missing_essential_data row = true ->
    generator_item_failure env row index t "Missing essential data (name or SQL)"
| generator_no_response response :
    missing_essential_data row = false ->
    call_gemini_api env t (report_key (index + 1)) = ApiReturned response ->
    response = None \/ response = Some EmptyString ->
    generator_item_failure env row index t "API call failed or content blocked"
| generator_raised msg :
    missing_essential_data row = false ->
    call_gemini_api env t (report_key (index + 1)) = ApiRaised msg ->
    generator_item_failure env row index t ("Unexpected error: " +:+ msg).

(** A world in which the call for the first report raises, the call for
    the fourth returns nothing and every other call succeeds. *)
Definition flaky (rows : list CatalogRow) : Env :=
  mkEnv (CatalogRows rows) true
        (fun _ id => if bool_decide (id = "Report_1") then ApiRaised "timeout"
                     else if bool_decide (id = "Report_4") then ApiReturned None
                     else ApiReturned (Some "summary"))
        (fun t => Py.str (Z.of_nat t)) (fun _ => no_faults) None.


(** * Facts about the built-ins *)

Module PyFacts.

Lemma chars_in_app P s t :
  chars_in P (s +:+ t) = chars_in P s && chars_in P t.
Proof.
  induction s as [|c s IH]; simpl; [reflexivity|].
  rewrite IH. now rewrite andb_assoc.
Qed.

Lemma chars_in_weaken (P Q : ascii -> bool) s :
  (forall c, P c = true -> Q c = true) ->
  chars_in P s = true -> chars_in Q s = true.
Proof.
  intros HPQ. induction s as [|c s IH]; simpl; [reflexivity|].
  intros [Hc Hs]%andb_true_iff. rewrite (HPQ _ Hc), (IH Hs). reflexivity.
Qed.

Lemma digit_not_space c : Py.is_digit c = true -> Py.is_space c = false.
Proof. destruct c as [[] [] [] [] [] [] [] []]; now vm_compute. Qed.

Lemma digit_not_sign c :
  Py.is_digit c = true -> Ascii.eqb c "-" = false /\ Ascii.eqb c "+" = false.
Proof. destruct c as [[] [] [] [] [] [] [] []]; now vm_compute. Qed.

Lemma numeric_not_space c : is_numeric c = true -> Py.is_space c = false.
Proof. destruct c as [[] [] [] [] [] [] [] []]; now vm_compute. Qed.

Lemma uint_text_digits d : chars_in Py.is_digit (NilEmpty.string_of_uint d) = true.
Proof. induction d; simpl; auto. Qed.

Lemma uint_text_nonempty d : d <> Nil -> NilEmpty.string_of_uint d <> EmptyString.
Proof. destruct d; simpl; congruence. Qed.

Lemma int_digits_all b s :
  chars_in Py.is_digit s = true -> (s <> EmptyString \/ b = true) ->
  Py.int_digits b s = Some s.
Proof.
  revert b. induction s as [|c s IH]; simpl; intros b Hs Hb.
  - destruct Hb as [Hb| ->]; [congruence | reflexivity].
  - apply andb_true_iff in Hs as [Hc Hs]. rewrite Hc.
    rewrite (IH true Hs) by now right. reflexivity.
Qed.

Lemma uint_nil_or d : d = Nil \/ d <> Nil.
Proof. destruct d; [now left | right; congruence ..]. Qed.

(** The magnitude read back from the decimal text of [d]. *)
Lemma int_magnitude_uint d :
  Py.int_magnitude (NilZero.string_of_uint d) = Some (Z.of_uint d).
Proof.
  destruct (uint_nil_or d) as [->|Hd]; [reflexivity|].
  assert (NilZero.string_of_uint d = NilEmpty.string_of_uint d) as ->
    by now destruct d.
  unfold Py.int_magnitude.
  rewrite int_digits_all; [| apply uint_text_digits | left; now apply uint_text_nonempty].
  now rewrite NilEmpty.usu.
Qed.

Lemma uint_text_shape d :
  exists c r, NilZero.string_of_uint d = String c r
              /\ Py.is_digit c = true /\ chars_in Py.is_digit r = true.
Proof.
  destruct (uint_nil_or d) as [->|Hd].
  - exists "0"%char, EmptyString. now vm_compute.
  - assert (NilZero.string_of_uint d = NilEmpty.string_of_uint d) as ->
      by now destruct d.
    pose proof (uint_text_digits d) as Hall.
    pose proof (uint_text_nonempty d Hd) as Hne.
    destruct (NilEmpty.string_of_uint d) as [|c r]; [congruence|].
    simpl in Hall. apply andb_true_iff in Hall as [Hc Hr]. eauto.
Qed.

Lemma rstrip_id s :
  chars_in (fun c => negb (Py.is_space c)) s = true -> Py.rstrip s = s.
Proof.
  induction s as [|c s IH]; simpl; [reflexivity|].
  intros [Hc Hs]%andb_true_iff. rewrite (IH Hs).
  destruct s; [|reflexivity].
  now apply negb_true_iff in Hc as ->.
Qed.

Lemma strip_id s :
  chars_in (fun c => negb (Py.is_space c)) s = true -> Py.strip s = s.
Proof.
  intros Hs. unfold Py.strip.
  assert (Py.lstrip s = s) as ->.
  { destruct s as [|c s]; simpl in *; [reflexivity|].
    apply andb_true_iff in Hs as [Hc _]. now apply negb_true_iff in Hc as ->. }
  now apply rstrip_id.
Qed.

Lemma numeric_no_space s :
  chars_in is_numeric s = true -> chars_in (fun c => negb (Py.is_space c)) s = true.
Proof.
  apply chars_in_weaken. intros c Hc. now rewrite (numeric_not_space c Hc).
Qed.

Lemma digits_numeric s : chars_in Py.is_digit s = true -> chars_in is_numeric s = true.
Proof.
  apply chars_in_weaken. intros c Hc. unfold is_numeric. now rewrite Hc.
Qed.

(** The text of an integer: an optional sign, then digits. *)
Lemma str_shape z :
  exists c r, Py.str z = String c r
              /\ is_numeric c = true /\ chars_in Py.is_digit r = true.
Proof.
  unfold Py.str. destruct (Z.to_int z) as [d|d]; simpl.
  - destruct (uint_text_shape d) as (c & r & -> & Hc & Hr).
    exists c, r. unfold is_numeric. now rewrite Hc.
  - destruct (uint_text_shape d) as (c & r & -> & Hc & Hr).
    exists "-"%char, (String c r). simpl. now rewrite Hc, Hr.
Qed.

Lemma str_numeric z : chars_in is_numeric (Py.str z) = true.
Proof.
  destruct (str_shape z) as (c & r & -> & Hc & Hr). simpl.
  now rewrite Hc, (digits_numeric r Hr).
Qed.

Lemma int_of_int_text (i : Decimal.int) :
  Py.int (NilZero.string_of_int i) = Some (Z.of_int i).
Proof.
  destruct i as [d|d]; simpl.
  - destruct (uint_text_shape d) as (c & r & Heq & Hc & Hr).
    unfold Py.int. rewrite strip_id.
    2:{ rewrite Heq. apply numeric_no_space, digits_numeric. simpl. now rewrite Hc, Hr. }
    pose proof (int_magnitude_uint d) as Hm. rewrite Heq in *.
    destruct (digit_not_sign c Hc) as [-> ->]. exact Hm.
  - unfold Py.int. rewrite strip_id.
    2:{ destruct (uint_text_shape d) as (c & r & -> & Hc & Hr).
        apply numeric_no_space.
        change (is_numeric "-" && chars_in is_numeric (String c r) = true).
        rewrite (digits_numeric (String c r)) by (simpl; now rewrite Hc, Hr).
        reflexivity. }
    simpl. now rewrite int_magnitude_uint.
Qed.

(** [int(str(z)) == z] *)
Lemma int_str z : Py.int (Py.str z) = Some z.
Proof. unfold Py.str. now rewrite int_of_int_text, DecimalZ.of_to. Qed.

Lemma str_inj a b : Py.str a = Py.str b -> a = b.
Proof.
  intros H. apply (f_equal Py.int) in H. rewrite !int_str in H. congruence.
Qed.

(** Nothing is replaced in a text that lacks the first character of
    [old]. *)
Lemma replace_absent c old new s :
  chars_in (fun d => negb (Ascii.eqb c d)) s = true ->
  Py.replace_from (String c old) new 0 s = s.
Proof.
  induction s as [|d s IH]; simpl; [reflexivity|].
  intros [Hd Hs]%andb_true_iff. apply negb_true_iff in Hd.
  destruct (ascii_dec c d) as [->|Hne].
  - now rewrite Ascii.eqb_refl in Hd.
  - now rewrite (IH Hs).
Qed.

Lemma numeric_not_R s :
  chars_in is_numeric s = true ->
  chars_in (fun d => negb (Ascii.eqb "R" d)) s = true.
Proof.
  apply chars_in_weaken.
  intros c. destruct c as [[] [] [] [] [] [] [] []]; now vm_compute.
Qed.

Lemma replace_report_prefix s :
  Py.replace ("Report_" +:+ s) "Report_" "" = Py.replace s "Report_" "".
Proof. unfold Py.replace. destruct s; reflexivity. Qed.

(** [f"Report_{n}".replace('Report_', '')] is the text of [n], and [int]
    reads [n] back. *)
Lemma report_number_key n : report_number (report_key n) = Some n.
Proof.
  unfold report_number, report_key. rewrite replace_report_prefix.
  unfold Py.replace.
  rewrite replace_absent by apply numeric_not_R, str_numeric.
  apply int_str.
Qed.

Lemma report_key_inj a b : report_key a = report_key b -> a = b.
Proof.
  intros H. apply (f_equal report_number) in H.
  rewrite !report_number_key in H. congruence.
Qed.

Lemma report_key_nonempty n : report_key n <> EmptyString.
Proof. unfold report_key. intros H. exact (eq_ind ("Report_" +:+ Py.str n) (fun s => match s with EmptyString => False | _ => True end) I _ H). Qed.

End PyFacts.

(** * The range text of [_format_ranges] *)

Module RangeFacts.
Import PyFacts.

Lemma range_incl_single a : Py.range_incl a a = [a].
Proof.
  unfold Py.range_incl. replace (a - a + 1) with 1 by lia.
  simpl. f_equal. lia.
Qed.

Lemma range_incl_snoc a b :
  a <= b -> Py.range_incl a (b + 1) = (Py.range_incl a b ++ [b + 1])%list.
Proof.
  intros Hab. unfold Py.range_incl.
  replace (Z.to_nat (b + 1 - a + 1)) with (S (Z.to_nat (b - a + 1))) by lia.
  rewrite seq_S, map_app. simpl. do 2 f_equal. lia.
Qed.

(** The loop with any rendering of a range is the loop on pairs, rendered
    afterwards. *)
Lemma range_fold_render {T} (tok : Z -> Z -> T) l ranges start end_ :
  (foldl (Bulletproof.range_step tok)
         (map (fun p : Z * Z => tok p.1 p.2) ranges, start, end_) l).1.1
  = map (fun p : Z * Z => tok p.1 p.2)
        (foldl (Bulletproof.range_step pair) (ranges, start, end_) l).1.1.
Proof.
  revert ranges start end_.
  induction l as [|num l IH]; intros ranges start end_; simpl; [reflexivity|].
  destruct num as [n|]; simpl.
  - destruct (n =? end_ + 1); simpl.
    + apply IH.
    + rewrite <- IH. now rewrite map_app.
  - rewrite <- IH. now rewrite map_app.
Qed.

Lemma range_loop_render {T} (tok : Z -> Z -> T) first rest :
  Bulletproof.range_loop tok first rest
  = map (fun p : Z * Z => tok p.1 p.2) (Bulletproof.range_loop pair first rest).
Proof. unfold Bulletproof.range_loop. apply (range_fold_render tok _ []). Qed.

(** The invariant of the loop: the ranges closed so far, the open range
    and the numbers still to come make up the input. *)
Lemma range_fold_spans rest ranges start end_ :
  start <= end_ ->
  Forall (fun p : Z * Z => p.1 <= p.2) ranges ->
  let out := (foldl (Bulletproof.range_step pair) (ranges, start, end_)
                    (map Some rest ++ [None])%list).1.1 in
  Forall (fun p : Z * Z => p.1 <= p.2) out
  /\ concat (map span out)
     = (concat (map span ranges) ++ Py.range_incl start end_ ++ rest)%list.
Proof.
  revert ranges start end_.
  induction rest as [|n rest IH]; intros ranges start end_ Hle Hok; simpl.
  - split.
    + apply Forall_app; split; [exact Hok | now constructor].
    + rewrite map_app, concat_app. simpl. unfold span. simpl.
      now rewrite !app_nil_r.
  - destruct (Z.eqb_spec n (end_ + 1)) as [->|Hne]; simpl.
    + destruct (IH ranges start (end_ + 1)) as [H1 H2]; [lia | exact Hok |].
      split; [exact H1|]. rewrite H2, range_incl_snoc by exact Hle.
      now rewrite <- !app_assoc.
    + destruct (IH (ranges ++ [(start, end_)])%list n n) as [H1 H2]; [lia | |].
      { apply Forall_app; split; [exact Hok | now constructor]. }
      split; [exact H1|]. rewrite H2, map_app, concat_app, range_incl_single.
      simpl. unfold span. simpl. now rewrite app_nil_r, <- !app_assoc.
Qed.

Lemma range_loop_spans first rest :
  let out := Bulletproof.range_loop pair first rest in
  Forall (fun p : Z * Z => p.1 <= p.2) out
  /\ concat (map span out) = first :: rest.
Proof.
  destruct (range_fold_spans rest [] first first) as [H1 H2]; [lia | constructor |].
  split; [exact H1|]. unfold Bulletproof.range_loop. rewrite H2, range_incl_single.
  reflexivity.
Qed.

Lemma range_loop_nonempty {T} (tok : Z -> Z -> T) l st :
  (foldl (Bulletproof.range_step tok) st (l ++ [None])%list).1.1 <> [].
Proof.
  revert st. induction l as [|num l IH]; intros [[ranges start] end_]; simpl.
  - now destruct ranges.
  - apply IH.
Qed.

(** *** Reading a token back *)

Lemma split_dash_digits r : chars_in Py.is_digit r = true -> RangeText.split_dash r = None.
Proof.
  induction r as [|c r IH]; simpl; [reflexivity|].
  intros [Hc Hr]%andb_true_iff.
  destruct (digit_not_sign c Hc) as [-> _]. now rewrite (IH Hr).
Qed.

Lemma split_dash_at r t :
  chars_in Py.is_digit r = true ->
  RangeText.split_dash (r +:+ "-" +:+ t) = Some (r, t).
Proof.
  induction r as [|c r IH]; [reflexivity|].
  intros [Hc Hr]%andb_true_iff.
  change (RangeText.split_dash (String c r +:+ "-" +:+ t))
    with (if Ascii.eqb c "-" then Some (EmptyString, r +:+ "-" +:+ t)
          else match RangeText.split_dash (r +:+ "-" +:+ t) with
               | Some (a, b) => Some (String c a, b)
               | None => None
               end).
  destruct (digit_not_sign c Hc) as [-> _]. now rewrite (IH Hr).
Qed.

Lemma expand_range_text a b :
  a <= b ->
  RangeText.expand_token (Bulletproof.range_text a b) = Some (Py.range_incl a b).
Proof.
  intros Hab. unfold Bulletproof.range_text.
  destruct (str_shape a) as (c & r & Heq & Hc & Hr).
  destruct (Z.eqb_spec a b) as [<-|Hne].
  - unfold RangeText.expand_token. rewrite Heq, split_dash_digits by exact Hr.
    rewrite <- Heq, int_str, range_incl_single. reflexivity.
  - unfold RangeText.expand_token. rewrite Heq.
    change (String c r +:+ "-" +:+ Py.str b) with (String c (r +:+ "-" +:+ Py.str b)).
    cbv beta iota. rewrite split_dash_at by exact Hr.
    rewrite <- Heq, !int_str. reflexivity.
Qed.

Lemma expand_tokens_spans out :
  Forall (fun p : Z * Z => p.1 <= p.2) out ->
  RangeText.expand_tokens (map (fun p : Z * Z => Bulletproof.range_text p.1 p.2) out)
  = Some (concat (map span out)).
Proof.
  induction 1 as [|[a b] out Hab _ IH]; simpl; [reflexivity|].
  rewrite (expand_range_text a b Hab), IH. reflexivity.
Qed.

(** *** Splitting the joined text *)

Lemma numeric_not_comma s : chars_in is_numeric s = true -> chars_in not_comma s = true.
Proof.
  apply chars_in_weaken.
  intros c. destruct c as [[] [] [] [] [] [] [] []]; now vm_compute.
Qed.

Lemma range_text_no_comma a b : chars_in not_comma (Bulletproof.range_text a b) = true.
Proof.
  apply numeric_not_comma. unfold Bulletproof.range_text.
  destruct (a =? b); [apply str_numeric|].
  rewrite !chars_in_app, !str_numeric. reflexivity.
Qed.

Lemma pieces_last t : chars_in not_comma t = true -> RangeText.pieces t = (t, []).
Proof.
  induction t as [|c t IH]; [reflexivity|].
  intros Hall. pose proof Hall as [Hc Ht]%andb_true_iff.
  unfold not_comma in Hc. apply negb_true_iff in Hc.
  destruct t as [|d t]; [reflexivity|].
  change (RangeText.pieces (String c (String d t)))
    with (if Ascii.eqb c "," && Ascii.eqb d " "
          then let r := RangeText.pieces t in (EmptyString, r.1 :: r.2)
          else let r := RangeText.pieces (String d t) in (String c r.1, r.2)).
  rewrite Hc, (IH Ht). reflexivity.
Qed.

Lemma pieces_cons t rest :
  chars_in not_comma t = true ->
  RangeText.pieces (t +:+ ", " +:+ rest) = (t, RangeText.split rest).
Proof.
  induction t as [|c t IH]; [reflexivity|].
  intros [Hc Ht]%andb_true_iff.
  unfold not_comma in Hc. apply negb_true_iff in Hc.
  specialize (IH Ht).
  destruct t as [|d t].
  - change (RangeText.pieces (String c (String "," (String " " rest))) = (String c "", RangeText.split rest)).
    change (RangeText.pieces (String c (String "," (String " " rest))))
      with (if Ascii.eqb c "," && Ascii.eqb "," " "
            then let r := RangeText.pieces (String " " rest) in (EmptyString, r.1 :: r.2)
            else let r := RangeText.pieces (String "," (String " " rest)) in
                 (String c r.1, r.2)).
    rewrite Hc. reflexivity.
  - change (RangeText.pieces (String c (String d (t +:+ ", " +:+ rest)))
            = (String c (String d t), RangeText.split rest)).
    change (RangeText.pieces (String c (String d (t +:+ ", " +:+ rest))))
      with (if Ascii.eqb c "," && Ascii.eqb d " "
            then let r := RangeText.pieces (t +:+ ", " +:+ rest) in (EmptyString, r.1 :: r.2)
            else let r := RangeText.pieces (String d (t +:+ ", " +:+ rest)) in
                 (String c r.1, r.2)).
    rewrite Hc.
    change (String d (t +:+ ", " +:+ rest)) with (String d t +:+ ", " +:+ rest).
    rewrite IH. reflexivity.
Qed.

Lemma split_join ts :
  ts <> [] -> Forall (fun t => chars_in not_comma t = true) ts ->
  RangeText.split (Py.join ", " ts) = ts.
Proof.
  intros Hne Hall. induction Hall as [|t ts Ht Hts IH]; [congruence|].
  destruct ts as [|t' ts].
  - unfold RangeText.split. simpl. now rewrite pieces_last.
  - change (Py.join ", " (t :: t' :: ts)) with (t +:+ ", " +:+ Py.join ", " (t' :: ts)).
    unfold RangeText.split at 1. rewrite pieces_cons by exact Ht.
    simpl. f_equal. now apply IH.
Qed.

(** The round trip holds for every non-empty list of integers. *)
Lemma format_ranges_expand first rest :
  RangeText.expand (Bulletproof._format_ranges (first :: rest)) = Some (first :: rest).
Proof.
  unfold Bulletproof._format_ranges, RangeText.expand.
  rewrite range_loop_render.
  destruct (range_loop_spans first rest) as [Hok Hspan].
  rewrite split_join.
  - rewrite expand_tokens_spans by exact Hok. now rewrite Hspan.
  - rewrite <- range_loop_render. apply range_loop_nonempty.
  - apply Forall_map, Forall_forall. intros [a b] _. simpl.
    apply range_text_no_comma.
Qed.

(** C10. For every non-empty strictly increasing list of integers the
    text of [_format_ranges] expands back to the list: each
    comma-separated token is a number, standing for itself, or [a-b],
    standing for the inclusive sequence from [a] to [b].  For the empty
    list the text is [None]. *)
Theorem format_ranges_roundtrip :
  Bulletproof._format_ranges [] = "None"
  /\ forall numbers : list Z,
       numbers <> [] -> StronglySorted Z.lt numbers ->
       RangeText.expand (Bulletproof._format_ranges numbers) = Some numbers.
Proof.
  split; [reflexivity|].
  intros [|first rest] Hne _; [congruence|].
  apply format_ranges_expand.
Qed.

Lemma format_ranges_roundtrip_witness :
  RangeText.expand (Bulletproof._format_ranges [12; 13; 14; 15; 20; 33; 34])
  = Some [12; 13; 14; 15; 20; 33; 34].
Proof.
  apply (proj2 format_ranges_roundtrip).
  - discriminate.
  - repeat (constructor; [| repeat (constructor; try reflexivity)]). constructor.
Defined.

End RangeFacts.
(** * Sorting and the Gap Resolver *)

Module GapFacts.
Import PyFacts.

Lemma insert_by_perm {A} (key : A -> Z) x l : insert_by key x l ≡ₚ x :: l.
Proof.
  induction l as [|y l IH]; simpl; [reflexivity|].
  destruct (key x <=? key y); [reflexivity|].
  rewrite IH. apply Permutation_swap.
Qed.

Lemma sort_by_perm {A} (key : A -> Z) l : sort_by key l ≡ₚ l.
Proof.
  induction l as [|x l IH]; simpl; [reflexivity|].
  rewrite insert_by_perm. now rewrite IH.
Qed.

Lemma sort_by_length {A} (key : A -> Z) l : length (sort_by key l) = length l.
Proof. apply Permutation_length, sort_by_perm. Qed.

Lemma insert_by_sorted {A} (key : A -> Z) x l :
  Sorted (fun a b => key a <= key b) l ->
  Sorted (fun a b => key a <= key b) (insert_by key x l).
Proof.
  induction 1 as [|y l Hl IH Hhd]; simpl.
  - repeat constructor.
  - destruct (Z.leb_spec (key x) (key y)) as [Hxy|Hxy].
    + constructor; [now constructor | now constructor].
    + constructor; [exact IH|].
      destruct Hhd as [|z l Hyz]; simpl.
      * constructor. lia.
      * destruct (key x <=? key z); constructor; lia.
Qed.

Lemma sort_by_sorted {A} (key : A -> Z) l :
  Sorted (fun a b => key a <= key b) (sort_by key l).
Proof.
  induction l as [|x l IH]; simpl; [constructor|]. now apply insert_by_sorted.
Qed.

(** A stable sort leaves a list that is in order as it is. *)
Lemma insert_by_head {A} (key : A -> Z) x l :
  Forall (fun y => key x <= key y) l -> insert_by key x l = x :: l.
Proof.
  destruct 1 as [|y l Hy _]; simpl; [reflexivity|].
  destruct (Z.leb_spec (key x) (key y)); [reflexivity | lia].
Qed.

Lemma sort_by_id {A} (key : A -> Z) l :
  StronglySorted (fun a b => key a <= key b) l -> sort_by key l = l.
Proof.
  induction 1 as [|x l Hl IH Hx]; simpl; [reflexivity|].
  rewrite IH. now apply insert_by_head.
Qed.

Lemma sort_by_strongly {A} (key : A -> Z) l :
  StronglySorted (fun a b => key a <= key b) (sort_by key l).
Proof.
  apply Sorted_StronglySorted; [|apply sort_by_sorted].
  intros a b c; lia.
Qed.

Lemma sort_by_idem {A} (key : A -> Z) l :
  sort_by key (sort_by key l) = sort_by key l.
Proof. apply sort_by_id, sort_by_strongly. Qed.

Lemma strict_of_nodup l :
  StronglySorted Z.le l -> NoDup l -> StronglySorted Z.lt l.
Proof.
  induction 1 as [|x l Hl IH Hx]; intros Hnd; [constructor|].
  apply NoDup_cons in Hnd as [Hnotin Hnd].
  constructor; [now apply IH|].
  apply Forall_forall. intros y Hy.
  rewrite Forall_forall in Hx. specialize (Hx y Hy).
  assert (x <> y) by (intros ->; contradiction). lia.
Qed.

(** [sorted(X)]: ascending, without repetition, the members of [X]. *)
Lemma sorted_spec (X : gset Z) :
  StronglySorted Z.lt (sorted X) /\ forall k, k ∈ sorted X <-> k ∈ X.
Proof.
  unfold sorted. split.
  - apply strict_of_nodup.
    + apply (sort_by_strongly id).
    + rewrite sort_by_perm. apply NoDup_elements.
  - intros k. rewrite sort_by_perm. apply elem_of_elements.
Qed.

Lemma elem_of_range_incl a b k : k ∈ Py.range_incl a b <-> a <= k <= b.
Proof.
  unfold Py.range_incl. rewrite list_elem_of_fmap. split.
  - intros (i & -> & Hi). apply list_elem_of_In, in_seq in Hi. lia.
  - intros Hk. exists (Z.to_nat (k - a)). split; [lia|].
    apply list_elem_of_In, in_seq. lia.
Qed.

Lemma elem_of_all_numbers N k : k ∈ Bulletproof.all_numbers N <-> 1 <= k <= N.
Proof.
  unfold Bulletproof.all_numbers. rewrite elem_of_list_to_set.
  apply elem_of_range_incl.
Qed.

Lemma elem_of_processed_numbers ids k :
  k ∈ Bulletproof.processed_numbers ids
  <-> exists id, id ∈ ids /\ report_number id = Some k.
Proof. unfold Bulletproof.processed_numbers. apply elem_of_set_omap. Qed.

(** The numbers of the ids [Report_k], [k] in [S], are the members of
    [S]. *)
Lemma processed_numbers_keys (S : list Z) k :
  k ∈ Bulletproof.processed_numbers (list_to_set (map report_key S)) <-> k ∈ S.
Proof.
  rewrite elem_of_processed_numbers. split.
  - intros (id & Hid & Hnum).
    apply elem_of_list_to_set, list_elem_of_fmap in Hid as (j & -> & Hj).
    rewrite report_number_key in Hnum. congruence.
  - intros Hk. exists (report_key k). split; [|apply report_number_key].
    apply elem_of_list_to_set, list_elem_of_fmap. eauto.
Qed.

Lemma missing_numbers_spec N ids :
  StronglySorted Z.lt (Bulletproof.missing_numbers N ids)
  /\ forall k, k ∈ Bulletproof.missing_numbers N ids
               <-> 1 <= k <= N /\ k ∉ Bulletproof.processed_numbers ids.
Proof.
  unfold Bulletproof.missing_numbers.
  destruct (sorted_spec (Bulletproof.all_numbers N ∖ Bulletproof.processed_numbers ids))
    as [Hs Hm].
  split; [exact Hs|]. intros k.
  rewrite Hm, elem_of_difference, elem_of_all_numbers. reflexivity.
Qed.

Lemma strict_sorted_nodup l : StronglySorted Z.lt l -> NoDup l.
Proof.
  induction 1 as [|x l Hl IH Hx]; constructor; [|exact IH].
  intros Hin. rewrite Forall_forall in Hx. specialize (Hx x Hin). lia.
Qed.

(** On a non-empty catalog of [N] rows, with the completed ids
    [Report_k] for [k] in [S], [identify_missing_reports] returns the
    numbers of [1..N] outside [S] in ascending order, each once. *)
Lemma identify_missing_reports_complete env rows (S : list Z) p w :
  catalog env = CatalogRows rows -> rows <> [] ->
  Bulletproof.processed_reports p = list_to_set (map report_key S) ->
  exists missing,
    Bulletproof.identify_missing_reports env (p, w) = Ok missing (p, w)
    /\ StronglySorted Z.lt missing
    /\ forall k, k ∈ missing <-> 1 <= k <= Z.of_nat (length rows) /\ k ∉ S.
Proof.
  intros Hcat Hne Hids.
  exists (Bulletproof.missing_numbers (Z.of_nat (length rows)) (Bulletproof.processed_reports p)).
  destruct (missing_numbers_spec (Z.of_nat (length rows)) (Bulletproof.processed_reports p))
    as [Hs Hm].
  split_and!; [|exact Hs|].
  - unfold Bulletproof.identify_missing_reports, read_catalog_len, bind, get, ret.
    rewrite Hcat. simpl.
    destruct (Z.eqb_spec (Z.of_nat (length rows)) 0) as [H0|_]; [|reflexivity].
    destruct rows; [congruence | simpl in H0; lia].
  - intros k. rewrite Hm, Hids, processed_numbers_keys. reflexivity.
Qed.

(** The same for [get_current_status], whose completed ids are the
    [report_id] column of the master file, on a results sheet with a
    row. *)
Lemma get_current_status_complete env rows (S : list Z) w results summary failed :
  catalog env = CatalogRows rows -> rows <> [] ->
  fs w !! LargeBatch.master_file = Some (Workbook results summary failed) ->
  results <> [] ->
  keys results = map report_key S ->
  exists status,
    LargeBatch.get_current_status env w = Ok status w
    /\ StronglySorted Z.lt (LargeBatch.missing_numbers status)
    /\ forall k, k ∈ LargeBatch.missing_numbers status
                 <-> 1 <= k <= Z.of_nat (length rows) /\ k ∉ S.
Proof.
  intros Hcat Hne Hfile Hres Hkeys.
  unfold LargeBatch.get_current_status, read_catalog_len, bind, get, ret, exists_, read_results.
  rewrite Hfile, Hcat. rewrite bool_decide_eq_true_2 by eauto.
  destruct results as [|r0 rs]; [congruence|]. set (results := r0 :: rs) in *.
  destruct (Z.eqb_spec (Z.of_nat (length rows)) 0) as [H0|_];
    [destruct rows; [congruence | simpl in H0; lia]|].
  eexists. split; [reflexivity|]. cbn [LargeBatch.missing_numbers].
  fold (keys results). rewrite Hkeys.
  destruct (sorted_spec (Bulletproof.all_numbers (Z.of_nat (length rows))
                         ∖ Bulletproof.processed_numbers (list_to_set (map report_key S))))
    as [Hs Hm].
  split; [exact Hs|]. intros k.
  rewrite Hm, elem_of_difference, elem_of_all_numbers, processed_numbers_keys.
  reflexivity.
Qed.

(** C6, at the empty catalog.  With no row in the catalog the Gap
    Resolver does not return the empty list: the completion rate it
    computes divides by the number of rows. *)
Theorem gap_resolver_empty_catalog :
  Bulletproof.identify_missing_reports (calm [] None) (Bulletproof.init, empty_world)
  = Raise "division by zero" (Bulletproof.init, empty_world)
  /\ SmallBatch.get_current_status (calm [] None) empty_world
     = Raise "division by zero" empty_world.
Proof. split; reflexivity. Qed.

End GapFacts.
(** * The bulletproof processor *)

Module BulletproofFacts.
Import PyFacts GapFacts Bulletproof.

Lemma paths_distinct :
  temp_file <> master_file /\ state_temp <> master_file /\ state_file <> master_file
  /\ state_temp <> temp_file /\ state_file <> temp_file /\ state_temp <> state_file.
Proof. repeat split; vm_compute; discriminate. Qed.

Ltac mred :=
  unfold bind, ret, raise, sys_exit, try_except, get, modify, in_world, on_processor,
       read_catalog_len, write_file, rename, remove_if_exists, set_fs, tick in *;
  cbn [fst snd fs api_calls time all_results failed_reports processed_reports
       save_frequency interrupted set_all_results set_failed_reports set_interrupted
       add_result add_failure final_state
       master_write master_rename_raises state_write state_rename_raises] in *.

Ltac fs_done := eexists; split; [reflexivity|]; split_and!; intros; by simplify_map_eq.

(** *** The flush *)

Lemma save_all_progress_empty env p w :
  all_results p = [] -> save_all_progress env (p, w) = Ok tt (p, w).
Proof. intros H. unfold save_all_progress. mred. now rewrite H. Qed.

(** A flush of a non-empty buffer sorts the buffer, advances the clock and
    touches four paths at most: both temporary files are gone afterwards,
    and the master file holds the whole buffer or what it held before. *)
Lemma save_all_progress_flush env p w :
  all_results p <> [] ->
  exists files',
    save_all_progress env (p, w)
    = Ok tt (set_all_results (sort_by extract_number (all_results p)) p,
             mkWorld files' (api_calls w) (S (time w)))
    /\ files' !! temp_file = None
    /\ files' !! state_temp = None
    /\ (forall path, path <> master_file -> path <> temp_file -> path <> state_file ->
                     path <> state_temp -> files' !! path = fs w !! path)
    /\ files' !! master_file
       = if flush_commits env w
         then Some (Workbook (sort_by extract_number (all_results p))
                      (mkSummary (catalog_len env)
                         (Z.of_nat (length (sort_by extract_number (all_results p))))
                         (Z.of_nat (length (failed_reports p))) (now env (time w)) None)
                      (failed_reports p))
         else fs w !! master_file.
Proof.
  intros H. pose proof paths_distinct as D.
  unfold save_all_progress, flush_commits, write_phase_ok, catalog_len. mred.
  destruct (all_results p) as [|r rs] eqn:E; [congruence|]. clear H. mred. rewrite ?E.
  revert D. generalize temp_file, state_temp, master_file, state_file.
  intros T ST MF SF (D1 & D2 & D3 & D4 & D5 & D6).
  destruct (catalog env) as [| |rows]; mred; [fs_done | fs_done |].
  destruct (Z.of_nat (length rows) =? 0); mred; [fs_done|].
  destruct (io_faults env (time w)) as [mw mr sw sr bw]; mred.
  destruct mw as [|[junk|]]; mred; [| fs_done | fs_done].
  destruct mr; mred; [fs_done|].
  rewrite lookup_insert_eq. mred.
  destruct sw as [|[junk|]]; mred; [| fs_done | fs_done].
  destruct sr; mred; [fs_done|].
  rewrite lookup_insert_eq. mred. fs_done.
Qed.

(** A flush never raises and never leaves the process. *)
Lemma save_all_progress_ok env s :
  exists s', save_all_progress env s = Ok tt s'.
Proof.
  destruct s as [p w]. destruct (all_results p) as [|r rs] eqn:E.
  - eexists. now apply save_all_progress_empty.
  - destruct (save_all_progress_flush env p w) as (files' & H & _); [congruence|].
    eauto.
Qed.

Lemma save_all_progress_final env s :
  save_all_progress env s = Ok tt (final_state (save_all_progress env s)).
Proof. destruct (save_all_progress_ok env s) as [s' H]. now rewrite H. Qed.

(** What a flush leaves of the processor and of the world. *)
Lemma save_all_progress_frame env p w :
  let s' := final_state (save_all_progress env (p, w)) in
  processed_reports s'.1 = processed_reports p
  /\ failed_reports s'.1 = failed_reports p
  /\ save_frequency s'.1 = save_frequency p
  /\ interrupted s'.1 = interrupted p
  /\ all_results s'.1 ≡ₚ all_results p
  /\ api_calls s'.2 = api_calls w
  /\ (all_results p = [] -> s' = (p, w)).
Proof.
  destruct (all_results p) as [|r rs] eqn:E.
  - rewrite save_all_progress_empty by exact E. simpl. rewrite E. now split_and!.
  - destruct (save_all_progress_flush env p w) as (files' & H & _); [congruence|].
    rewrite H. simpl. split_and!; try reflexivity; [|congruence].
    rewrite E. apply sort_by_perm.
Qed.

(** The master file after a flush: the buffer, sorted, or what it was. *)
Lemma save_all_progress_master env p w :
  let s' := final_state (save_all_progress env (p, w)) in
  fs s'.2 !! master_file = fs w !! master_file
  \/ exists summary,
       fs s'.2 !! master_file
       = Some (Workbook (sort_by extract_number (all_results p)) summary (failed_reports p)).
Proof.
  destruct (all_results p) as [|r rs] eqn:E.
  - rewrite save_all_progress_empty by exact E. now left.
  - destruct (save_all_progress_flush env p w) as (files' & H & _ & _ & _ & Hm);
      [congruence|].
    rewrite H. simpl. rewrite Hm, E.
    destruct (flush_commits env w); [right; eauto | now left].
Qed.

(** *** One iteration *)

Lemma iloc_cases {S} rows k (s : S) :
  (exists e, iloc rows k s = Raise e s) \/ (exists row, iloc rows k s = Ok row s).
Proof.
  unfold iloc, raise, ret.
  destruct (_ || _); [left; eauto|].
  destruct (rows !! _); [right | left]; eauto.
Qed.

Lemma unexpected_class msg : error_class ("Unexpected error: " +:+ msg).
Proof. right; right. eauto. Qed.

(** The body of the loop always returns: it records a failure or a
    result for its report, and then runs the checkpoint test unless the
    report was skipped or the call raised. *)
Lemma process_item_cases env df i n s :
  exists s1 cp,
    attempt n s s1 cp
    /\ process_item env df i n s = Ok tt (if cp then checkpoint env i n s1 else s1).
Proof.
  destruct s as [p w]. unfold process_item.
  unfold try_except at 1. unfold bind at 1. cbv beta.
  destruct (iloc_cases (S:=St) df (n - 1) (p, w)) as [[e He]|[row Hrow]].
  { rewrite He. eexists _, false. split; [|reflexivity].
    apply attempt_rejected; [reflexivity | apply unexpected_class]. }
  rewrite Hrow. cbv beta. destruct (missing_essential_data row).
  { eexists _, false. split; [|reflexivity].
    apply attempt_rejected; [reflexivity | now left]. }
  unfold bind at 1. unfold api_call at 1. cbv beta. cbn [fst snd].
  fold (called (report_key n) w).
  destruct (call_gemini_api env (time w) (report_key n)) as [response|msg].
  2:{ eexists _, false. split; [|reflexivity].
      apply attempt_raised; [reflexivity | apply unexpected_class]. }
  unfold bind at 1, get at 1. cbv beta. unfold bind at 1. cbv beta.
  assert (forall s1 : St,
            match
              (s0 <~ get;
               if save_frequency s0.1 =? 0 then raise "integer modulo by zero"
               else if (Z.of_nat i + 1) mod save_frequency s0.1 =? 0
                    then save_all_progress env else ret ()) s1
            with
            | Ok a s' => Ok a s'
            | Raise e s' =>
                on_processor
                  (add_failure
                     (mkFailure (report_key n) ("Unexpected error: " +:+ e) (Some "Unknown")))
                  s'
            | Exit s' => Exit s'
            end = Ok tt (checkpoint env i n s1)) as Hcp.
  { intros s1. unfold checkpoint, bind, get, raise, ret, on_processor, modify.
    destruct (save_frequency s1.1 =? 0); [reflexivity|].
    destruct (_ mod _ =? 0); [|reflexivity].
    now rewrite save_all_progress_final. }
  destruct response as [[|c text]|].
  - unfold on_processor at 1, modify at 1. rewrite Hcp.
    eexists _, true. split; [|reflexivity].
    apply attempt_failed; [reflexivity | now right; left].
  - unfold on_processor at 1, modify at 1. rewrite Hcp.
    eexists _, true. split; [|reflexivity].
    now apply attempt_done.
  - unfold on_processor at 1, modify at 1. rewrite Hcp.
    eexists _, true. split; [|reflexivity].
    apply attempt_failed; [reflexivity | now right; left].
Qed.

Lemma process_item_final env df i n s :
  process_item env df i n s = Ok tt (item_state env df i n s).
Proof.
  unfold item_state.
  destruct (process_item_cases env df i n s) as (s1 & cp & _ & ->). reflexivity.
Qed.

Lemma item_state_cases env df i n s :
  exists s1 cp,
    attempt n s s1 cp
    /\ item_state env df i n s = if cp then checkpoint env i n s1 else s1.
Proof.
  unfold item_state.
  destruct (process_item_cases env df i n s) as (s1 & cp & H & ->). eauto.
Qed.

Lemma attempt_flags n s s1 cp :
  attempt n s s1 cp ->
  interrupted s1.1 = interrupted s.1 /\ save_frequency s1.1 = save_frequency s.1.
Proof. destruct 1; now split. Qed.

Lemma checkpoint_flags env i n s :
  interrupted (checkpoint env i n s).1 = interrupted s.1
  /\ save_frequency (checkpoint env i n s).1 = save_frequency s.1.
Proof.
  unfold checkpoint. destruct (_ =? 0); [now split|].
  destruct (_ =? 0); [|now split].
  destruct s as [p w].
  destruct (save_all_progress_frame env p w) as (_ & _ & Hk & Hi & _). now split.
Qed.

Lemma item_state_flags env df i n s :
  interrupted (item_state env df i n s).1 = interrupted s.1
  /\ save_frequency (item_state env df i n s).1 = save_frequency s.1.
Proof.
  destruct (item_state_cases env df i n s) as (s1 & cp & Ha & ->).
  destruct (attempt_flags _ _ _ _ Ha) as [H1 H2].
  destruct cp; [|now split].
  destruct (checkpoint_flags env i n s1) as [H3 H4]. split; congruence.
Qed.

Lemma loop_state_flags env df i items s :
  interrupted (loop_state env df i items s).1 = interrupted s.1
  /\ save_frequency (loop_state env df i items s).1 = save_frequency s.1.
Proof.
  revert i s. induction items as [|n items IH]; intros i s; simpl; [now split|].
  destruct (IH (S i) (item_state env df i n s)) as [H1 H2].
  destruct (item_state_flags env df i n s) as [H3 H4]. split; congruence.
Qed.

Lemma loop_state_app env df i pre post s :
  loop_state env df i (pre ++ post) s
  = loop_state env df (i + length pre) post (loop_state env df i pre s).
Proof.
  revert i s. induction pre as [|n pre IH]; intros i s; simpl.
  - now rewrite Nat.add_0_r.
  - rewrite IH. f_equal. lia.
Qed.

(** *** The loop *)

(** Without a signal during the iterations the loop runs them all and
    returns. *)
Lemma process_loop_quiet env df i items s :
  (forall j, sigint_after env = Some j -> (j < i \/ i + length items <= j)%nat) ->
  interrupted s.1 = false ->
  process_loop env df i items s = Ok tt (loop_state env df i items s).
Proof.
  revert i s. induction items as [|n items IH]; intros i s Hsig Hflag; [reflexivity|].
  cbn [process_loop loop_state].
  rewrite bool_decide_eq_false_2.
  2:{ intros Heq. specialize (Hsig i Heq). simpl in Hsig. lia. }
  unfold bind at 1, get at 1. rewrite Hflag.
  unfold bind at 1. rewrite process_item_final.
  apply IH.
  - intros j Hj. specialize (Hsig j Hj). simpl in Hsig. lia.
  - now rewrite (proj1 (item_state_flags env df i n s)).
Qed.

(** A signal that arrives when the iterations for [pre] are complete
    runs the handler in the state they left. *)
Lemma process_loop_sigint env df i pre x post s :
  sigint_after env = Some (i + length pre)%nat ->
  interrupted s.1 = false ->
  process_loop env df i (pre ++ x :: post) s
  = handle_interrupt env (loop_state env df i pre s).
Proof.
  revert i s. induction pre as [|n pre IH]; intros i s Hsig Hflag.
  - simpl in *. rewrite Nat.add_0_r in Hsig.
    now rewrite bool_decide_eq_true_2.
  - cbn [app process_loop loop_state].
    rewrite bool_decide_eq_false_2.
    2:{ rewrite Hsig. intros [= Heq]. simpl in Heq. lia. }
    unfold bind at 1, get at 1. rewrite Hflag.
    unfold bind at 1. rewrite process_item_final.
    apply IH.
    + rewrite Hsig. f_equal. simpl. lia.
    + now rewrite (proj1 (item_state_flags env df i n s)).
Qed.

(** The loop on any list, whatever the signal: all iterations, or the
    handler after a prefix of them. *)
Lemma process_loop_cases env df items s :
  interrupted s.1 = false ->
  process_loop env df 0 items s = Ok tt (loop_state env df 0 items s)
  \/ exists pre x post,
       items = (pre ++ x :: post)%list
       /\ sigint_after env = Some (length pre)
       /\ process_loop env df 0 items s
          = handle_interrupt env (loop_state env df 0 pre s).
Proof.
  intros Hflag.
  destruct (sigint_after env) as [j|] eqn:Hsig.
  - destruct (Nat.lt_ge_cases j (length items)) as [Hlt|Hge].
    + right. exists (take j items).
      destruct (drop j items) as [|x post] eqn:Hdrop.
      { apply (f_equal length) in Hdrop. rewrite length_drop in Hdrop. simpl in Hdrop. lia. }
      exists x, post.
      assert (items = (take j items ++ x :: post)%list) as Hsplit
        by (rewrite <- Hdrop; symmetry; apply take_drop).
      assert (length (take j items) = j) as Hlen by (rewrite length_take; lia).
      split_and!; [exact Hsplit | now rewrite Hlen |].
      rewrite Hsplit at 1. apply process_loop_sigint; [|exact Hflag].
      now rewrite Hsig, Hlen.
    + left. apply process_loop_quiet; [|exact Hflag].
      intros j' Hj'. rewrite Hsig in Hj'. injection Hj' as <-. right. simpl. lia.
  - left. apply process_loop_quiet; [|exact Hflag]. intros j' Hj'. now rewrite Hsig in Hj'.
Qed.

(** *** Unique report ids *)

Lemma keys_app l1 l2 : keys (l1 ++ l2) = (keys l1 ++ keys l2)%list.
Proof. apply map_app. Qed.

Lemma keys_perm l1 l2 : l1 ≡ₚ l2 -> keys l1 ≡ₚ keys l2.
Proof. intros H. unfold keys. now rewrite H. Qed.

Lemma coherent_save env s : coherent s -> coherent (final_state (save_all_progress env s)).
Proof.
  destruct s as [p w]. intros (Hnd & Hsub & Hstore).
  destruct (save_all_progress_frame env p w) as (Hp & _ & _ & _ & Hperm & _ & _).
  pose proof (save_all_progress_master env p w) as Hm.
  cbv zeta in *. set (s' := final_state (save_all_progress env (p, w))) in *.
  simpl in Hnd, Hsub. split_and!.
  - now rewrite (keys_perm _ _ Hperm).
  - intros k. rewrite (keys_perm _ _ Hperm), Hp. apply Hsub.
  - intros rows. unfold unique_keys, store_rows, read_results in *.
    destruct Hm as [-> | [summary ->]]; [apply Hstore|].
    intros [= <-]. now rewrite (keys_perm _ _ (sort_by_perm _ _)).
Qed.

Lemma coherent_attempt n s s1 cp :
  attempt n s s1 cp -> coherent s -> report_key n ∉ processed_reports s.1 ->
  coherent s1
  /\ (forall k, k ∈ processed_reports s1.1 -> k = report_key n \/ k ∈ processed_reports s.1).
Proof.
  intros Ha (Hnd & Hsub & Hstore) Hfresh.
  destruct Ha as [p w f _ _|p w f _ _|p w f _ _|p w r Hr];
    cbn [fst snd all_results processed_reports add_result add_failure] in *.
  1-3: split; [now split_and! | auto].
  split; [split_and!|];
    cbn [fst snd all_results processed_reports add_result add_failure] in *.
  - rewrite keys_app. apply NoDup_app. split_and!; [exact Hnd | | apply NoDup_singleton].
    intros k Hk Hk'. apply list_elem_of_singleton in Hk'. subst k.
    rewrite Hr in Hk. auto.
  - intros k. rewrite keys_app, elem_of_app, elem_of_union.
    intros [Hk|Hk]; [right; auto|].
    apply list_elem_of_singleton in Hk. left. now apply elem_of_singleton.
  - exact Hstore.
  - intros k [Hk|Hk]%elem_of_union; [|now right].
    apply elem_of_singleton in Hk. left. congruence.
Qed.

Lemma coherent_checkpoint env i n s :
  coherent s ->
  coherent (checkpoint env i n s)
  /\ processed_reports (checkpoint env i n s).1 = processed_reports s.1.
Proof.
  intros Hc. unfold checkpoint. destruct (_ =? 0).
  { split; [|reflexivity]. destruct Hc as (? & ? & ?). now split_and!. }
  destruct (_ =? 0); [|now split].
  split; [now apply coherent_save|].
  destruct s as [p w]. now destruct (save_all_progress_frame env p w) as (-> & _).
Qed.

Lemma coherent_item env df i n s :
  coherent s -> report_key n ∉ processed_reports s.1 ->
  coherent (item_state env df i n s)
  /\ (forall k, k ∈ processed_reports (item_state env df i n s).1
                -> k = report_key n \/ k ∈ processed_reports s.1).
Proof.
  intros Hc Hfresh.
  destruct (item_state_cases env df i n s) as (s1 & cp & Ha & ->).
  destruct (coherent_attempt _ _ _ _ Ha Hc Hfresh) as [Hc1 Hsub].
  destruct cp; [|now split].
  destruct (coherent_checkpoint env i n s1 Hc1) as [Hc2 ->]. now split.
Qed.

(** The loop keeps the ids unique when it is given distinct reports none
    of which is marked as processed. *)
Lemma coherent_loop env df i items s :
  coherent s -> NoDup items ->
  (forall n, n ∈ items -> report_key n ∉ processed_reports s.1) ->
  coherent (loop_state env df i items s).
Proof.
  revert i s. induction items as [|n items IH]; intros i s Hc Hnd Hfresh; [exact Hc|].
  simpl. apply NoDup_cons in Hnd as [Hn Hnd].
  destruct (coherent_item env df i n s Hc) as [Hc' Hsub].
  { apply Hfresh. now left. }
  apply IH; [exact Hc' | exact Hnd |].
  intros m Hm Hin. apply Hsub in Hin as [Heq|Hin].
  - apply report_key_inj in Heq. subst m. contradiction.
  - eapply Hfresh; [right; exact Hm | exact Hin].
Qed.

(** *** Loading *)

Lemma foldl_load_row rows p :
  let p' := foldl load_row p rows in
  all_results p' = (all_results p ++ rows)%list
  /\ (forall k, k ∈ processed_reports p'
                <-> k ∈ processed_reports p \/ k ∈ keys rows)
  /\ failed_reports p' = failed_reports p
  /\ save_frequency p' = save_frequency p
  /\ interrupted p' = interrupted p.
Proof.
  revert p. induction rows as [|r rows IH]; intros p; simpl.
  - rewrite app_nil_r. split_and!; try reflexivity. intros k. split; [auto|].
    intros [H|H]; [exact H | now apply elem_of_nil in H].
  - destruct (IH (load_row p r)) as (H1 & H2 & H3 & H4 & H5).
    unfold load_row in *. simpl in *.
    split_and!; try assumption.
    + now rewrite H1, <- app_assoc.
    + intros k. rewrite H2, elem_of_union, elem_of_singleton, elem_of_cons. tauto.
Qed.

(** [load_existing_work] on a fresh processor always returns; it keeps
    the rows of the master file, none when the file is absent or cannot be
    read, and leaves the world as it is. *)
Lemma load_existing_work_spec w :
  exists p1,
    load_existing_work (init, w) = Ok tt (p1, w)
    /\ all_results p1 = kept_rows w
    /\ (forall k, k ∈ processed_reports p1 <-> k ∈ keys (kept_rows w))
    /\ save_frequency p1 = 5
    /\ interrupted p1 = false.
Proof.
  unfold load_existing_work, kept_rows, store_rows.
  unfold bind at 1, get at 1. cbv beta. unfold bind at 1. cbn [fst snd].
  assert (exists p0,
            (if exists_ master_file (fs w)
             then try_except
                    match read_results master_file (fs w) with
                    | Some df => on_processor (fun p => foldl load_row p df)
                    | None => raise "cannot read the master file"
                    end (fun _ => ret ())
             else ret ()) (init, w) = Ok tt (p0, w)
            /\ all_results p0 = match read_results master_file (fs w) with
                                | Some rows => rows
                                | None => []
                                end
            /\ (forall k, k ∈ processed_reports p0
                  <-> k ∈ keys match read_results master_file (fs w) with
                               | Some rows => rows
                               | None => []
                               end)
            /\ save_frequency p0 = 5 /\ interrupted p0 = false) as (p0 & -> & Ha & Hp & Hk & Hi).
  { unfold exists_, read_results. destruct (fs w !! master_file) as [f|] eqn:Hf.
    - rewrite bool_decide_eq_true_2 by eauto.
      destruct f as [rows ? ?| | | | |]; unfold try_except, on_processor, modify, raise, ret.
      2-6: (exists init; split_and!; try reflexivity; intros k; simpl;
            rewrite elem_of_empty, elem_of_nil; tauto).
      destruct (foldl_load_row rows init) as (H1 & H2 & _ & H4 & H5).
      eexists. split; [reflexivity|]. simpl. split_and!; try assumption.
      intros k. rewrite H2. simpl. rewrite elem_of_empty. tauto.
    - rewrite bool_decide_eq_false_2 by (intros [? ?]; congruence).
      exists init. split_and!; try reflexivity. intros k. simpl.
      rewrite elem_of_empty, elem_of_nil. tauto. }
  unfold bind, get. cbn [fst snd].
  destruct (exists_ state_file (fs w)).
  - unfold try_except.
    destruct (fs w !! state_file) as [[| ? failed ? ?| | | |]|];
      unfold on_processor, modify, raise, ret; eexists; (split; [reflexivity|]);
      now split_and!.
  - unfold ret. eexists; split; [reflexivity|]. now split_and!.
Qed.

Lemma kept_rows_nodup w :
  unique_keys master_file w -> NoDup (keys (kept_rows w)).
Proof.
  unfold unique_keys, kept_rows. intros H.
  destruct (store_rows master_file w) as [rows|]; [|constructor].
  exact (H rows eq_refl).
Qed.

Lemma coherent_loaded w p1 :
  unique_keys master_file w ->
  all_results p1 = kept_rows w ->
  (forall k, k ∈ processed_reports p1 <-> k ∈ keys (kept_rows w)) ->
  coherent (p1, w).
Proof.
  intros Hu Ha Hp. split_and!; simpl.
  - rewrite Ha. now apply kept_rows_nodup.
  - intros k. rewrite Ha. apply Hp.
  - exact Hu.
Qed.

(** *** The interrupt handler *)

Lemma handle_interrupt_final env p w :
  handle_interrupt env (p, w)
  = Exit (final_state (save_all_progress env (set_interrupted true p, w))).
Proof.
  unfold handle_interrupt, bind, on_processor, modify, sys_exit. cbn [fst snd].
  now rewrite save_all_progress_final.
Qed.

Lemma coherent_interrupted p w : coherent (p, w) -> coherent (set_interrupted true p, w).
Proof. intros (? & ? & ?). now split_and!. Qed.

(** *** The script *)

Lemma identify_cases env p w :
  (exists e, identify_missing_reports env (p, w) = Raise e (p, w))
  \/ exists df,
       catalog env = CatalogRows df /\ df <> []
       /\ identify_missing_reports env (p, w)
          = Ok (missing_numbers (Z.of_nat (length df)) (processed_reports p)) (p, w).
Proof.
  unfold identify_missing_reports, read_catalog_len, bind, get, raise, ret.
  destruct (catalog env) as [| |df]; [left; eauto | left; eauto |].
  cbn [fst snd].
  destruct (Z.eqb_spec (Z.of_nat (length df)) 0) as [H0|H0]; [left; eauto|].
  right. exists df. split_and!; [reflexivity | | reflexivity].
  intros ->. now apply H0.
Qed.

(** The ways a run of the script ends: with a flush of what was loaded,
    with nothing done, with the final flush after all iterations, or in
    the interrupt handler after some of them. *)
Lemma run_cases env w :
  exists p1,
    load_existing_work (init, w) = Ok tt (p1, w)
    /\ all_results p1 = kept_rows w
    /\ (forall k, k ∈ processed_reports p1 <-> k ∈ keys (kept_rows w))
    /\ interrupted p1 = false
    /\ (run env w = final_state (save_all_progress env (p1, w))
        \/ (run env w = (p1, w)
            /\ exists df,
                 catalog env = CatalogRows df
                 /\ missing_numbers (Z.of_nat (length df)) (processed_reports p1) <> [])
        \/ exists df,
             catalog env = CatalogRows df /\ df <> []
             /\ let items := missing_numbers (Z.of_nat (length df)) (processed_reports p1) in
                run env w
                = final_state (save_all_progress env (loop_state env df 0 items (p1, w)))
                \/ exists pre x post,
                     items = (pre ++ x :: post)%list
                     /\ sigint_after env = Some (length pre)
                     /\ run env w
                        = final_state (handle_interrupt env (loop_state env df 0 pre (p1, w)))).
Proof.
  destruct (load_existing_work_spec w) as (p1 & Hload & Ha & Hp & _ & Hi).
  exists p1. split_and!; try assumption.
  assert (exists r, r = run env w) as [r Hr] by eauto. rewrite <- Hr.
  unfold run, main in Hr. unfold try_except at 1 in Hr. unfold bind at 1 in Hr.
  rewrite Hload in Hr. unfold bind at 1 in Hr.
  destruct (identify_cases env p1 w) as [[e He]|(df & Hcat & Hne & He)]; rewrite He in Hr.
  { left. now rewrite save_all_progress_final in Hr. }
  destruct (missing_numbers _ _) as [|m ms] eqn:Hmiss.
  { left. now rewrite save_all_progress_final in Hr. }
  unfold bind at 1 in Hr. unfold process_missing_reports in Hr. rewrite Hcat in Hr.
  destruct (setup_gemini_api env); cbn [negb] in Hr.
  2:{ right; left. split; [exact Hr|]. exists df. now rewrite Hmiss. }
  right; right. exists df. split_and!; [exact Hcat | exact Hne |]. cbv zeta.
  unfold bind at 1 in Hr.
  destruct (process_loop_cases env df (m :: ms) (p1, w) Hi)
    as [Hl|(pre & x & post & Hsplit & Hsig & Hl)]; rewrite Hl in Hr.
  - left. rewrite Hmiss. unfold bind, ret in Hr.
    now rewrite save_all_progress_final in Hr.
  - right. rewrite Hmiss. exists pre, x, post. split_and!; [exact Hsplit | exact Hsig |].
    destruct (loop_state env df 0 pre (p1, w)) as [pn wn].
    now rewrite handle_interrupt_final in *.
Qed.

Lemma missing_numbers_fresh N ids n :
  n ∈ missing_numbers N ids -> report_key n ∉ ids.
Proof.
  intros Hn Hin. apply missing_numbers_spec in Hn as [_ Hn]. apply Hn.
  apply elem_of_processed_numbers. exists (report_key n).
  split; [exact Hin | apply report_number_key].
Qed.

Lemma missing_numbers_nodup N ids : NoDup (missing_numbers N ids).
Proof. apply strict_sorted_nodup, missing_numbers_spec. Qed.

(** From a store without a repeated id, a run of the script keeps the
    buffer and the store without one, at the end and after any number of
    iterations of its loop. *)
Lemma run_coherent env w :
  unique_keys master_file w ->
  coherent (run env w)
  /\ forall df pre post p1,
       catalog env = CatalogRows df ->
       load_existing_work (init, w) = Ok tt (p1, w) ->
       missing_numbers (Z.of_nat (length df)) (processed_reports p1) = (pre ++ post)%list ->
       coherent (loop_state env df 0 pre (p1, w)).
Proof.
  intros Hu.
  destruct (run_cases env w) as (p1 & Hload & Ha & Hp & Hi & Hrun).
  pose proof (coherent_loaded w p1 Hu Ha Hp) as Hc.
  assert (forall df pre post,
            missing_numbers (Z.of_nat (length df)) (processed_reports p1) = (pre ++ post)%list ->
            coherent (loop_state env df 0 pre (p1, w))) as Hloop.
  { intros df pre post Hsplit. apply coherent_loop; [exact Hc | |].
    - pose proof (missing_numbers_nodup (Z.of_nat (length df)) (processed_reports p1)) as Hnd.
      rewrite Hsplit in Hnd. now apply NoDup_app in Hnd as (Hnd & _).
    - intros n Hn. apply (missing_numbers_fresh (Z.of_nat (length df)) (processed_reports p1)).
      rewrite Hsplit. apply elem_of_app. now left. }
  split.
  - destruct Hrun as [->|[Hrun|(df & Hcat & Hne & Hrun)]].
    + now apply coherent_save.
    + destruct Hrun as [-> _]. exact Hc.
    + cbv zeta in Hrun. destruct Hrun as [->|(pre & x & post & Hsplit & _ & ->)].
      * apply coherent_save. apply (Hloop df _ []). now rewrite app_nil_r.
      * specialize (Hloop df pre (x :: post) Hsplit).
        destruct (loop_state env df 0 pre (p1, w)) as [pn wn].
        rewrite handle_interrupt_final. cbn [final_state].
        now apply coherent_save, coherent_interrupted.
  - intros df pre post p1' _ Hload' Hsplit.
    rewrite Hload in Hload'. injection Hload' as <-. eapply Hloop, Hsplit.
Qed.

(** *** A run that completes nothing *)

Lemma perm_nil_results (l l' : list ResultRecord) : l' ≡ₚ l -> l' = [] -> l = [].
Proof. intros H ->. now apply Permutation_nil_l in H. Qed.

Lemma save_all_progress_nothing env p w :
  all_results (final_state (save_all_progress env (p, w))).1 = [] ->
  all_results p = [] /\ final_state (save_all_progress env (p, w)) = (p, w).
Proof.
  intros H.
  destruct (save_all_progress_frame env p w) as (_ & _ & _ & _ & Hperm & _ & Hid).
  pose proof (perm_nil_results _ _ Hperm H) as He. split; [exact He | now apply Hid].
Qed.

Lemma checkpoint_results env i n s :
  all_results (checkpoint env i n s).1 ≡ₚ all_results s.1
  /\ api_calls (checkpoint env i n s).2 = api_calls s.2
  /\ (all_results s.1 = [] -> fs (checkpoint env i n s).2 = fs s.2).
Proof.
  unfold checkpoint. destruct (_ =? 0); [now split_and!|].
  destruct (_ =? 0); [|now split_and!].
  destruct s as [p w].
  destruct (save_all_progress_frame env p w) as (_ & _ & _ & _ & Hperm & Hcalls & Hid).
  split_and!; [exact Hperm | exact Hcalls |].
  intros He. cbn [fst snd] in *. now rewrite (Hid He).
Qed.

Lemma item_state_nothing env df i n s :
  all_results (item_state env df i n s).1 = [] ->
  all_results s.1 = [] /\ fs (item_state env df i n s).2 = fs s.2.
Proof.
  destruct (item_state_cases env df i n s) as (s1 & cp & Ha & ->).
  assert (all_results s1.1 = [] -> all_results s.1 = [] /\ fs s1.2 = fs s.2) as H1.
  { destruct Ha as [p w f _ _|p w f _ _|p w f _ _|p w r _]; cbn [fst snd all_results add_failure add_result called fs]; auto.
    intros H. now destruct (all_results p). }
  destruct cp; [|exact H1].
  destruct (checkpoint_results env i n s1) as (Hperm & _ & Hfs).
  intros H. pose proof (perm_nil_results _ _ Hperm H) as He.
  destruct (H1 He) as [H2 H3]. split; [exact H2|]. now rewrite (Hfs He).
Qed.

Lemma loop_state_nothing env df i items s :
  all_results (loop_state env df i items s).1 = [] ->
  all_results s.1 = [] /\ fs (loop_state env df i items s).2 = fs s.2.
Proof.
  revert i s. induction items as [|n items IH]; intros i s H; simpl in *; [now split|].
  destruct (IH _ _ H) as [H1 H2].
  destruct (item_state_nothing env df i n s H1) as [H3 H4].
  split; [exact H3 | congruence].
Qed.

(** When a run of the script ends with an empty buffer, no file was
    created, changed or removed. *)
Lemma run_nothing env w :
  all_results (run env w).1 = [] -> fs (run env w).2 = fs w.
Proof.
  destruct (run_cases env w) as (p1 & _ & _ & _ & _ & Hrun).
  destruct Hrun as [->|[[-> _]|(df & _ & _ & Hrun)]]; [| reflexivity |].
  - intros H. now destruct (save_all_progress_nothing env p1 w H) as [_ ->].
  - cbv zeta in Hrun. destruct Hrun as [->|(pre & x & post & _ & _ & ->)]; intros H.
    + destruct (loop_state env df 0 _ (p1, w)) as [pn wn] eqn:Hloop.
      destruct (save_all_progress_nothing env pn wn H) as [He ->].
      pose proof (loop_state_nothing env df 0
                    (missing_numbers (Z.of_nat (length df)) (processed_reports p1)) (p1, w)) as Hn.
      rewrite Hloop in Hn. exact (proj2 (Hn He)).
    + destruct (loop_state env df 0 pre (p1, w)) as [pn wn] eqn:Hloop.
      rewrite handle_interrupt_final in *. cbn [final_state] in *.
      destruct (save_all_progress_nothing env _ wn H) as [He ->].
      pose proof (loop_state_nothing env df 0 pre (p1, w)) as Hn.
      rewrite Hloop in Hn. exact (proj2 (Hn He)).
Qed.

(** *** A second run on a complete store *)

Lemma missing_numbers_nil N ids :
  (forall k, 1 <= k <= N -> k ∈ processed_numbers ids) -> missing_numbers N ids = [].
Proof.
  intros Hall. destruct (missing_numbers N ids) as [|x l] eqn:E; [reflexivity|].
  assert (x ∈ missing_numbers N ids) as Hx by (rewrite E; now left).
  apply missing_numbers_spec in Hx as [Hx Hnot]. exfalso. auto.
Qed.

(** On a store that holds a row with an id for every report of the
    catalog, the script makes no external call, and the rows of the store
    afterwards are the rows before, possibly in another order. *)
Lemma run_complete env w rows summary failed :
  fs w !! master_file = Some (Workbook rows summary failed) ->
  Forall (fun r => report_id r <> EmptyString) rows ->
  (forall k, 1 <= k <= catalog_len env ->
             exists id, id ∈ keys rows /\ report_number id = Some k) ->
  api_calls (run env w).2 = api_calls w
  /\ (exists rows', store_rows master_file (run env w).2 = Some rows' /\ rows' ≡ₚ rows)
  /\ exists p1,
       load_existing_work (init, w) = Ok tt (p1, w)
       /\ all_results p1 = rows
       /\ (catalog_len env <> 0 ->
           identify_missing_reports env (p1, w) = Ok [] (p1, w)).
Proof.
  intros Hfile Hkeys Hall.
  destruct (run_cases env w) as (p1 & Hload & Ha & Hp & _ & Hrun).
  assert (kept_rows w = rows) as Hkept.
  { unfold kept_rows, store_rows, read_results. now rewrite Hfile. }
  rewrite Hkept in *.
  assert (forall df, catalog env = CatalogRows df ->
            missing_numbers (Z.of_nat (length df)) (processed_reports p1) = []) as Hnil.
  { intros df Hcat. apply missing_numbers_nil. intros k Hk.
    destruct (Hall k) as (id & Hid & Hnum).
    { unfold catalog_len. now rewrite Hcat. }
    apply elem_of_processed_numbers. exists id. split; [now apply Hp | exact Hnum]. }
  assert (run env w = final_state (save_all_progress env (p1, w))) as ->.
  { destruct Hrun as [H|[[_ (df & Hcat & Hne)]|(df & Hcat & _ & Hrun)]]; [exact H | |].
    - now rewrite (Hnil df Hcat) in Hne.
    - cbv zeta in Hrun. rewrite (Hnil df Hcat) in Hrun.
      destruct Hrun as [H|(pre & x & post & Hsplit & _)]; [exact H|].
      now destruct pre. }
  destruct (save_all_progress_frame env p1 w) as (_ & _ & _ & _ & _ & Hcalls & _).
  split_and!; [exact Hcalls | |].
  - unfold store_rows, read_results.
    destruct (save_all_progress_master env p1 w) as [->|[summary' ->]].
    + rewrite Hfile. eauto.
    + rewrite Ha. eexists. split; [reflexivity | apply sort_by_perm].
  - exists p1. split_and!; [exact Hload | exact Ha |].
    intros Hlen. destruct (identify_cases env p1 w) as [[e He]|(df & Hcat & _ & ->)].
    + exfalso. unfold identify_missing_reports, read_catalog_len, bind, get, raise, ret in He.
      unfold catalog_len in Hlen.
      destruct (catalog env) as [| |df]; [congruence | congruence |].
      cbn [fst snd] in He. destruct (Z.eqb_spec (Z.of_nat (length df)) 0); congruence.
    + now rewrite (Hnil df Hcat).
Qed.

(** *** Isolation of a failing report *)

(** The iteration for a report returns, whatever happens in it, and
    leaves a result for the report or a failure with its id and a
    classification; a failure leaves the results as they were. *)
Lemma process_item_isolated env df i n s :
  exists s',
    process_item env df i n s = Ok tt s'
    /\ ((exists r, report_id r = report_key n
                   /\ all_results s'.1 ≡ₚ (all_results s.1 ++ [r])%list)
        \/ (all_results s'.1 ≡ₚ all_results s.1
            /\ exists f more,
                 failed_reports s'.1 = (failed_reports s.1 ++ f :: more)%list
                 /\ failed_report_id f = report_key n
                 /\ error_class (error f))).
Proof.
  destruct (process_item_cases env df i n s) as (s1 & cp & Ha & ->).
  eexists. split; [reflexivity|].
  assert ((exists r, report_id r = report_key n /\ all_results s1.1 = (all_results s.1 ++ [r])%list
                     /\ cp = true)
          \/ (all_results s1.1 = all_results s.1
              /\ exists f, failed_reports s1.1 = (failed_reports s.1 ++ [f])%list
                           /\ failed_report_id f = report_key n /\ error_class (error f)))
    as [(r & Hr & Hres & ->)|(Hres & f & Hf & Hid & Hcl)].
  { destruct Ha; [right | right | right | left];
      cbn [fst snd all_results failed_reports add_failure add_result]; eauto 10. }
  - left. exists r. split; [exact Hr|].
    destruct (checkpoint_results env i n s1) as (Hperm & _). now rewrite Hperm, Hres.
  - right. destruct cp.
    + destruct (checkpoint_results env i n s1) as (Hperm & _).
      split; [now rewrite Hperm, Hres|].
      exists f. unfold checkpoint. destruct (_ =? 0).
      * cbn [fst failed_reports add_failure]. eexists. split; [|now split].
        rewrite Hf, <- app_assoc. reflexivity.
      * exists []. destruct (_ =? 0); [|now split].
        destruct s1 as [p1 w1].
        destruct (save_all_progress_frame env p1 w1) as (_ & -> & _). now split.
    + split; [now rewrite Hres|]. exists f, []. now split.
Qed.

(** *** An interrupt *)



(** *** Failures by their cause *)

Lemma iloc_state {S} rows k (s : S) :
  iloc rows k s
  = match iloc rows k tt with
    | Ok row _ => Ok row s
    | Raise e _ => Raise e s
    | Exit _ => Exit s
    end.
Proof.
  unfold iloc, raise, ret. destruct (_ || _); [reflexivity|].
  now destruct (rows !! _).
Qed.

(** The checkpoint test, inside the handler of the iteration. *)
Lemma checkpoint_test env i n (s1 : St) :
  match
    (s0 <~ get;
     if save_frequency s0.1 =? 0 then raise "integer modulo by zero"
     else if (Z.of_nat i + 1) mod save_frequency s0.1 =? 0
          then save_all_progress env else ret ()) s1
  with
  | Ok a s' => Ok a s'
  | Raise e s' =>
      on_processor
        (add_failure
           (mkFailure (report_key n) ("Unexpected error: " +:+ e) (Some "Unknown")))
        s'
  | Exit s' => Exit s'
  end = Ok tt (checkpoint env i n s1).
Proof.
  unfold checkpoint, bind, get, raise, ret, on_processor, modify.
  destruct (save_frequency s1.1 =? 0); [reflexivity|].
  destruct (_ mod _ =? 0); [|reflexivity].
  now rewrite save_all_progress_final.
Qed.

Lemma checkpoint_failed env i n s :
  exists more, failed_reports (checkpoint env i n s).1 = (failed_reports s.1 ++ more)%list.
Proof.
  unfold checkpoint. destruct (_ =? 0); [eexists; reflexivity|].
  destruct (_ =? 0); [|exists []; now rewrite app_nil_r].
  destruct s as [p w].
  destruct (save_all_progress_frame env p w) as (_ & -> & _).
  exists []. now rewrite app_nil_r.
Qed.

(** Every failure of an item leaves a FailureRecord with the id of the
    item and the error text of its cause; the iteration returns and the
    results are as they were. *)
Lemma process_item_failure env df i n s e :
  item_failure env df n (time s.2) e ->
  exists s' f more,
    process_item env df i n s = Ok tt s'
    /\ all_results s'.1 ≡ₚ all_results s.1
    /\ failed_reports s'.1 = (failed_reports s.1 ++ f :: more)%list
    /\ failed_report_id f = report_key n
    /\ error f = e.
Proof.
  destruct s as [p w]. cbn [snd]. intros H.
  unfold process_item. unfold try_except at 1. unfold bind at 1. cbv beta.
  rewrite (iloc_state (S:=St) df (n - 1) (p, w)).
  destruct H as [e Hrow|row Hrow Hmiss|row response Hrow Hmiss Hcall Hresp
                 |row msg Hrow Hmiss Hcall]; rewrite Hrow; cbv beta iota.
  - unfold on_processor, modify. cbn [fst snd].
    eexists _, _, []. split; [reflexivity|]. cbn [fst all_results failed_reports add_failure].
    now split_and!.
  - rewrite Hmiss. unfold on_processor, modify. cbn [fst snd].
    eexists _, _, []. split; [reflexivity|]. cbn [fst all_results failed_reports add_failure].
    now split_and!.
  - rewrite Hmiss. unfold bind at 1. unfold api_call at 1. cbv beta. cbn [fst snd].
    rewrite Hcall. unfold bind at 1, get at 1. cbv beta. unfold bind at 1. cbv beta.
    assert (exists f0, error f0 = "API call failed" /\ failed_report_id f0 = report_key n
              /\ match
                   match
                     match response with
                     | Some (String c text) =>
                         on_processor
                           (add_result
                              (mkResult (report_key n) (report_name row) (description row)
                                 (sql_query row) (String c text)
                                 (now env (time (p, called (report_key n) w).2))))
                     | _ =>
                         on_processor
                           (add_failure (mkFailure (report_key n) "API call failed"
                                           (Some (report_name row))))
                     end (p, called (report_key n) w)
                   with
                   | Ok a s' =>
                       (fun _ : unit =>
                          s0 <~ get;
                          if save_frequency s0.1 =? 0 then raise "integer modulo by zero"
                          else if (Z.of_nat i + 1) mod save_frequency s0.1 =? 0
                               then save_all_progress env else ret ()) a s'
                   | Raise e s' => Raise e s'
                   | Exit s' => Exit s'
                   end
                 with
                 | Ok a s' => Ok a s'
                 | Raise e s' =>
                     on_processor
                       (add_failure
                          (mkFailure (report_key n) ("Unexpected error: " +:+ e)
                             (Some "Unknown"))) s'
                 | Exit s' => Exit s'
                 end
                 = Ok tt (checkpoint env i n (add_failure f0 p, called (report_key n) w)))
      as (f0 & He & Hid & Heq).
    { eexists (mkFailure (report_key n) "API call failed" (Some (report_name row))).
      split; [reflexivity|]. split; [reflexivity|].
      destruct Hresp as [-> | ->]; unfold on_processor at 1, modify at 1;
        cbn [fst snd]; apply checkpoint_test. }
    fold (called (report_key n) w). 
    eexists _, f0. 
    destruct (checkpoint_failed env i n (add_failure f0 p, called (report_key n) w))
      as [more Hmore].
    exists more. split; [exact Heq|].
    destruct (checkpoint_results env i n (add_failure f0 p, called (report_key n) w))
      as (Hperm & _).
    split_and!; [exact Hperm | | exact Hid | exact He].
    rewrite Hmore. cbn [fst failed_reports add_failure]. now rewrite <- app_assoc.
  - rewrite Hmiss. unfold bind at 1. unfold api_call at 1. cbv beta. cbn [fst snd].
    rewrite Hcall. unfold on_processor, modify. cbn [fst snd].
    eexists _, _, []. split; [reflexivity|]. cbn [fst all_results failed_reports add_failure].
    now split_and!.
Qed.

(** What an iteration adds: results at the end of the buffer, up to the
    order, failures at the end of the list, and among them an entry for
    its report. *)
Lemma item_state_grows env df i n s :
  exists rs fl,
    all_results (item_state env df i n s).1 ≡ₚ (all_results s.1 ++ rs)%list
    /\ failed_reports (item_state env df i n s).1 = (failed_reports s.1 ++ fl)%list
    /\ (report_key n ∈ keys rs \/ report_key n ∈ map failed_report_id fl).
Proof.
  destruct (item_state_cases env df i n s) as (s1 & cp & Ha & ->).
  assert (exists rs fl,
            all_results s1.1 = (all_results s.1 ++ rs)%list
            /\ failed_reports s1.1 = (failed_reports s.1 ++ fl)%list
            /\ (report_key n ∈ keys rs \/ report_key n ∈ map failed_report_id fl))
    as (rs & fl & Hr & Hf & Hin).
  { destruct Ha as [p w f Hid _|p w f Hid _|p w f Hid _|p w r Hid];
      cbn [fst snd all_results failed_reports add_failure add_result].
    1-3: exists [], [f]; rewrite app_nil_r; split_and!; try reflexivity;
         right; simpl; rewrite Hid; now left.
    exists [r], []. rewrite app_nil_r. split_and!; try reflexivity.
    left. unfold keys. simpl. rewrite Hid. now left. }
  destruct cp.
  - destruct (checkpoint_results env i n s1) as (Hperm & _).
    destruct (checkpoint_failed env i n s1) as [more Hmore].
    exists rs, (fl ++ more)%list. split_and!.
    + now rewrite Hperm, Hr.
    + now rewrite Hmore, Hf, <- app_assoc.
    + destruct Hin as [Hin|Hin]; [now left | right].
      rewrite map_app. apply elem_of_app. now left.
  - exists rs, fl. split_and!; [now rewrite Hr | exact Hf | exact Hin].
Qed.

Lemma loop_state_accounts env df items : forall i s,
  exists rs fl,
    all_results (loop_state env df i items s).1 ≡ₚ (all_results s.1 ++ rs)%list
    /\ failed_reports (loop_state env df i items s).1 = (failed_reports s.1 ++ fl)%list
    /\ forall n, n ∈ items ->
                 report_key n ∈ keys rs \/ report_key n ∈ map failed_report_id fl.
Proof.
  induction items as [|n items IH]; intros i s; cbn [loop_state].
  - exists [], []. rewrite !app_nil_r. split_and!; try reflexivity.
    intros n Hn. now apply elem_of_nil in Hn.
  - destruct (item_state_grows env df i n s) as (rs1 & fl1 & Hr1 & Hf1 & Hin1).
    destruct (IH (S i) (item_state env df i n s)) as (rs2 & fl2 & Hr2 & Hf2 & Hin2).
    exists (rs1 ++ rs2)%list, (fl1 ++ fl2)%list. split_and!.
    + rewrite Hr2, Hr1. now rewrite <- app_assoc.
    + rewrite Hf2, Hf1. now rewrite <- app_assoc.
    + intros m Hm. unfold keys. rewrite !map_app, !elem_of_app.
      apply elem_of_cons in Hm as [->|Hm].
      * destruct Hin1 as [H|H]; [left; left; exact H | right; left; exact H].
      * destruct (Hin2 m Hm) as [H|H]; [left; right; exact H | right; right; exact H].
Qed.

End BulletproofFacts.

(** * The recovery script *)

Module RecoveryFacts.
Import PyFacts GapFacts Recovery.

Lemma temp_not_master : temp_file <> master_results_file.
Proof. vm_compute. discriminate. Qed.

Ltac mred :=
  unfold bind, ret, raise, sys_exit, try_except, get, modify, in_world, on_processor,
       read_catalog_len, write_file, rename, remove_if_exists, set_fs, tick in *;
  cbn [fst snd fs api_calls time all_results failed_reports processed_reports
       final_state master_write master_rename_raises state_write state_rename_raises] in *.

Ltac fs_done := eexists; split; [reflexivity|]; split_and!; intros; by simplify_map_eq.

Lemma save_master_results_empty env p w :
  all_results p = [] -> save_master_results env (p, w) = Ok "" (p, w).
Proof. intros H. unfold save_master_results. mred. now rewrite H. Qed.

(** The writer of the workbook does not accept the temporary name. *)
Lemma temp_rejected : excel_extension_ok temp_file = false.
Proof. vm_compute. reflexivity. Qed.

(** With a readable, non-empty catalog the flush of a non-empty buffer
    reaches its write phase and returns the empty text: the writer raises
    on the temporary name, the handler removes a file of that name if
    there is one, and no other file is touched. *)
Lemma save_master_results_flush env p w rows :
  all_results p <> [] -> catalog env = CatalogRows rows -> rows <> [] ->
  save_master_results env (p, w)
  = Ok ""
       (mkProcessor (processed_reports p) (failed_reports p)
                    (sort_by extract_number (all_results p)),
        mkWorld (delete temp_file (fs w)) (api_calls w) (S (time w))).
Proof.
  intros H Hcat Hne.
  unfold save_master_results, write_excel. rewrite temp_rejected. mred.
  destruct (all_results p) as [|r rs] eqn:E; [congruence|]. clear H. mred. rewrite ?E.
  rewrite Hcat. mred.
  destruct (Z.eqb_spec (Z.of_nat (length rows)) 0) as [H0|_];
    [destruct rows; [congruence | simpl in H0; lia]|].
  reflexivity.
Qed.

(** The master file of the recovery script is never written. *)
Lemma save_master_results_never_commits env p w :
  let s' := final_state (save_master_results env (p, w)) in
  fs s'.2 !! master_results_file = fs w !! master_results_file.
Proof.
  cbv zeta. pose proof temp_not_master as D.
  unfold save_master_results, write_excel. rewrite temp_rejected. mred.
  destruct (all_results p) as [|r rs] eqn:E; mred; [reflexivity|].
  destruct (catalog env) as [| |rows]; mred; try reflexivity.
  destruct (Z.of_nat (length rows) =? 0); mred; [reflexivity|].
  apply lookup_delete_ne. exact D.
Qed.

(** Without a readable, non-empty catalog the flush raises before its
    write phase, and no file is touched. *)
Lemma save_master_results_early env p w :
  all_results p <> [] -> catalog_len env = 0 ->
  exists e p', save_master_results env (p, w) = Raise e (p', tick w).
Proof.
  intros H Hlen. unfold save_master_results, catalog_len in *. mred.
  destruct (all_results p) as [|r rs] eqn:E; [congruence|]. mred.
  destruct (catalog env) as [| |rows]; mred; eauto.
  rewrite Hlen. cbn. eauto.
Qed.

(** *** Loading *)

Lemma load_master_results_unreadable p w :
  read_results master_results_file (fs w) = None ->
  load_master_results (p, w) = Ok tt (p, w).
Proof.
  intros H. unfold load_master_results, bind, get, try_except, raise, ret. cbn [fst snd].
  rewrite H. now destruct (exists_ _ _).
Qed.

Lemma load_master_results_ok p w :
  exists p', load_master_results (p, w) = Ok tt (p', w).
Proof.
  unfold load_master_results, bind, get, try_except, raise, ret, on_processor, modify.
  cbn [fst snd]. destruct (exists_ _ _); [|eauto].
  destruct (read_results _ _); eauto.
Qed.

Lemma load_progress_file_ok path p w :
  exists p', load_progress_file path (p, w) = Ok tt (p', w).
Proof.
  unfold load_progress_file, bind, get, try_except, raise, ret, on_processor, modify.
  destruct (bool_decide _); [eauto|]. cbn [fst snd].
  destruct (read_results _ _); eauto.
Qed.

Lemma load_progress_files_ok paths p w :
  exists p', load_progress_files paths (p, w) = Ok tt (p', w).
Proof.
  revert p. induction paths as [|path paths IH]; intros p; simpl; [unfold ret; eauto|].
  unfold bind. destruct (load_progress_file_ok path p w) as [p' ->]. apply IH.
Qed.

Lemma load_recovery_state_ok p w :
  exists p', load_recovery_state (p, w) = Ok tt (p', w).
Proof.
  unfold load_recovery_state, bind, get, try_except, raise, ret, on_processor, modify.
  cbn [fst snd]. destruct (exists_ _ _); [|eauto].
  destruct (fs w !! recovery_file) as [[]|]; eauto.
Qed.

(** [load_existing_work] always returns and leaves the files as they
    are. *)
Lemma load_existing_work_ok p w :
  exists p', load_existing_work (p, w) = Ok tt (p', w).
Proof.
  unfold load_existing_work, bind, get.
  destruct (load_master_results_ok p w) as [p1 ->]. cbn [fst snd].
  destruct (load_progress_files_ok
              (glob "temp_progress_*.xlsx" (fs w) ++ glob "*business_context*.xlsx" (fs w))
              p1 w) as [p2 ->].
  apply load_recovery_state_ok.
Qed.

(** With a master file that cannot be read, [load_existing_work] is the
    recovery from the progress files and the recovery state alone. *)
Lemma load_existing_work_unreadable p w :
  read_results master_results_file (fs w) = None ->
  load_existing_work (p, w)
  = (_ <~ load_progress_files
            (glob "temp_progress_*.xlsx" (fs w) ++ glob "*business_context*.xlsx" (fs w));
     load_recovery_state) (p, w).
Proof.
  intros H. unfold load_existing_work. unfold bind at 1.
  rewrite (load_master_results_unreadable p w H). reflexivity.
Qed.

End RecoveryFacts.

(** * The large batch processor *)

Module LargeBatchFacts.
Import PyFacts GapFacts LargeBatch.

Lemma batch_paths_distinct :
  temp_file <> master_file /\ state_temp <> master_file /\ state_file <> master_file
  /\ state_temp <> temp_file /\ state_file <> temp_file /\ state_temp <> state_file.
Proof. repeat split; vm_compute; discriminate. Qed.

Lemma backup_not_master ts ext : backup_path ts ext <> master_file.
Proof.
  intros H.
  exact (eq_ind (backup_path ts ext)
           (fun s => match s with String "E" _ => True | _ => False end) I _ H).
Qed.

Ltac mred :=
  unfold bind, ret, raise, sys_exit, try_except, get, modify,
       read_catalog_len, write_file, rename, remove_if_exists, set_fs, tick in *;
  cbn [fst snd fs api_calls time final_state
       master_write master_rename_raises state_write state_rename_raises backup_write] in *.

(** A checkpoint always returns; the master file then holds the rows it
    was given when the flush committed, and what it held before
    otherwise. *)
Lemma save_checkpoint_spec env rows num info w :
  exists files' saved,
    save_checkpoint env rows num info w
    = Ok saved (mkWorld files' (api_calls w) (S (time w)))
    /\ (saved = true -> flush_commits env w = true)
    /\ files' !! master_file
       = if flush_commits env w
         then Some (Workbook rows
                      (mkSummary (catalog_len env) (Z.of_nat (length rows)) 0
                         (now env (time w)) (Some num)) [])
         else fs w !! master_file.
Proof.
  pose proof batch_paths_distinct as D.
  unfold save_checkpoint, flush_commits, write_phase_ok, catalog_len. mred.
  revert D. generalize temp_file, state_temp, master_file, state_file.
  intros T ST MF SF (D1 & D2 & D3 & D4 & D5 & D6).
  assert (forall b : bool, b = true -> false = true -> b = true) as Hb by auto.
  destruct (catalog env) as [| |df]; mred.
  1,2: eexists _, false; split; [reflexivity|]; split; [discriminate | reflexivity].
  destruct (Z.of_nat (length df) =? 0); mred.
  1: eexists _, false; split; [reflexivity|]; split; [discriminate | reflexivity].
  destruct (io_faults env (time w)) as [mw mr sw sr bw]; mred.
  destruct mw as [|[junk|]]; mred.
  2,3: eexists _, false; split; [reflexivity|]; split; [discriminate | by simplify_map_eq].
  destruct mr; mred.
  1: eexists _, false; split; [reflexivity|]; split; [discriminate | by simplify_map_eq].
  rewrite lookup_insert_eq. mred.
  destruct sw as [|[junk|]]; mred.
  2,3: eexists _, false; split; [reflexivity|]; split; [reflexivity | by simplify_map_eq].
  destruct sr; mred.
  1: eexists _, false; split; [reflexivity|]; split; [reflexivity | by simplify_map_eq].
  rewrite lookup_insert_eq. mred.
  eexists _, true; split; [reflexivity|]; split; [reflexivity | by simplify_map_eq].
Qed.

(** An emergency save always returns and writes under the backup
    directory only. *)
Lemma emergency_save_spec env results info w :
  exists files' saved,
    emergency_save env results info w
    = Ok saved (mkWorld files' (api_calls w) (S (time w)))
    /\ (forall path, (forall ext, path <> backup_path (now env (time w)) ext) ->
                     files' !! path = fs w !! path).
Proof.
  unfold emergency_save. mred.
  destruct (backup_write (io_faults env (time w))) as [|[junk|]]; mred;
    destruct results as [|r rs]; mred;
    eexists _, _; (split; [reflexivity|]); intros path Hpath;
    rewrite ?lookup_insert_ne by (apply not_eq_sym, Hpath); reflexivity.
Qed.

Lemma append_inj_r s a b : s +:+ a = s +:+ b -> a = b.
Proof. induction s as [|c s IH]; simpl; [auto|]. intros [= H]. now apply IH. Qed.

Lemma backup_path_inj ts e1 e2 : backup_path ts e1 = backup_path ts e2 -> e1 = e2.
Proof.
  unfold backup_path. intros H.
  now do 4 apply append_inj_r in H.
Qed.


Lemma emergency_save_master env results info w :
  exists files' saved,
    emergency_save env results info w
    = Ok saved (mkWorld files' (api_calls w) (S (time w)))
    /\ files' !! master_file = fs w !! master_file.
Proof.
  destruct (emergency_save_spec env results info w) as (files' & saved & H & Hframe).
  exists files', saved. split; [exact H|].
  apply Hframe. intros ext Heq. symmetry in Heq. now apply backup_not_master in Heq.
Qed.

(** *** One iteration *)

Lemma in_world_ok {A} (m : M World A) s a w :
  m (world s) = Ok a w -> in_world m s = Ok a (with_world s w).
Proof. intros H. unfold in_world. now rewrite H. Qed.

Lemma backup_effect env info s :
  exists s',
    (_ <~ in_world (emergency_save env (new_results s) info); ret ()) s = Ok tt s'
    /\ self s' = self s /\ all_existing_results s' = all_existing_results s
    /\ new_results s' = new_results s
    /\ api_calls (world s') = api_calls (world s)
    /\ fs (world s') !! master_file = fs (world s) !! master_file.
Proof.
  destruct (emergency_save_master env (new_results s) info (world s))
    as (files' & saved & H & Hm).
  unfold bind, ret. rewrite (in_world_ok _ _ _ _ H).
  eexists. split; [reflexivity|]. now split_and!.
Qed.

(** The checkpoint test of the loop and the handler around it. *)
Lemma checkpoint_effect env info id s :
  exists s',
    try_except
      (s0 <~ get;
       let n := Z.of_nat (length (new_results s0)) in
       let K := checkpoint_frequency (self s0) in
       if 0 <? n then
         if K =? 0 then raise "integer modulo by zero"
         else if n mod K =? 0 then
           _ <~ modify next_checkpoint;
           s1 <~ get;
           saved <~ in_world (save_checkpoint env
                      (all_existing_results s1 ++ new_results s1) (checkpoint_count s1) info);
           if saved then ret tt
           else _ <~ in_world (emergency_save env (new_results s1) info); ret tt
         else ret tt
       else ret tt)
      (fun e =>
         _ <~ modify (add_failure (mkFailure id e None));
         s1 <~ get;
         _ <~ in_world (emergency_save env (new_results s1) info);
         ret tt) s = Ok tt s'
    /\ self s' = self s /\ all_existing_results s' = all_existing_results s
    /\ new_results s' = new_results s
    /\ api_calls (world s') = api_calls (world s)
    /\ (fs (world s') !! master_file = fs (world s) !! master_file
        \/ exists summary,
             fs (world s') !! master_file = Some (Workbook (batch_rows s) summary [])).
Proof.
  unfold try_except. unfold bind at 1, get at 1. cbv beta zeta.
  destruct (0 <? _); [|unfold ret; eexists; split; [reflexivity|]; now split_and!; try left].
  destruct (checkpoint_frequency (self s) =? 0).
  { unfold raise. unfold bind at 1, modify at 1. unfold bind at 1, get at 1.
    destruct (backup_effect env info (add_failure (mkFailure id "integer modulo by zero" None) s))
      as (s' & -> & H1 & H2 & H3 & H4 & H5).
    exists s'. split; [reflexivity|]. split_and!; try assumption. now left. }
  destruct (_ mod _ =? 0); [|unfold ret; eexists; split; [reflexivity|]; now split_and!; try left].
  unfold bind at 1, modify at 1. unfold bind at 1, get at 1. unfold bind at 1.
  destruct (save_checkpoint_spec env
              (all_existing_results (next_checkpoint s) ++ new_results (next_checkpoint s))
              (checkpoint_count (next_checkpoint s)) info (world (next_checkpoint s)))
    as (files' & saved & Hsave & _ & Hm).
  rewrite (in_world_ok _ _ _ _ Hsave).
  assert (fs (world (with_world (next_checkpoint s) (mkWorld files' (api_calls (world s)) (S (time (world s))))))
            !! master_file = fs (world s) !! master_file
          \/ exists summary,
               fs (world (with_world (next_checkpoint s) (mkWorld files' (api_calls (world s)) (S (time (world s))))))
                 !! master_file = Some (Workbook (batch_rows s) summary [])) as Hmaster.
  { cbn [world with_world fs next_checkpoint] in *. rewrite Hm.
    destruct (flush_commits _ _); [right; eauto | now left]. }
  destruct saved.
  - unfold ret. eexists. split; [reflexivity|]. now split_and!.
  - destruct (backup_effect env info
                (with_world (next_checkpoint s)
                   (mkWorld files' (api_calls (world s)) (S (time (world s))))))
      as (s' & Hb & H1 & H2 & H3 & H4 & H5).
    cbn [new_results with_world next_checkpoint world self all_existing_results failed
         checkpoint_count] in *.
    rewrite Hb. exists s'. split; [reflexivity|]. split_and!; try assumption.
    now rewrite H5.
Qed.

Lemma process_item_effect env df info n s :
  exists s', process_item env df info n s = Ok tt s' /\ item_effect n s s'.
Proof.
  unfold process_item.
  unfold try_except at 1. unfold bind at 1. cbv beta.
  destruct (BulletproofFacts.iloc_cases (S:=Run) df (n - 1) s) as [[e He]|[row Hrow]].
  { rewrite He. unfold bind at 1, modify at 1. unfold bind at 1, get at 1.
    destruct (backup_effect env info (add_failure (mkFailure (report_key n) e None) s))
      as (s' & -> & H1 & H2 & H3 & H4 & H5).
    exists s'. split; [reflexivity|]. unfold item_effect. split_and!; auto. }
  rewrite Hrow. cbv beta. destruct (missing_essential_data row).
  { unfold modify. eexists. split; [reflexivity|]. unfold item_effect.
    split_and!; auto. }
  unfold bind at 1. unfold api_call at 1. cbv beta zeta.
  set (sc := mkRun (self s) (all_existing_results s) (new_results s) (failed s)
                   (checkpoint_count s)
                   (mkWorld (fs (world s)) (report_key n :: api_calls (world s))
                            (S (time (world s))))).
  destruct (call_gemini_api env (time (world s)) (report_key n)) as [response|msg].
  2:{ unfold bind at 1, modify at 1. unfold bind at 1, get at 1.
      destruct (backup_effect env info (add_failure (mkFailure (report_key n) msg None) sc))
        as (s' & -> & H1 & H2 & H3 & H4 & H5).
      exists s'. split; [reflexivity|]. unfold item_effect. subst sc.
      cbn [self all_existing_results new_results world add_failure api_calls fs] in *.
      split_and!; auto. }
  unfold bind at 1, get at 1. cbv beta. unfold bind at 1.
  assert (forall st,
            self st = self s -> all_existing_results st = all_existing_results s ->
            (new_results st = new_results s
             \/ exists r, report_id r = report_key n
                          /\ new_results st = (new_results s ++ [r])%list) ->
            world st = world sc ->
            exists s',
              match
                (s0 <~ get;
                 let n0 := Z.of_nat (length (new_results s0)) in
                 let K := checkpoint_frequency (self s0) in
                 if 0 <? n0 then
                   if K =? 0 then raise "integer modulo by zero"
                   else if n0 mod K =? 0 then
                     _ <~ modify next_checkpoint;
                     s1 <~ get;
                     saved <~ in_world (save_checkpoint env
                                (all_existing_results s1 ++ new_results s1)
                                (checkpoint_count s1) info);
                     if saved then ret tt
                     else _ <~ in_world (emergency_save env (new_results s1) info); ret tt
                   else ret tt
                 else ret tt) st
              with
              | Ok a s' => Ok a s'
              | Raise e s' =>
                  (_ <~ modify (add_failure (mkFailure (report_key n) e None));
                   s1 <~ get;
                   _ <~ in_world (emergency_save env (new_results s1) info);
                   ret tt) s'
              | Exit s' => Exit s'
              end = Ok tt s' /\ item_effect n s s') as Htail.
  { intros st Hs He Hn Hw.
    destruct (checkpoint_effect env info (report_key n) st)
      as (s' & Hcp & H1 & H2 & H3 & H4 & H5).
    exists s'. split; [exact Hcp|]. unfold item_effect.
    rewrite H1, H2, H3, H4, Hw, Hs, He. subst sc. cbn [world api_calls fs].
    split_and!; auto.
    destruct H5 as [H5|[summary H5]]; [left | right; exists summary].
    - rewrite H5, Hw. reflexivity.
    - rewrite H5. unfold batch_rows. now rewrite H2, H3. }
  destruct response as [[|c text]|]; unfold modify at 1; apply Htail;
    subst sc; cbn [self all_existing_results new_results world add_failure add_result];
    try reflexivity; try (now left); right; eexists; (split; [|reflexivity]); reflexivity.
Qed.

Lemma batch_item_final env df info n s :
  process_item env df info n s = Ok tt (batch_item_state env df info n s).
Proof.
  unfold batch_item_state.
  destruct (process_item_effect env df info n s) as (s' & -> & _). reflexivity.
Qed.

Lemma batch_item_effect env df info n s :
  item_effect n s (batch_item_state env df info n s).
Proof.
  unfold batch_item_state.
  destruct (process_item_effect env df info n s) as (s' & -> & H). exact H.
Qed.

Lemma batch_loop_frame env df info items s :
  self (batch_loop_state env df info items s) = self s
  /\ all_existing_results (batch_loop_state env df info items s) = all_existing_results s.
Proof.
  revert s. induction items as [|n items IH]; intros s; simpl; [now split|].
  destruct (IH (batch_item_state env df info n s)) as [H1 H2].
  destruct (batch_item_effect env df info n s) as (H3 & H4 & _). split; congruence.
Qed.

(** *** The loop *)

Lemma batch_loop_quiet env df info i items s :
  (forall j, sigint_after env = Some j -> (j < i \/ i + length items <= j)%nat) ->
  interrupted (self s) = false ->
  process_loop env df info i items s = Ok tt (batch_loop_state env df info items s).
Proof.
  revert i s. induction items as [|n items IH]; intros i s Hsig Hflag; [reflexivity|].
  cbn [process_loop batch_loop_state].
  rewrite bool_decide_eq_false_2.
  2:{ intros Heq. specialize (Hsig i Heq). simpl in Hsig. lia. }
  unfold bind at 1, ret at 1. unfold bind at 1, get at 1. rewrite Hflag.
  unfold bind at 1. rewrite batch_item_final.
  apply IH.
  - intros j Hj. specialize (Hsig j Hj). simpl in Hsig. lia.
  - now rewrite (proj1 (batch_item_effect env df info n s)).
Qed.

(** What the test at the top of the loop does once the flag is set: an
    emergency backup of the new results, then [sys.exit]. *)
Lemma interrupt_exit env info s :
  exists s',
    (_ <~ in_world (emergency_save env (new_results s) info); sys_exit (A:=unit)) s
    = Exit s'
    /\ new_results s' = new_results s
    /\ all_existing_results s' = all_existing_results s
    /\ api_calls (world s') = api_calls (world s)
    /\ fs (world s') !! master_file = fs (world s) !! master_file.
Proof.
  destruct (emergency_save_master env (new_results s) info (world s))
    as (files' & saved & H & Hm).
  unfold bind, sys_exit. rewrite (in_world_ok _ _ _ _ H).
  eexists. split; [reflexivity|]. now split_and!.
Qed.

Lemma batch_loop_sigint env df info i pre x post s :
  sigint_after env = Some (i + length pre)%nat ->
  interrupted (self s) = false ->
  process_loop env df info i (pre ++ x :: post) s
  = (_ <~ in_world (emergency_save env
                      (new_results (batch_loop_state env df info pre s)) info);
     sys_exit)
      (deliver_sigint (batch_loop_state env df info pre s)).
Proof.
  revert i s. induction pre as [|n pre IH]; intros i s Hsig Hflag.
  - simpl in Hsig. rewrite Nat.add_0_r in Hsig.
    cbn [app process_loop batch_loop_state].
    rewrite bool_decide_eq_true_2 by exact Hsig.
    unfold bind at 1, modify at 1. unfold bind at 1, get at 1. reflexivity.
  - cbn [app process_loop batch_loop_state].
    rewrite bool_decide_eq_false_2.
    2:{ rewrite Hsig. intros [= Heq]. simpl in Heq. lia. }
    unfold bind at 1, ret at 1. unfold bind at 1, get at 1. rewrite Hflag.
    unfold bind at 1. rewrite batch_item_final.
    apply IH.
    + rewrite Hsig. f_equal. simpl. lia.
    + now rewrite (proj1 (batch_item_effect env df info n s)).
Qed.

(** The loop on any list, whatever the signal: it returns after all
    iterations, or leaves the process after a prefix of them with the new
    results, the calls and the master file as the prefix left them. *)
Lemma batch_loop_cases env df info items s :
  interrupted (self s) = false ->
  process_loop env df info 0 items s = Ok tt (batch_loop_state env df info items s)
  \/ exists pre x post s',
       items = (pre ++ x :: post)%list
       /\ sigint_after env = Some (length pre)
       /\ process_loop env df info 0 items s = Exit s'
       /\ new_results s' = new_results (batch_loop_state env df info pre s)
       /\ all_existing_results s' = all_existing_results s
       /\ api_calls (world s') = api_calls (world (batch_loop_state env df info pre s))
       /\ fs (world s') !! master_file
          = fs (world (batch_loop_state env df info pre s)) !! master_file.
Proof.
  intros Hflag.
  assert (forall pre x post,
            items = (pre ++ x :: post)%list -> sigint_after env = Some (length pre) ->
            exists s',
              process_loop env df info 0 items s = Exit s'
              /\ new_results s' = new_results (batch_loop_state env df info pre s)
              /\ all_existing_results s' = all_existing_results s
              /\ api_calls (world s') = api_calls (world (batch_loop_state env df info pre s))
              /\ fs (world s') !! master_file
                 = fs (world (batch_loop_state env df info pre s)) !! master_file) as Hint.
  { intros pre x post -> Hsig.
    rewrite (batch_loop_sigint env df info 0 pre x post s) by (simpl; assumption).
    destruct (interrupt_exit env info (deliver_sigint (batch_loop_state env df info pre s)))
      as (s' & Hexit & H1 & H2 & H3 & H4).
    exists s'. split; [exact Hexit|]. split_and!; try assumption.
    rewrite H2. cbn [all_existing_results deliver_sigint].
    apply batch_loop_frame. }
  destruct (sigint_after env) as [j|] eqn:Hsig.
  - destruct (Nat.lt_ge_cases j (length items)) as [Hlt|Hge].
    + right. exists (take j items).
      destruct (drop j items) as [|x post] eqn:Hdrop.
      { apply (f_equal length) in Hdrop. rewrite length_drop in Hdrop. simpl in Hdrop. lia. }
      exists x, post.
      assert (items = (take j items ++ x :: post)%list) as Hsplit
        by (rewrite <- Hdrop; symmetry; apply take_drop).
      assert (length (take j items) = j) as Hlen by (rewrite length_take; lia).
      destruct (Hint _ _ _ Hsplit) as (s' & H); [now rewrite Hlen|].
      exists s'. split_and!; [exact Hsplit | now rewrite Hlen | apply H ..].
    + left. apply batch_loop_quiet; [|exact Hflag].
      intros j' Hj'. rewrite Hsig in Hj'. injection Hj' as <-. right. simpl. lia.
  - left. apply batch_loop_quiet; [|exact Hflag]. intros j' Hj'. now rewrite Hsig in Hj'.
Qed.

(** *** Unique report ids *)

Lemma batch_coherent_item env df info n s :
  batch_coherent s -> report_key n ∉ keys (batch_rows s) ->
  batch_coherent (batch_item_state env df info n s)
  /\ (forall k, k ∈ keys (batch_rows (batch_item_state env df info n s))
                -> k = report_key n \/ k ∈ keys (batch_rows s)).
Proof.
  intros [Hnd Hstore] Hfresh.
  destruct (batch_item_effect env df info n s) as (_ & He & Hnew & _ & Hm).
  set (s' := batch_item_state env df info n s) in *.
  assert (NoDup (keys (batch_rows s'))
          /\ (forall k, k ∈ keys (batch_rows s') -> k = report_key n \/ k ∈ keys (batch_rows s)))
    as [Hnd' Hsub].
  { unfold batch_rows in *. rewrite He.
    destruct Hnew as [->|(r & Hr & ->)]; [split; [exact Hnd | auto]|].
    rewrite app_assoc, !(BulletproofFacts.keys_app _ [r]). split.
    - apply NoDup_app. split_and!; [exact Hnd | | apply NoDup_singleton].
      intros k Hk Hk'. apply list_elem_of_singleton in Hk'. subst k.
      rewrite Hr in Hk. auto.
    - intros k [Hk|Hk]%elem_of_app; [now right|].
      apply list_elem_of_singleton in Hk. left. rewrite Hk. exact Hr. }
  split; [|exact Hsub]. split; [exact Hnd'|].
  unfold unique_keys, store_rows, read_results in *.
  destruct Hm as [->|[summary ->]]; [exact Hstore|].
  now intros rows [= <-].
Qed.

Lemma batch_coherent_loop env df info items s :
  batch_coherent s -> NoDup items ->
  (forall n, n ∈ items -> report_key n ∉ keys (batch_rows s)) ->
  batch_coherent (batch_loop_state env df info items s).
Proof.
  revert s. induction items as [|n items IH]; intros s Hc Hnd Hfresh; [exact Hc|].
  simpl. apply NoDup_cons in Hnd as [Hn Hnd].
  destruct (batch_coherent_item env df info n s Hc) as [Hc' Hsub].
  { apply Hfresh. now left. }
  apply IH; [exact Hc' | exact Hnd |].
  intros m Hm Hin. apply Hsub in Hin as [Heq|Hin].
  - apply report_key_inj in Heq. subst m. contradiction.
  - eapply Hfresh; [right; exact Hm | exact Hin].
Qed.

(** *** Computations that keep a property of the state *)

Lemma keeps_ret {S A} (P : S -> Prop) (a : A) : keeps P (ret a).
Proof. intros s H. exact H. Qed.

Lemma keeps_raise {S A} (P : S -> Prop) e : keeps P (raise (A:=A) e).
Proof. intros s H. exact H. Qed.

Lemma keeps_bind {S A B} (P : S -> Prop) (m : M S A) (k : A -> M S B) :
  keeps P m -> (forall a, keeps P (k a)) -> keeps P (bind m k).
Proof.
  intros Hm Hk s H. specialize (Hm s H). unfold bind.
  destruct (m s) as [a s'| |]; [now apply Hk | exact Hm | exact Hm].
Qed.

Lemma keeps_get {S} (P : S -> Prop) : keeps P get.
Proof. intros s H. exact H. Qed.

Lemma keeps_in_world {A} (P : World -> Prop) (m : M World A) :
  keeps P m -> keeps (fun s => P (world s)) (in_world m).
Proof.
  intros Hm s H. specialize (Hm (world s) H). unfold in_world.
  now destruct (m (world s)).
Qed.

Lemma unique_keys_same w w' :
  fs w' !! master_file = fs w !! master_file ->
  unique_keys master_file w -> unique_keys master_file w'.
Proof. unfold unique_keys, store_rows, read_results. now intros ->. Qed.

Lemma keeps_emergency_save env results info :
  keeps (unique_keys master_file) (emergency_save env results info).
Proof.
  intros w H. destruct (emergency_save_master env results info w) as (files' & saved & -> & Hm).
  eapply unique_keys_same; [|exact H]. exact Hm.
Qed.

Lemma get_current_status_world env w :
  final_state (get_current_status env w) = w.
Proof.
  unfold get_current_status, read_catalog_len, bind, get, ret, raise.
  destruct (exists_ _ _); [destruct (read_results _ _) as [[|r0 rs]|]|];
    cbn [final_state]; try reflexivity.
  all: destruct (catalog env) as [| |rows]; cbn [final_state]; try reflexivity.
  all: now destruct (Z.of_nat (length rows) =? 0).
Qed.

Lemma keeps_get_current_status env (P : World -> Prop) : keeps P (get_current_status env).
Proof. intros w H. now rewrite get_current_status_world. Qed.

(** The status, when it is returned: the missing numbers are distinct,
    none of them has a row in the master file, and the master file can be
    read if it exists. *)
Lemma get_current_status_cases env w :
  (exists e, get_current_status env w = Raise e w)
  \/ exists df status,
       catalog env = CatalogRows df
       /\ get_current_status env w = Ok status w
       /\ NoDup (missing_numbers status)
       /\ (forall n, n ∈ missing_numbers status -> report_key n ∉ keys (baseline_rows w))
       /\ (exists_ master_file (fs w) = true ->
           exists rows, read_results master_file (fs w) = Some rows).
Proof.
  assert (exists o, o = get_current_status env w) as [o Ho] by eauto. rewrite <- Ho.
  unfold get_current_status in Ho. unfold baseline_rows, store_rows.
  unfold bind at 1, get at 1 in Ho. unfold bind at 1 in Ho.
  assert (forall (ids : gset string) rows',
            (forall k, k ∈ keys rows' -> k ∈ ids) ->
            (exists e,
               (total <~ read_catalog_len env;
                (let processed := Bulletproof.processed_numbers ids in
                 let missing := sorted (Bulletproof.all_numbers total ∖ processed) in
                 if total =? 0 then raise "division by zero"
                 else ret (mkStatus total (Z.of_nat (size processed))
                             (Z.of_nat (length missing)) missing))) w = Raise e w)
            \/ exists df status,
                 catalog env = CatalogRows df
                 /\ (total <~ read_catalog_len env;
                     (let processed := Bulletproof.processed_numbers ids in
                      let missing := sorted (Bulletproof.all_numbers total ∖ processed) in
                      if total =? 0 then raise "division by zero"
                      else ret (mkStatus total (Z.of_nat (size processed))
                                  (Z.of_nat (length missing)) missing))) w = Ok status w
                 /\ NoDup (missing_numbers status)
                 /\ (forall n, n ∈ missing_numbers status -> report_key n ∉ keys rows')) as Hrest.
  { intros ids rows' Hsub. unfold bind, read_catalog_len, raise, ret.
    destruct (catalog env) as [| |df]; [left; eauto | left; eauto |].
    destruct (_ =? 0); [left; eauto|]. right. exists df. eexists.
    split_and!; [reflexivity | reflexivity | |]; cbn [missing_numbers].
    - apply (BulletproofFacts.missing_numbers_nodup (Z.of_nat (length df)) ids).
    - intros n Hn Hin. apply Hsub in Hin.
      now apply (BulletproofFacts.missing_numbers_fresh (Z.of_nat (length df)) ids n). }
  destruct (exists_ master_file (fs w)) eqn:Hex.
  - destruct (read_results master_file (fs w)) as [rows|] eqn:Hread.
    + destruct rows as [|r0 rs]; [left; unfold raise in Ho; eauto|].
      set (rows := r0 :: rs) in *.
      unfold ret at 1 in Ho.
      destruct (Hrest (list_to_set (map report_id rows)) rows)
        as [[e He]|(df & status & H1 & H2 & H3 & H4)].
      { intros k Hk. now apply elem_of_list_to_set. }
      * left. exists e. rewrite Ho. exact He.
      * right. exists df, status.
        split_and!; [exact H1 | rewrite Ho; exact H2 | exact H3 | exact H4 |].
        intros _. eauto.
    + left. unfold raise in Ho. eauto.
  - unfold ret at 1 in Ho.
    destruct (Hrest ∅ []) as [[e He]|(df & status & H1 & H2 & H3 & H4)].
    { intros k Hk. now apply elem_of_nil in Hk. }
    + left. exists e. rewrite Ho. exact He.
    + right. exists df, status.
      split_and!; [exact H1 | rewrite Ho; exact H2 | exact H3 | | discriminate].
      destruct (read_results master_file (fs w)) as [rows|] eqn:Hread; [|exact H4].
      exfalso. unfold exists_, read_results in *.
      destruct (fs w !! master_file); [|discriminate].
      now rewrite bool_decide_eq_true_2 in Hex by eauto.
Qed.

Lemma last_cons_some {A} (x : A) l : exists y, last (x :: l) = Some y.
Proof.
  revert x. induction l as [|z l IH]; intros x; [simpl; eauto|].
  destruct (IH z) as [y Hy]. exists y. exact Hy.
Qed.

(** From a store without a repeated id, a run of the large batch script
    leaves the store without one. *)
Lemma run_unique env p w :
  interrupted p = false ->
  unique_keys master_file w ->
  unique_keys master_file (world (run env p w)).
Proof.
  intros Hflag Hu. unfold run, main.
  unfold bind at 1. unfold in_world at 1. cbn [world start_run].
  destruct (get_current_status_cases env w)
    as [[e ->]|(df & status & Hcat & -> & Hnd & Hfresh & Hread)]; [exact Hu|].
  fold (start_run p w).
  destruct (missing_numbers status) as [|m ms] eqn:Hmiss; [exact Hu|].
  set (batch := take 100 (m :: ms)).
  assert (exists first rest, batch = first :: rest) as (first & rest & Hbatch)
    by (subst batch; simpl; eauto).
  assert (NoDup batch) as Hbnd.
  { subst batch. rewrite <- (take_drop 100 (m :: ms)) in Hnd.
    now apply NoDup_app in Hnd as (Hnd & _). }
  assert (forall n, n ∈ batch -> report_key n ∉ keys (baseline_rows w)) as Hbfresh.
  { intros n Hn. apply Hfresh. subst batch.
    rewrite <- (take_drop 100 (m :: ms)). apply elem_of_app. now left. }
  clearbody batch.
  (* the continuation of [main] keeps the store as it is *)
  assert (keeps (fun s => unique_keys master_file (world s))
            (fun s => (if (true : bool)
                       then _ <~ in_world (get_current_status env); ret ()
                       else ret ()) s)) as Hk1.
  { apply keeps_bind; [|intros; apply keeps_ret].
    apply keeps_in_world, keeps_get_current_status. }
  unfold bind at 1. unfold process_large_batch. rewrite Hbatch.
  destruct (last_cons_some first rest) as [last_ ->].
  unfold bind at 1, get at 1. cbv beta zeta. unfold bind at 1.
  cbn [world start_run].
  set (info := mkBatchInfo _ _ _ _).
  assert (forall st : Run,
            (if exists_ master_file (fs w)
             then match read_results master_file (fs w) with
                  | Some df0 => ret df0
                  | None => raise "cannot read the master file"
                  end
             else ret []) st = Ok (baseline_rows w) st) as ->.
  { intros st. unfold baseline_rows, store_rows, ret.
    destruct (exists_ master_file (fs w)) eqn:Hex.
    - destruct (Hread eq_refl) as [rows ->]. reflexivity.
    - unfold exists_, read_results in *.
      destruct (fs w !! master_file); [|reflexivity].
      now rewrite bool_decide_eq_true_2 in Hex by eauto. }
  unfold bind at 1, modify at 1. rewrite Hcat.
  destruct (setup_gemini_api env); cbn [negb]; [|exact Hu].
  match goal with
  | |- context [set_existing (baseline_rows w) ?st] =>
      change st with (start_run p w)
  end.
  set (s0 := set_existing (baseline_rows w) (start_run p w)).
  assert (batch_coherent s0) as Hc0.
  { split; [|exact Hu]. unfold batch_rows, s0. cbn [all_existing_results new_results set_existing start_run].
    rewrite app_nil_r. unfold baseline_rows, unique_keys in *.
    destruct (store_rows master_file w) as [rows|]; [now apply Hu | constructor]. }
  assert (forall n, n ∈ batch -> report_key n ∉ keys (batch_rows s0)) as Hf0.
  { intros n Hn. unfold batch_rows, s0. cbn [all_existing_results new_results set_existing start_run].
    rewrite app_nil_r. now apply Hbfresh. }
  rewrite <- Hbatch.
  unfold bind at 1.
  destruct (batch_loop_cases env df info batch s0 Hflag)
    as [->|(pre & x & post & s' & Hsplit & _ & -> & Hn & He & _ & Hm)].
  2:{ cbn [final_state]. eapply unique_keys_same; [exact Hm|].
      apply (batch_coherent_loop env df info pre s0 Hc0).
      - rewrite Hsplit in Hbnd. now apply NoDup_app in Hbnd as (Hnd' & _).
      - intros n Hn'. apply Hf0. rewrite Hsplit. apply elem_of_app. now left. }
  pose proof (batch_coherent_loop env df info batch s0 Hc0 Hbnd Hf0) as [HndL HuL].
  set (sL := batch_loop_state env df info batch s0) in *.
  unfold bind at 1, get at 1. unfold bind at 1.
  destruct (save_checkpoint_spec env (all_existing_results sL ++ new_results sL)
              (checkpoint_count sL + 1) info (world sL)) as (files' & saved & Hsave & _ & Hm).
  rewrite (in_world_ok _ _ _ _ Hsave).
  set (s2 := with_world sL _).
  assert (unique_keys master_file (world s2)) as Hu2.
  { subst s2. cbn [world with_world].
    unfold unique_keys, store_rows, read_results. cbn [fs]. rewrite Hm.
    destruct (flush_commits env (world sL)); [|exact HuL].
    now intros rows [= <-]. }
  destruct saved.
  - unfold bind at 1, get at 1.
    destruct (read_results master_file (fs (world s2))); [|exact Hu2].
    unfold ret at 1. destruct (bool_decide _); [|exact Hu2].
    apply (Hk1 s2 Hu2).
  - unfold bind at 1.
    pose proof (keeps_in_world _ _ (keeps_emergency_save env (new_results sL) info) s2 Hu2) as Hk2.
    destruct (in_world (emergency_save env (new_results sL) info) s2); exact Hk2.
Qed.


End LargeBatchFacts.

(** * The generator's own loop *)

Module GeneratorFacts.
Import PyFacts Generator.

(** [save_results] always returns and leaves the generator as it is. *)
Lemma save_results_ok env path g w :
  exists out w', save_results env path (g, w) = Ok out (g, w').
Proof.
  unfold save_results, bind, get, try_except, in_world, modify, ret, raise, write_file.
  cbn [fst snd].
  destruct (results g); [eauto|].
  destruct (master_write _) as [|[junk|]]; unfold bind, modify, raise; cbn [fst snd]; eauto.
Qed.

Lemma generator_item_isolated env row index g w :
  exists g' w',
    process_item env row index (g, w) = Ok tt (g', w')
    /\ generator_recorded (index + 1) g g'
    /\ df g' = df g.
Proof.
  unfold process_item, generator_recorded, generator_error_class.
  unfold try_except at 1.
  destruct (missing_essential_data row).
  { unfold on_generator, modify. eexists _, _. split; [reflexivity|].
    cbn [fst results failed_reports add_failure df]. split; [|reflexivity].
    right. split; [reflexivity|]. eexists. split; [reflexivity|]. split; [reflexivity|].
    now left. }
  unfold bind at 1. unfold api_call at 1. cbn [fst snd].
  destruct (call_gemini_api env (time w) (report_key (index + 1))) as [response|msg].
  2:{ unfold on_generator, modify. eexists _, _. split; [reflexivity|].
      cbn [fst results failed_reports add_failure df]. split; [|reflexivity].
      right. split; [reflexivity|]. eexists. split; [reflexivity|]. split; [reflexivity|].
      right; right. eauto. }
  unfold bind at 1, get at 1. cbv beta. unfold bind at 1.
  assert (forall g1 w1,
            generator_recorded (index + 1) g g1 -> df g1 = df g ->
            exists g' w',
              match
                (s <~ get;
                 let completed_in_session := Z.of_nat (length (results s.1)) in
                 if (0 <? completed_in_session) && (completed_in_session mod 25 =? 0)
                 then _ <~ save_results env
                             ("temp_progress_" +:+ Py.str completed_in_session
                              +:+ "_reports.xlsx");
                      ret tt
                 else ret tt) (g1, w1)
              with
              | Ok a s' => Ok a s'
              | Raise e s' =>
                  on_generator
                    (add_failure
                       (mkFailure (report_key (index + 1)) ("Unexpected error: " +:+ e)
                          (Some (report_name row)))) s'
              | Exit s' => Exit s'
              end = Ok tt (g', w')
              /\ generator_recorded (index + 1) g g' /\ df g' = df g) as Htail.
  { intros g1 w1 Hrec Hdf. unfold bind at 1, get at 1. cbv beta zeta. cbn [fst].
    destruct (_ && _); [|unfold ret; eauto 6].
    unfold bind.
    destruct (save_results_ok env
                ("temp_progress_" +:+ Py.str (Z.of_nat (length (results g1)))
                 +:+ "_reports.xlsx") g1 w1) as (out & w' & ->).
    unfold ret. eauto 6. }
  destruct response as [[|c text]|]; unfold on_generator at 1, modify at 1; cbn [fst snd];
    apply Htail; unfold generator_recorded, generator_error_class;
    cbn [results failed_reports add_failure add_result df]; try reflexivity.
  - right. split; [reflexivity|]. eexists. split; [reflexivity|]. split; [reflexivity|].
    now right; left.
  - left. eexists. split; [|split; reflexivity]. reflexivity.
  - right. split; [reflexivity|]. eexists. split; [reflexivity|]. split; [reflexivity|].
    now right; left.
Qed.

Lemma recorded_records n g g' :
  generator_recorded n g g' -> generator_records g' = S (generator_records g).
Proof.
  unfold generator_records.
  intros [(r & _ & -> & ->)|(-> & f & -> & _)]; rewrite length_app; simpl; lia.
Qed.

Lemma iloc_in_range {S} rows k (s : S) :
  - Z.of_nat (length rows) <= k < Z.of_nat (length rows) ->
  exists row, iloc rows k s = Ok row s.
Proof.
  intros Hk. unfold iloc, ret, raise.
  set (k' := if k <? 0 then k + Z.of_nat (length rows) else k).
  assert (0 <= k' < Z.of_nat (length rows)) as Hk'
    by (subst k'; destruct (Z.ltb_spec k 0); lia).
  destruct (Z.ltb_spec k' 0); [lia|].
  destruct (Z.leb_spec (Z.of_nat (length rows)) k'); [lia|]. cbn [orb].
  destruct (rows !! Z.to_nat k') as [row|] eqn:Hrow; [eauto|].
  apply lookup_ge_None in Hrow. lia.
Qed.

(** On positions of the catalog the loop returns after an iteration for
    each of them, every one of which left a record. *)
Lemma process_loop_isolated env rows indices g w :
  Forall (fun k => - Z.of_nat (length rows) <= k < Z.of_nat (length rows)) indices ->
  exists g' w',
    process_loop env rows indices (g, w) = Ok tt (g', w')
    /\ generator_records g' = (generator_records g + length indices)%nat
    /\ df g' = df g.
Proof.
  intros Hall. revert g w.
  induction Hall as [|k indices Hk _ IH]; intros g w; simpl.
  - unfold ret. eexists _, _. split; [reflexivity|]. split; [lia | reflexivity].
  - unfold bind at 1.
    destruct (iloc_in_range (S:=St) rows k (g, w) Hk) as [row ->].
    unfold bind at 1.
    destruct (generator_item_isolated env row k g w) as (g1 & w1 & -> & Hrec & Hdf).
    destruct (IH g1 w1) as (g' & w' & -> & Hcount & Hdf').
    eexists _, _. split; [reflexivity|].
    rewrite Hcount, (recorded_records _ _ _ Hrec). split; [lia | congruence].
Qed.

(** [process_reports] on a range of report numbers of the catalog. *)
Lemma process_reports_isolated env rows g w start_from_report end_at_report :
  df g = Some rows ->
  1 <= start_from_report ->
  (forall e, end_at_report = Some e -> e <= Z.of_nat (length rows)) ->
  exists g' w',
    process_reports env start_from_report end_at_report (g, w) = Ok true (g', w')
    /\ (generator_records g <= generator_records g')%nat.
Proof.
  intros Hdf Hstart Hend. unfold process_reports. unfold bind at 1, get at 1.
  cbn [fst]. rewrite Hdf. unfold bind.
  set (end_index := match end_at_report with
                    | Some e => if e =? 0 then Z.of_nat (length rows) - 1 else e - 1
                    | None => Z.of_nat (length rows) - 1
                    end).
  assert (end_index < Z.of_nat (length rows)) as Hlt.
  { subst end_index. destruct end_at_report as [e|]; [|lia].
    specialize (Hend e eq_refl). destruct (e =? 0); lia. }
  destruct (process_loop_isolated env rows
              (Py.range_incl (start_from_report - 1) end_index) g w)
    as (g' & w' & -> & Hcount & _).
  { apply Forall_forall. intros k Hk. apply GapFacts.elem_of_range_incl in Hk. lia. }
  unfold ret. eexists _, _. split; [reflexivity | lia].
Qed.


(** Every failure of a row leaves a FailureRecord with the id of the
    row, the error text of its cause and the name of the report; the
    iteration returns and the results are as they were. *)
Lemma generator_item_failure_recorded env row index g w e :
  generator_item_failure env row index (time w) e ->
  exists w',
    process_item env row index (g, w)
    = Ok tt (add_failure (mkFailure (report_key (index + 1)) e (Some (report_name row))) g,
             w').
Proof.
  intros H. unfold process_item. unfold try_except at 1.
  destruct H as [Hmiss|response Hmiss Hcall Hresp|msg Hmiss Hcall]; rewrite Hmiss.
  - unfold on_generator, modify. cbn [fst snd]. eauto.
  - unfold bind at 1. unfold api_call at 1. cbn [fst snd]. rewrite Hcall.
    unfold bind at 1, get at 1. cbv beta. unfold bind at 1.
    set (g1 := add_failure
                 (mkFailure (report_key (index + 1)) "API call failed or content blocked"
                    (Some (report_name row))) g).
    assert (forall w1, exists w',
              (s <~ get;
               let completed_in_session := Z.of_nat (length (results s.1)) in
               if (0 <? completed_in_session) && (completed_in_session mod 25 =? 0)
               then _ <~ save_results env
                           ("temp_progress_" +:+ Py.str completed_in_session
                            +:+ "_reports.xlsx");
                    ret tt
               else ret tt) (g1, w1)
              = Ok tt (g1, w')) as Htail.
    { intros w1. unfold bind at 1, get at 1. cbv beta zeta. cbn [fst].
      destruct (_ && _); [|unfold ret; eauto].
      unfold bind, ret.
      destruct (save_results_ok env
                  ("temp_progress_" +:+ Py.str (Z.of_nat (length (results g1)))
                   +:+ "_reports.xlsx") g1 w1) as (out & w' & ->).
      eauto. }
    destruct Hresp as [-> | ->]; unfold on_generator at 1, modify at 1; cbn [fst snd];
      fold g1;
      match goal with
      | |- ex (fun _ => match ?X with Ok _ _ => _ | Raise _ _ => _ | Exit _ => _ end = _) =>
          assert (exists w', X = Ok tt (g1, w')) as [w' ->] by apply Htail
      end; eauto.
  - unfold bind at 1. unfold api_call at 1. cbn [fst snd]. rewrite Hcall.
    unfold on_generator, modify. cbn [fst snd]. eauto.
Qed.

End GeneratorFacts.

(** * The claims *)

Module Claims.
Import PyFacts GapFacts.

(** ** C1 *)

(** C1, as stated, fails: the persister does not deduplicate.  On a
    master file with two rows for [Report_1] a run of the bulletproof
    script performs one flush, and the master file it writes holds both
    rows. *)
Lemma flush_writes_duplicates :
  let s := Bulletproof.run (calm [a_row] None) duplicated_world in
  fs s.2 !! Bulletproof.master_file
  = Some (Workbook [result_for 1 "first"; result_for 1 "second"]
                   (mkSummary 1 2 0 "0" None) [])
  /\ time s.2 = 1%nat
  /\ ~ unique_keys Bulletproof.master_file s.2.
Proof.
  cbv zeta. split; [vm_compute; reflexivity|]. split; [vm_compute; reflexivity|].
  intros H.
  specialize (H [result_for 1 "first"; result_for 1 "second"]).
  assert (NoDup (keys [result_for 1 "first"; result_for 1 "second"])) as Hnd
    by (apply H; vm_compute; reflexivity).
  apply NoDup_cons in Hnd as [Hnotin _]. apply Hnotin. now left.
Qed.

(** C1, amended.  The persisters write the rows they are given as they
    are (the bulletproof one after sorting them by report number); they
    remove no row.  Uniqueness of the ids comes from the executor: from a
    master file with at most one row per id, a run of the bulletproof
    script, at each of its iterations and at its end, and a run of the
    large batch script leave a master file with at most one row per id. *)
Theorem keys_stay_unique :
  (forall env p w,
     let s' := final_state (Bulletproof.save_all_progress env (p, w)) in
     fs s'.2 !! Bulletproof.master_file = fs w !! Bulletproof.master_file
     \/ exists summary,
          fs s'.2 !! Bulletproof.master_file
          = Some (Workbook (sort_by extract_number (Bulletproof.all_results p)) summary
                           (Bulletproof.failed_reports p)))
  /\ (forall env rows num info w,
        let w' := final_state (LargeBatch.save_checkpoint env rows num info w) in
        fs w' !! LargeBatch.master_file = fs w !! LargeBatch.master_file
        \/ exists summary,
             fs w' !! LargeBatch.master_file = Some (Workbook rows summary []))
  /\ (forall env w,
        unique_keys Bulletproof.master_file w ->
        unique_keys Bulletproof.master_file (Bulletproof.run env w).2
        /\ forall df pre post p1,
             catalog env = CatalogRows df ->
             Bulletproof.load_existing_work (Bulletproof.init, w) = Ok tt (p1, w) ->
             Bulletproof.missing_numbers (Z.of_nat (length df))
               (Bulletproof.processed_reports p1) = (pre ++ post)%list ->
             unique_keys Bulletproof.master_file (loop_state env df 0 pre (p1, w)).2)
  /\ (forall env p w,
        LargeBatch.interrupted p = false ->
        unique_keys LargeBatch.master_file w ->
        unique_keys LargeBatch.master_file (LargeBatch.world (LargeBatch.run env p w))).
Proof.
  split_and!.
  - intros env p w. apply BulletproofFacts.save_all_progress_master.
  - intros env rows num info w. cbv zeta.
    destruct (LargeBatchFacts.save_checkpoint_spec env rows num info w)
      as (files' & saved & -> & _ & Hm).
    cbn [final_state fs]. rewrite Hm.
    destruct (flush_commits env w); [right; eauto | now left].
  - intros env w Hu. destruct (BulletproofFacts.run_coherent env w Hu) as [Hrun Hloop].
    split; [apply Hrun|].
    intros df pre post p1 Hcat Hload Hsplit.
    apply (Hloop df pre post p1 Hcat Hload Hsplit).
  - apply LargeBatchFacts.run_unique.
Qed.

Lemma keys_stay_unique_witness :
  let s := Bulletproof.run (calm [a_row; a_row; a_bad_row; a_row] None) complete_world in
  unique_keys Bulletproof.master_file complete_world
  /\ unique_keys Bulletproof.master_file s.2
  /\ option_map keys (store_rows Bulletproof.master_file s.2)
     = Some (map report_key [1; 2; 4]).
Proof.
  cbv zeta.
  assert (unique_keys Bulletproof.master_file complete_world) as Hu.
  { intros rows Hrows. vm_compute in Hrows. injection Hrows as <-.
    unfold keys. simpl. apply NoDup_cons. split; [|apply NoDup_singleton].
    intros H. apply list_elem_of_singleton in H. discriminate. }
  split; [exact Hu|]. split; [|vm_compute; reflexivity].
  exact (proj1 (proj1 (proj2 (proj2 keys_stay_unique))
                  (calm [a_row; a_row; a_bad_row; a_row] None) complete_world Hu)).
Defined.

(** ** C2 *)

(** The flush of the bulletproof processor does what C2 says.  A flush of
    a non-empty buffer writes the whole buffer to the temporary file and
    renames it onto the master file.  When the flush reaches the end of
    its rename, the master file holds the whole buffer; when an exception
    stops it before, the master file holds what it held before the flush;
    in both cases the temporary file is gone. *)
Lemma bulletproof_flush_all_or_nothing env p w :
  Bulletproof.all_results p <> [] ->
  let s' := final_state (Bulletproof.save_all_progress env (p, w)) in
  fs s'.2 !! Bulletproof.temp_file = None
  /\ (flush_commits env w = true ->
      fs s'.2 !! Bulletproof.master_file
      = Some (Workbook (sort_by extract_number (Bulletproof.all_results p))
                (mkSummary (catalog_len env)
                   (Z.of_nat (length (sort_by extract_number (Bulletproof.all_results p))))
                   (Z.of_nat (length (Bulletproof.failed_reports p)))
                   (now env (time w)) None)
                (Bulletproof.failed_reports p)))
  /\ (flush_commits env w = false ->
      fs s'.2 !! Bulletproof.master_file = fs w !! Bulletproof.master_file).
Proof.
  intros Hne. cbv zeta.
  destruct (BulletproofFacts.save_all_progress_flush env p w Hne)
    as (files' & -> & Ht & _ & _ & Hm).
  cbn [final_state snd fs]. rewrite Hm.
  split_and!; [exact Ht | now intros -> | now intros ->].
Qed.

(** C2, at the flush of the recovery script.  The temporary name of
    [save_master_results] is the name of the master file followed by
    [.tmp], an extension that the writer of the workbook rejects before it
    creates the file, where the temporary name of the bulletproof
    processor is accepted.  With one result in the buffer, a catalog that
    can be read and no fault, the flush returns the empty text and there is
    no master file afterwards; and whatever the buffer, the catalog and the
    faults are, the flush leaves the master file as it was: the buffer is
    never moved onto it. *)
Theorem recovery_flush_never_commits :
  let env := calm [a_row] None in
  let p := Recovery.add_result (result_for 1 "first") Recovery.init in
  excel_extension_ok Recovery.temp_file = false
  /\ excel_extension_ok Bulletproof.temp_file = true
  /\ Recovery.save_master_results env (p, empty_world) = Ok EmptyString (p, tick empty_world)
  /\ fs (tick empty_world) !! Recovery.master_results_file = None
  /\ (forall env p w,
        fs (final_state (Recovery.save_master_results env (p, w))).2
           !! Recovery.master_results_file
        = fs w !! Recovery.master_results_file).
Proof.
  cbv zeta. split_and!.
  - vm_compute. reflexivity.
  - vm_compute. reflexivity.
  - vm_compute. reflexivity.
  - reflexivity.
  - intros env p w. apply RecoveryFacts.save_master_results_never_commits.
Qed.

(** ** C3 *)

(** C3, at a run of the bulletproof processor on ten reports of which the
    fifth has no query: the iteration for the fifth report leaves through
    [continue], before the checkpoint test, so that after nine iterations
    no flush has happened and eight results, more than the save frequency
    of five, exist in memory only. *)
Theorem skipped_checkpoint :
  let s := loop_state (calm fifth_bad None) fifth_bad 0 (Py.range_incl 1 9)
                      (Bulletproof.init, empty_world) in
  Bulletproof.process_loop (calm fifth_bad None) fifth_bad 0 (Py.range_incl 1 9)
                           (Bulletproof.init, empty_world) = Ok tt s
  /\ Bulletproof.save_frequency s.1 = 5
  /\ store_rows Bulletproof.master_file s.2 = None
  /\ only_in_memory s
     = map report_key [1; 2; 3; 4; 6; 7; 8; 9].
Proof.
  cbv zeta. split_and!.
  - apply BulletproofFacts.process_loop_quiet; [discriminate | reflexivity].
  - vm_compute. reflexivity.
  - vm_compute. reflexivity.
  - vm_compute. reflexivity.
Qed.

(** ** C4 *)

(** C4, as stated, fails: on a master file that cannot be parsed
    [load_existing_work] returns, with no completed id, and raises
    nothing. *)
Lemma corrupt_store_loads_as_empty :
  Bulletproof.load_existing_work (Bulletproof.init, corrupt_world)
  = Ok tt (Bulletproof.init, corrupt_world)
  /\ Bulletproof.processed_reports Bulletproof.init = ∅.
Proof. split; [vm_compute; reflexivity | reflexivity]. Qed.

(** C4, amended.  A master file that exists but cannot be parsed is
    treated as an absent one: [load_existing_work] catches the error,
    returns, and takes no completed id from it.  In the bulletproof
    processor the set of completed ids is then empty, as on a first run;
    in the recovery script it holds what the progress files give. *)
Theorem unreadable_store_is_empty :
  (forall w,
     store_rows Bulletproof.master_file w = None ->
     exists p1,
       Bulletproof.load_existing_work (Bulletproof.init, w) = Ok tt (p1, w)
       /\ Bulletproof.all_results p1 = []
       /\ forall k, k ∉ Bulletproof.processed_reports p1)
  /\ (forall p w,
        read_results Recovery.master_results_file (fs w) = None ->
        Recovery.load_master_results (p, w) = Ok tt (p, w)
        /\ exists p', Recovery.load_existing_work (p, w) = Ok tt (p', w)).
Proof.
  split.
  - intros w Hnone.
    destruct (BulletproofFacts.load_existing_work_spec w) as (p1 & Hload & Ha & Hp & _).
    exists p1. unfold kept_rows in *. rewrite Hnone in *.
    split_and!; [exact Hload | exact Ha |].
    intros k Hk. apply Hp in Hk. now apply elem_of_nil in Hk.
  - intros p w Hnone. split.
    + now apply RecoveryFacts.load_master_results_unreadable.
    + apply RecoveryFacts.load_existing_work_ok.
Qed.

Lemma unreadable_store_is_empty_witness :
  exists p1,
    Bulletproof.load_existing_work (Bulletproof.init, corrupt_world) = Ok tt (p1, corrupt_world)
    /\ Bulletproof.all_results p1 = []
    /\ forall k, k ∉ Bulletproof.processed_reports p1.
Proof. exact (proj1 unreadable_store_is_empty corrupt_world eq_refl). Defined.

(** ** C5 *)





(** The checkpoint of the large batch processor has no clean-up: a write
    that breaks off leaves the partial temporary file behind.  The master
    file is as untouched as with the other two persisters. *)
Remark save_checkpoint_leaves_temp :
  let w' := final_state
              (LargeBatch.save_checkpoint broken_write [result_for 3 "third"] 1
                 (LargeBatch.mkBatchInfo 3 3 1 "t") complete_world) in
  fs w' !! LargeBatch.temp_file = Some (Corrupt "half")
  /\ fs w' !! LargeBatch.master_file = fs complete_world !! LargeBatch.master_file.
Proof. cbv zeta. split; vm_compute; reflexivity. Qed.

(** ** C7 *)

(** C7.  On a master file that holds a row for every report of the
    catalog, a run of the bulletproof script makes no external call and
    leaves a master file with the same rows, up to their order; the ledger
    it loads holds these rows, and on it the Gap Resolver of a non-empty
    catalog returns the empty list. *)
Theorem rerun_is_idempotent env w rows summary failed :
  fs w !! Bulletproof.master_file = Some (Workbook rows summary failed) ->
  Forall (fun r => report_id r <> EmptyString) rows ->
  (forall k, 1 <= k <= catalog_len env ->
             exists id, id ∈ keys rows /\ report_number id = Some k) ->
  api_calls (Bulletproof.run env w).2 = api_calls w
  /\ (exists rows',
        store_rows Bulletproof.master_file (Bulletproof.run env w).2 = Some rows'
        /\ rows' ≡ₚ rows)
  /\ exists p1,
       Bulletproof.load_existing_work (Bulletproof.init, w) = Ok tt (p1, w)
       /\ Bulletproof.all_results p1 = rows
       /\ (catalog_len env <> 0 ->
           Bulletproof.identify_missing_reports env (p1, w) = Ok [] (p1, w)).
Proof. apply BulletproofFacts.run_complete. Qed.

Lemma rerun_is_idempotent_witness :
  let env := calm [a_row; a_row] None in
  api_calls (Bulletproof.run env complete_world).2 = []
  /\ (exists rows',
        store_rows Bulletproof.master_file (Bulletproof.run env complete_world).2 = Some rows'
        /\ rows' ≡ₚ [result_for 1 "first"; result_for 2 "second"])
  /\ exists p1,
       Bulletproof.load_existing_work (Bulletproof.init, complete_world)
       = Ok tt (p1, complete_world)
       /\ Bulletproof.all_results p1 = [result_for 1 "first"; result_for 2 "second"]
       /\ (catalog_len env <> 0 ->
           Bulletproof.identify_missing_reports env (p1, complete_world)
           = Ok [] (p1, complete_world)).
Proof.
  cbv zeta.
  apply (rerun_is_idempotent (calm [a_row; a_row] None) complete_world
           [result_for 1 "first"; result_for 2 "second"] (mkSummary 2 2 0 "t" None) []).
  - vm_compute. reflexivity.
  - repeat constructor; discriminate.
  - intros k Hk.
    assert (k = 1 \/ k = 2) as [-> | ->] by (change (1 <= k <= 2) in Hk; lia).
    + exists (report_key 1). split; [left | vm_compute; reflexivity].
    + exists (report_key 2). split; [right; left | vm_compute; reflexivity].
Defined.

(** ** C8 *)

(** C8.  In the loop of the bulletproof processor every failure of an
    item (no row in the catalog, missing data, a call without a response,
    an exception that escapes the call) leaves a FailureRecord with the id
    of the item and the error text of its cause, and the results as they
    were; the iteration returns for every item, with a result for it or a
    failure; and without a SIGINT the loop runs through all its items,
    each of which has a result or a failure afterwards, whatever happened
    to the items before it.  The loop of the generator does the same for
    every row of its table. *)
Theorem per_item_isolation :
  (forall env df i n s e,
     item_failure env df n (time s.2) e ->
     exists s' f more,
       Bulletproof.process_item env df i n s = Ok tt s'
       /\ Bulletproof.all_results s'.1 ≡ₚ Bulletproof.all_results s.1
       /\ Bulletproof.failed_reports s'.1
          = (Bulletproof.failed_reports s.1 ++ f :: more)%list
       /\ failed_report_id f = report_key n
       /\ error f = e)
  /\ (forall env df i n s,
        exists s',
          Bulletproof.process_item env df i n s = Ok tt s'
          /\ ((exists r, report_id r = report_key n
                         /\ Bulletproof.all_results s'.1
                            ≡ₚ (Bulletproof.all_results s.1 ++ [r])%list)
              \/ (Bulletproof.all_results s'.1 ≡ₚ Bulletproof.all_results s.1
                  /\ exists f more,
                       Bulletproof.failed_reports s'.1
                       = (Bulletproof.failed_reports s.1 ++ f :: more)%list
                       /\ failed_report_id f = report_key n
                       /\ error_class (error f))))
  /\ (forall env df items s,
        sigint_after env = None ->
        Bulletproof.interrupted s.1 = false ->
        let s' := loop_state env df 0 items s in
        Bulletproof.process_loop env df 0 items s = Ok tt s'
        /\ exists rs fl,
             Bulletproof.all_results s'.1 ≡ₚ (Bulletproof.all_results s.1 ++ rs)%list
             /\ Bulletproof.failed_reports s'.1
                = (Bulletproof.failed_reports s.1 ++ fl)%list
             /\ forall n, n ∈ items ->
                          report_key n ∈ keys rs
                          \/ report_key n ∈ map failed_report_id fl)
  /\ (forall env row index g w e,
        generator_item_failure env row index (time w) e ->
        exists w',
          Generator.process_item env row index (g, w)
          = Ok tt (Generator.add_failure
                     (mkFailure (report_key (index + 1)) e (Some (report_name row))) g,
                   w'))
  /\ (forall env row index g w,
        exists g' w',
          Generator.process_item env row index (g, w) = Ok tt (g', w')
          /\ generator_recorded (index + 1) g g')
  /\ (forall env rows indices g w,
        Forall (fun k => - Z.of_nat (length rows) <= k < Z.of_nat (length rows)) indices ->
        exists g' w',
          Generator.process_loop env rows indices (g, w) = Ok tt (g', w')
          /\ generator_records g' = (generator_records g + length indices)%nat).
Proof.
  split_and!.
  - apply BulletproofFacts.process_item_failure.
  - apply BulletproofFacts.process_item_isolated.
  - intros env df items s Hsig Hflag. cbv zeta. split.
    + apply BulletproofFacts.process_loop_quiet; [|exact Hflag].
      intros j Hj. rewrite Hsig in Hj. discriminate.
    + apply BulletproofFacts.loop_state_accounts.
  - apply GeneratorFacts.generator_item_failure_recorded.
  - intros env row index g w.
    destruct (GeneratorFacts.generator_item_isolated env row index g w)
      as (g' & w' & H1 & H2 & _).
    now exists g', w'.
  - intros env rows indices g w Hin.
    destruct (GeneratorFacts.process_loop_isolated env rows indices g w Hin)
      as (g' & w' & H1 & H2 & _).
    now exists g', w'.
Qed.

(** Four reports: the call for the first raises, the second has no
    query, the third succeeds and the call for the fourth returns nothing.
    The loop runs through the four, and leaves the three failures with
    their causes and the one result. *)
Lemma per_item_isolation_witness :
  let df := [a_row; a_bad_row; a_row; a_row] in
  let s := (Bulletproof.init, empty_world) in
  let s' := loop_state (flaky df) df 0 [1; 2; 3; 4] s in
  (exists s1 f more,
      Bulletproof.process_item (flaky df) df 0 1 s = Ok tt s1
      /\ Bulletproof.all_results s1.1 ≡ₚ Bulletproof.all_results s.1
      /\ Bulletproof.failed_reports s1.1
         = (Bulletproof.failed_reports s.1 ++ f :: more)%list
      /\ failed_report_id f = report_key 1
      /\ error f = "Unexpected error: timeout")
  /\ (Bulletproof.process_loop (flaky df) df 0 [1; 2; 3; 4] s = Ok tt s'
      /\ exists rs fl,
           Bulletproof.all_results s'.1 ≡ₚ (Bulletproof.all_results s.1 ++ rs)%list
           /\ Bulletproof.failed_reports s'.1
              = (Bulletproof.failed_reports s.1 ++ fl)%list
           /\ forall n, n ∈ [1; 2; 3; 4] ->
                        report_key n ∈ keys rs
                        \/ report_key n ∈ map failed_report_id fl)
  /\ map (fun f => (failed_report_id f, error f)) (Bulletproof.failed_reports s'.1)
     = [("Report_1", "Unexpected error: timeout");
        ("Report_2", "Missing essential data");
        ("Report_4", "API call failed")]
  /\ keys (Bulletproof.all_results s'.1) = ["Report_3"].
Proof.
  cbv zeta. split; [|split; [|split]].
  - apply (proj1 per_item_isolation (flaky [a_row; a_bad_row; a_row; a_row])
             [a_row; a_bad_row; a_row; a_row] 0%nat 1 (Bulletproof.init, empty_world)).
    apply (fails_raised _ _ _ _ a_row "timeout"); reflexivity.
  - exact (proj1 (proj2 (proj2 per_item_isolation))
             (flaky [a_row; a_bad_row; a_row; a_row]) [a_row; a_bad_row; a_row; a_row]
             [1; 2; 3; 4] (Bulletproof.init, empty_world) eq_refl eq_refl).
  - vm_compute. reflexivity.
  - vm_compute. reflexivity.
Defined.

(** ** C9 *)

(** C9.  A flush of an empty result buffer returns at once and changes
    nothing, in the bulletproof processor and in the recovery script; a run
    of the bulletproof script that ends with an empty result buffer leaves
    every file as it was, so that the failures it recorded are in no
    file. *)
Theorem empty_flush_is_noop :
  (forall env p w,
     Bulletproof.all_results p = [] ->
     Bulletproof.save_all_progress env (p, w) = Ok tt (p, w))
  /\ (forall env p w,
        Recovery.all_results p = [] ->
        Recovery.save_master_results env (p, w) = Ok EmptyString (p, w))
  /\ (forall env w,
        Bulletproof.all_results (Bulletproof.run env w).1 = [] ->
        fs (Bulletproof.run env w).2 = fs w).
Proof.
  split_and!.
  - apply BulletproofFacts.save_all_progress_empty.
  - apply RecoveryFacts.save_master_results_empty.
  - apply BulletproofFacts.run_nothing.
Qed.

Lemma empty_flush_is_noop_witness :
  let s := Bulletproof.run (calm [a_bad_row; a_bad_row] None) empty_world in
  length (Bulletproof.failed_reports s.1) = 2%nat
  /\ fs s.2 = fs empty_world.
Proof.
  cbv zeta. split; [vm_compute; reflexivity|].
  exact (proj2 (proj2 empty_flush_is_noop) (calm [a_bad_row; a_bad_row] None) empty_world
           eq_refl).
Defined.

End Claims.

(** * Further properties of the code *)

Module Extras.
Import PyFacts RangeFacts GapFacts.

(** ** Report ids *)

(** X1.  [int(report_id.replace('Report_', ''))] reads back the number
    that [f"Report_{n}"] was made from, for every integer [n]; the sort key
    of a row with that id is [n]; different numbers have different ids. *)
Theorem report_id_roundtrip :
  (forall n, report_number (report_key n) = Some n)
  /\ (forall r n, report_id r = report_key n -> extract_number r = n)
  /\ (forall a b, report_key a = report_key b -> a = b).
Proof.
  split_and!.
  - apply report_number_key.
  - intros r n H. unfold extract_number. now rewrite H, report_number_key.
  - apply report_key_inj.
Qed.

Lemma report_id_roundtrip_witness : extract_number (result_for (-7) "text") = -7.
Proof. exact (proj1 (proj2 report_id_roundtrip) (result_for (-7) "text") (-7) eq_refl). Defined.

(** ** The range text *)

Lemma separated_snoc l a b n m :
  separated (l ++ [(a, b)]) -> n <> b + 1 -> separated (l ++ [(a, b); (n, m)]).
Proof.
  induction l as [|p l IH]; simpl; [tauto|].
  destruct l as [|q l]; simpl in *; [tauto|].
  intros [H1 H2] Hn. split; [exact H1|]. now apply IH.
Qed.

Lemma separated_last l a b b' :
  separated (l ++ [(a, b)]) -> separated (l ++ [(a, b')]).
Proof.
  induction l as [|p l IH]; simpl; [tauto|].
  destruct l as [|q l]; simpl in *; [tauto|].
  intros [H1 H2]. split; [exact H1|]. now apply IH.
Qed.

Lemma range_fold_separated rest ranges start end_ :
  separated (ranges ++ [(start, end_)]) ->
  separated (foldl (Bulletproof.range_step pair) (ranges, start, end_)
                   (map Some rest ++ [None])%list).1.1.
Proof.
  revert ranges start end_. induction rest as [|n rest IH]; intros ranges start end_ H.
  - exact H.
  - cbn [map app foldl Bulletproof.range_step].
    destruct (n =? end_ + 1) eqn:Hn; cbn [negb].
    + apply IH. now apply separated_last with end_.
    + apply IH. rewrite <- app_assoc. apply separated_snoc; [exact H|].
      now apply Z.eqb_neq.
Qed.

(** X2.  The ranges that [_format_ranges] prints are maximal: the text is
    the ranges of the loop joined by a comma and a space, the ranges cover
    the list in order, and no range starts right after the end of the range
    before it (two neighbours are never a range cut in two). *)
Theorem format_ranges_maximal first rest :
  let out := Bulletproof.range_loop pair first rest in
  Bulletproof._format_ranges (first :: rest)
  = Py.join ", " (map (fun p : Z * Z => Bulletproof.range_text p.1 p.2) out)
  /\ concat (map span out) = first :: rest
  /\ separated out.
Proof.
  cbv zeta. split_and!.
  - unfold Bulletproof._format_ranges. now rewrite range_loop_render.
  - apply range_loop_spans.
  - unfold Bulletproof.range_loop. now apply range_fold_separated.
Qed.

(** X3.  The range text determines the list: two lists with the same text
    are equal.  In particular only the empty list prints as [None]. *)
Theorem format_ranges_injective l1 l2 :
  Bulletproof._format_ranges l1 = Bulletproof._format_ranges l2 -> l1 = l2.
Proof.
  assert (forall first rest,
            Bulletproof._format_ranges (first :: rest) <> Bulletproof._format_ranges [])
    as Hnone.
  { intros first rest H. pose proof (format_ranges_expand first rest) as He.
    rewrite H in He. vm_compute in He. discriminate. }
  destruct l1 as [|a l1], l2 as [|b l2]; intros H.
  - reflexivity.
  - symmetry in H. now apply Hnone in H.
  - now apply Hnone in H.
  - pose proof (format_ranges_expand a l1) as H1.
    rewrite H, format_ranges_expand in H1. now inversion H1.
Qed.

Lemma format_ranges_injective_witness : [3; 4; 5; 9] = [3; 4; 5; 9].
Proof. exact (format_ranges_injective [3; 4; 5; 9] [3; 4; 5; 9] eq_refl). Defined.


(** ** The bulletproof processor: loading and flushing *)

Section BulletproofLedger.
Import Bulletproof BulletproofFacts.

(** What [load_existing_work] builds on a fresh processor, the failures
    included. *)
Lemma load_existing_work_full w :
  exists p1,
    load_existing_work (init, w) = Ok tt (p1, w)
    /\ all_results p1 = kept_rows w
    /\ (forall k, k ∈ processed_reports p1 <-> k ∈ keys (kept_rows w))
    /\ failed_reports p1 = state_failures w.
Proof.
  unfold load_existing_work, kept_rows, store_rows, state_failures.
  unfold bind at 1, get at 1. cbv beta. unfold bind at 1. cbn [fst snd].
  assert (exists p0,
            (if exists_ master_file (fs w)
             then try_except
                    match read_results master_file (fs w) with
                    | Some df => on_processor (fun p => foldl load_row p df)
                    | None => raise "cannot read the master file"
                    end (fun _ => ret ())
             else ret ()) (init, w) = Ok tt (p0, w)
            /\ all_results p0 = match read_results master_file (fs w) with
                                | Some rows => rows
                                | None => []
                                end
            /\ (forall k, k ∈ processed_reports p0
                  <-> k ∈ keys match read_results master_file (fs w) with
                               | Some rows => rows
                               | None => []
                               end)
            /\ failed_reports p0 = []) as (p0 & -> & Ha & Hp & Hf).
  { unfold exists_, read_results. destruct (fs w !! master_file) as [f|] eqn:Hf.
    - rewrite bool_decide_eq_true_2 by eauto.
      destruct f as [rows ? ?| | | | |]; unfold try_except, on_processor, modify, raise, ret.
      2-6: (exists init; split_and!; try reflexivity; intros k; simpl;
            rewrite elem_of_empty, elem_of_nil; tauto).
      destruct (foldl_load_row rows init) as (H1 & H2 & H3 & _).
      eexists. split; [reflexivity|]. simpl. split_and!; try assumption.
      intros k. rewrite H2. simpl. rewrite elem_of_empty. tauto.
    - rewrite bool_decide_eq_false_2 by (intros [? ?]; congruence).
      exists init. split_and!; try reflexivity. intros k. simpl.
      rewrite elem_of_empty, elem_of_nil. tauto. }
  unfold bind, get. cbn [fst snd]. unfold exists_.
  destruct (fs w !! state_file) as [f|] eqn:Hs.
  - rewrite bool_decide_eq_true_2 by eauto. unfold try_except.
    destruct f as [| ? failed ? ?| | | |];
      unfold on_processor, modify, raise, ret; eexists; (split; [reflexivity|]);
      now split_and!.
  - rewrite bool_decide_eq_false_2 by (intros [? ?]; congruence).
    unfold ret. eexists; split; [reflexivity|]. now split_and!.
Qed.

(** The state file after a flush of a non-empty buffer. *)
Lemma save_all_progress_state env p w :
  all_results p <> [] ->
  fs (final_state (save_all_progress env (p, w))).2 !! state_file
  = if flush_commits env w && state_phase_ok (io_faults env (time w))
    then Some (StateJson (elements (processed_reports p)) (failed_reports p)
                 (now env (time w))
                 (Some (Z.of_nat (length (sort_by extract_number (all_results p))))))
    else fs w !! state_file.
Proof.
  intros H. pose proof paths_distinct as D.
  unfold save_all_progress, flush_commits, write_phase_ok, state_phase_ok, catalog_len. mred.
  destruct (all_results p) as [|r rs] eqn:E; [congruence|]. clear H. mred. rewrite ?E.
  revert D. generalize temp_file, state_temp, master_file, state_file.
  intros T ST MF SF (D1 & D2 & D3 & D4 & D5 & D6).
  destruct (catalog env) as [| |rows]; mred; [by simplify_map_eq | by simplify_map_eq |].
  destruct (Z.of_nat (length rows) =? 0); mred; [by simplify_map_eq|].
  destruct (io_faults env (time w)) as [mw mr sw sr bw]; mred.
  destruct mw as [|[junk|]]; mred; [| by simplify_map_eq | by simplify_map_eq].
  destruct mr; mred; [by simplify_map_eq|].
  rewrite lookup_insert_eq. mred.
  destruct sw as [|[junk|]]; mred; [| by simplify_map_eq | by simplify_map_eq].
  destruct sr; mred; [by simplify_map_eq|].
  rewrite lookup_insert_eq. mred. by simplify_map_eq.
Qed.

End BulletproofLedger.

(** X4.  [load_existing_work] on a fresh processor always returns and
    changes no file.  The buffer it builds is the rows of the master file,
    a row without an id included, in the order of the file; the completed
    ids are the ids of these rows, so the list of processed ids in the
    state file is never read; the failures are those of the state file,
    none when that file is absent or unreadable. *)
Theorem ledger_is_read_from_master_file w :
  exists p1,
    Bulletproof.load_existing_work (Bulletproof.init, w) = Ok tt (p1, w)
    /\ Bulletproof.all_results p1 = kept_rows w
    /\ (forall k, k ∈ Bulletproof.processed_reports p1 <-> k ∈ keys (kept_rows w))
    /\ Bulletproof.failed_reports p1 = state_failures w.
Proof. apply load_existing_work_full. Qed.

(** X5.  A restart after a committed flush restores the buffer: when the
    flush of a non-empty buffer whose rows all carry an id commits the
    master file and the state file, [load_existing_work] on a fresh
    processor rebuilds the rows that were flushed, in the sorted order of
    the file, the ids of these rows as completed ids, and the failures. *)
Theorem flush_then_load env p w :
  Bulletproof.all_results p <> [] ->
  Forall (fun r => report_id r <> EmptyString) (Bulletproof.all_results p) ->
  flush_commits env w = true ->
  state_phase_ok (io_faults env (time w)) = true ->
  let s' := final_state (Bulletproof.save_all_progress env (p, w)) in
  exists p1,
    Bulletproof.load_existing_work (Bulletproof.init, s'.2) = Ok tt (p1, s'.2)
    /\ Bulletproof.all_results p1 = sort_by extract_number (Bulletproof.all_results p)
    /\ Bulletproof.all_results p1 = Bulletproof.all_results s'.1
    /\ (forall k, k ∈ Bulletproof.processed_reports p1
                  <-> k ∈ keys (Bulletproof.all_results p))
    /\ Bulletproof.failed_reports p1 = Bulletproof.failed_reports p.
Proof.
  intros Hne Hids Hc Hs. cbv zeta.
  pose proof (save_all_progress_state env p w Hne) as Hstate.
  rewrite Hc, Hs in Hstate. cbn [andb] in Hstate.
  destruct (BulletproofFacts.save_all_progress_flush env p w Hne)
    as (files' & Hsave & _ & _ & _ & Hm).
  rewrite Hc in Hm. rewrite Hsave in *. cbn [final_state fst snd fs] in *.
  destruct (load_existing_work_full (mkWorld files' (api_calls w) (S (time w))))
    as (p1 & Hload & Ha & Hp & Hf).
  assert (kept_rows (mkWorld files' (api_calls w) (S (time w)))
          = sort_by extract_number (Bulletproof.all_results p)) as Hk.
  { unfold kept_rows, store_rows, read_results. cbn [fs]. now rewrite Hm. }
  exists p1. split_and!.
  - exact Hload.
  - now rewrite Ha.
  - now rewrite Ha.
  - intros k. rewrite Hp, Hk. unfold keys.
    now rewrite (sort_by_perm extract_number (Bulletproof.all_results p)).
  - rewrite Hf. unfold state_failures. cbn [fs]. now rewrite Hstate.
Qed.

Lemma flush_then_load_witness :
  let p := Bulletproof.add_failure (mkFailure "Report_3" "API call failed" None)
             (Bulletproof.add_result (result_for 2 "second")
                (Bulletproof.add_result (result_for 5 "fifth") Bulletproof.init)) in
  let s' := final_state (Bulletproof.save_all_progress (calm [a_row] None) (p, empty_world)) in
  exists p1,
    Bulletproof.load_existing_work (Bulletproof.init, s'.2) = Ok tt (p1, s'.2)
    /\ Bulletproof.all_results p1 = sort_by extract_number (Bulletproof.all_results p)
    /\ Bulletproof.all_results p1 = Bulletproof.all_results s'.1
    /\ (forall k, k ∈ Bulletproof.processed_reports p1
                  <-> k ∈ keys (Bulletproof.all_results p))
    /\ Bulletproof.failed_reports p1 = Bulletproof.failed_reports p.
Proof.
  cbv zeta.
  apply (flush_then_load (calm [a_row] None)
           (Bulletproof.add_failure (mkFailure "Report_3" "API call failed" None)
              (Bulletproof.add_result (result_for 2 "second")
                 (Bulletproof.add_result (result_for 5 "fifth") Bulletproof.init)))
           empty_world).
  - discriminate.
  - repeat constructor; discriminate.
  - reflexivity.
  - reflexivity.
Defined.


(** ** The bulletproof processor: the script as a whole *)

Section BulletproofRun.
Import Bulletproof BulletproofFacts.

(** X6.  [main] of the bulletproof script lets no exception escape: on
    every master file, state file, catalog and fault it returns, or, when
    a SIGINT is delivered, leaves through the interrupt handler. *)
Theorem main_never_raises env w :
  (exists s, main env (init, w) = Ok tt s)
  \/ (exists n s, sigint_after env = Some n /\ main env (init, w) = Exit s).
Proof.
  destruct (load_existing_work_spec w) as (p1 & Hload & _ & _ & _ & Hi).
  assert (exists o, o = main env (init, w)) as [o Ho] by eauto. rewrite <- Ho.
  unfold main in Ho. unfold try_except at 1 in Ho. unfold bind at 1 in Ho.
  rewrite Hload in Ho. unfold bind at 1 in Ho.
  destruct (identify_cases env p1 w) as [[e He]|(df & Hcat & Hne & He)]; rewrite He in Ho.
  { left. rewrite save_all_progress_final in Ho. subst o. eauto. }
  destruct (missing_numbers _ _) as [|m ms] eqn:Hmiss.
  { left. rewrite save_all_progress_final in Ho. subst o. eauto. }
  unfold bind at 1 in Ho. unfold process_missing_reports in Ho. rewrite Hcat in Ho.
  destruct (setup_gemini_api env); cbn [negb] in Ho.
  2:{ left. subst o. unfold ret. eauto. }
  unfold bind at 1 in Ho.
  destruct (process_loop_cases env df (m :: ms) (p1, w) Hi)
    as [Hl|(pre & x & post & Hsplit & Hsig & Hl)]; rewrite Hl in Ho.
  - left. unfold bind, ret in Ho. rewrite save_all_progress_final in Ho. subst o. eauto.
  - right. destruct (loop_state env df 0 pre (p1, w)) as [pn wn].
    rewrite handle_interrupt_final in Ho. subst o. eauto.
Qed.

Lemma sublist_strongly_sorted {A} (R : A -> A -> Prop) l1 l2 :
  l1 `sublist_of` l2 -> StronglySorted R l2 -> StronglySorted R l1.
Proof.
  induction 1 as [|x l1 l2 Hsub IH|x l1 l2 Hsub IH]; intros Hs.
  - constructor.
  - apply StronglySorted_inv in Hs as [Hs Hx]. constructor; [now apply IH|].
    apply Forall_forall. intros y Hy. rewrite Forall_forall in Hx. apply Hx.
    now apply (elem_of_sublist l1 l2).
  - apply StronglySorted_inv in Hs as [Hs _]. now apply IH.
Qed.

Lemma item_state_calls env df i n s :
  api_calls (item_state env df i n s).2 = api_calls s.2
  \/ api_calls (item_state env df i n s).2 = report_key n :: api_calls s.2.
Proof.
  destruct (item_state_cases env df i n s) as (s1 & cp & Ha & ->).
  assert (api_calls s1.2 = api_calls s.2 \/ api_calls s1.2 = report_key n :: api_calls s.2)
    as H1.
  { destruct Ha; cbn [fst snd called api_calls]; auto. }
  destruct cp; [|exact H1].
  destruct (checkpoint_results env i n s1) as (_ & -> & _). exact H1.
Qed.

Lemma loop_state_calls env df i items s :
  exists called,
    called `sublist_of` items
    /\ api_calls (loop_state env df i items s).2
       = (rev (map report_key called) ++ api_calls s.2)%list.
Proof.
  revert i s. induction items as [|n items IH]; intros i s; simpl.
  - exists []. split; [constructor | reflexivity].
  - destruct (IH (S i) (item_state env df i n s)) as (called & Hsub & ->).
    destruct (item_state_calls env df i n s) as [->| ->].
    + exists called. split; [now apply sublist_cons_r; left | reflexivity].
    + exists (n :: called). split; [now constructor|].
      simpl. now rewrite <- app_assoc.
Qed.

(** X7.  The external calls of a run of the script: they are made for
    report numbers of the catalog in ascending order, each at most once,
    and never for a report whose id has a row in the master file the run
    started from. *)
Theorem calls_only_for_missing env w :
  exists called,
    api_calls (run env w).2 = (rev (map report_key called) ++ api_calls w)%list
    /\ StronglySorted Z.lt called
    /\ forall n, n ∈ called ->
                 1 <= n <= catalog_len env /\ report_key n ∉ keys (kept_rows w).
Proof.
  destruct (run_cases env w) as (p1 & _ & _ & Hp & _ & Hrun).
  assert (exists called,
            api_calls (run env w).2 = (rev (map report_key called) ++ api_calls w)%list
            /\ (called = []
                \/ exists df, catalog env = CatalogRows df
                     /\ called `sublist_of`
                          missing_numbers (Z.of_nat (length df)) (processed_reports p1)))
    as (called & Hcalls & Hsub).
  { destruct Hrun as [->|[[-> _]|(df & Hcat & _ & Hrun)]].
    - exists []. split; [|now left].
      now destruct (save_all_progress_frame env p1 w) as (_ & _ & _ & _ & _ & -> & _).
    - exists []. split; [reflexivity | now left].
    - cbv zeta in Hrun. destruct Hrun as [->|(pre & x & post & Hsplit & _ & ->)].
      + destruct (loop_state_calls env df 0
                    (missing_numbers (Z.of_nat (length df)) (processed_reports p1)) (p1, w))
          as (called & Hsub & Hc).
        exists called. split; [|right; eauto].
        destruct (loop_state env df 0 _ (p1, w)) as [pn wn].
        destruct (save_all_progress_frame env pn wn) as (_ & _ & _ & _ & _ & -> & _).
        exact Hc.
      + destruct (loop_state_calls env df 0 pre (p1, w)) as (called & Hsub & Hc).
        exists called. split.
        * destruct (loop_state env df 0 pre (p1, w)) as [pn wn].
          rewrite handle_interrupt_final. cbn [final_state].
          destruct (save_all_progress_frame env (set_interrupted true pn) wn)
            as (_ & _ & _ & _ & _ & -> & _).
          exact Hc.
        * right. exists df. split; [exact Hcat|]. rewrite Hsplit.
          now apply sublist_inserts_r. }
  exists called. split; [exact Hcalls|].
  destruct Hsub as [->|(df & Hcat & Hsub)].
  - split; [constructor|]. intros n Hn. now apply elem_of_nil in Hn.
  - pose proof (GapFacts.missing_numbers_spec (Z.of_nat (length df)) (processed_reports p1))
      as [Hsorted Hin].
    split; [now apply (sublist_strongly_sorted _ _ _ Hsub)|].
    intros n Hn. pose proof (elem_of_sublist _ _ _ Hn Hsub) as Hm.
    split.
    + apply Hin in Hm as [Hm _]. unfold catalog_len. now rewrite Hcat.
    + rewrite <- Hp. now apply (missing_numbers_fresh (Z.of_nat (length df))).
Qed.

End BulletproofRun.


(** ** The bulletproof processor: where the rows come from *)

Section BulletproofRows.
Import Bulletproof BulletproofFacts.

Lemma iloc_position {S} rows k (s : S) row :
  iloc rows k s = Ok row s -> 0 <= k ->
  k < Z.of_nat (length rows) /\ rows !! Z.to_nat k = Some row.
Proof.
  unfold iloc, raise, ret. intros H Hk.
  destruct (Z.ltb_spec k 0) as [?|_]; [lia|].
  destruct (Z.ltb_spec k 0) as [?|_]; [lia|].
  destruct (Z.leb_spec (Z.of_nat (length rows)) k) as [?|Hlt]; [discriminate|].
  cbn [orb] in H. destruct (rows !! Z.to_nat k) as [r|]; [|discriminate].
  split; [exact Hlt|]. now inversion H.
Qed.

(** One iteration adds to the buffer at most one row, made from the
    catalog row of the report. *)
Lemma item_state_row env df i n s :
  1 <= n ->
  all_results (item_state env df i n s).1 ≡ₚ all_results s.1
  \/ exists r, from_catalog df r
               /\ all_results (item_state env df i n s).1 ≡ₚ (all_results s.1 ++ [r])%list.
Proof.
  intros Hn. destruct s as [p w].
  assert (exists st, st = item_state env df i n (p, w)) as [st Hst] by eauto.
  rewrite <- Hst. unfold item_state, process_item in Hst.
  unfold try_except at 1 in Hst. unfold bind at 1 in Hst. cbv beta in Hst.
  destruct (iloc_cases (S:=St) df (n - 1) (p, w)) as [[e He]|[row Hrow]].
  { rewrite He in Hst. subst st. now left. }
  rewrite Hrow in Hst. cbv beta in Hst.
  destruct (iloc_position df (n - 1) (p, w) row Hrow) as [Hlt Hlook]; [lia|].
  destruct (missing_essential_data row) eqn:Hmiss.
  { subst st. now left. }
  unfold bind at 1 in Hst. unfold api_call at 1 in Hst. cbv beta in Hst.
  cbn [fst snd] in Hst.
  destruct (call_gemini_api env (time w) (report_key n)) as [response|msg].
  2:{ subst st. now left. }
  unfold bind at 1, get at 1 in Hst. cbv beta in Hst. unfold bind at 1 in Hst.
  cbv beta in Hst.
  assert (forall s1 : St,
            match
              (s0 <~ get;
               if save_frequency s0.1 =? 0 then raise "integer modulo by zero"
               else if (Z.of_nat i + 1) mod save_frequency s0.1 =? 0
                    then save_all_progress env else ret ()) s1
            with
            | Ok a s' => Ok a s'
            | Raise e s' =>
                on_processor
                  (add_failure
                     (mkFailure (report_key n) ("Unexpected error: " +:+ e) (Some "Unknown")))
                  s'
            | Exit s' => Exit s'
            end = Ok tt (checkpoint env i n s1)) as Hcp.
  { intros s1. unfold checkpoint, bind, get, raise, ret, on_processor, modify.
    destruct (save_frequency s1.1 =? 0); [reflexivity|].
    destruct (_ mod _ =? 0); [|reflexivity].
    now rewrite save_all_progress_final. }
  destruct response as [[|c text]|];
    unfold on_processor at 1, modify at 1 in Hst; rewrite Hcp in Hst;
    cbn [final_state] in Hst;
    match type of Hst with
    | context [checkpoint env i n ?s1] =>
        destruct (checkpoint_results env i n s1) as (Hperm & _ & _)
    end; rewrite <- Hst in Hperm;
    cbn [fst snd all_results add_failure add_result] in Hperm; cbn [fst snd].
  - now left.
  - right. eexists. split; [|exact Hperm].
    exists n, row. cbn [report_id original_report_name original_description
                        original_sql_query raw_response].
    split_and!; try reflexivity; try assumption; try lia. discriminate.
  - now left.
Qed.

Lemma attempt_fs n s s1 cp : attempt n s s1 cp -> fs s1.2 = fs s.2.
Proof. destruct 1; reflexivity. Qed.

Lemma from_catalog_perm df (l l' : list ResultRecord) :
  l ≡ₚ l' -> Forall (from_catalog df) l' -> Forall (from_catalog df) l.
Proof.
  intros Hp H. apply Forall_forall. intros r Hr. rewrite Forall_forall in H.
  apply H. now rewrite <- Hp.
Qed.

Lemma save_all_progress_inv env df w0 s :
  rows_from_catalog_inv df w0 s ->
  rows_from_catalog_inv df w0 (final_state (save_all_progress env s)).
Proof.
  destruct s as [p w]. intros [Hb Hs]. cbn [fst snd] in *.
  destruct (save_all_progress_frame env p w) as (_ & _ & _ & _ & Hperm & _ & _).
  split; [now apply (from_catalog_perm df _ _ Hperm)|].
  destruct (save_all_progress_master env p w) as [Hm|(summary & Hm)].
  - now rewrite Hm.
  - right. eexists _, _, _. split; [exact Hm|].
    apply (from_catalog_perm df _ (all_results p)); [apply sort_by_perm | exact Hb].
Qed.

Lemma item_state_inv env df w0 i n s :
  1 <= n -> rows_from_catalog_inv df w0 s ->
  rows_from_catalog_inv df w0 (item_state env df i n s).
Proof.
  intros Hn [Hb Hs].
  assert (Forall (from_catalog df) (all_results (item_state env df i n s).1)) as Hb'.
  { destruct (item_state_row env df i n s Hn) as [Hp|(r & Hr & Hp)].
    - now apply (from_catalog_perm df _ _ Hp).
    - apply (from_catalog_perm df _ _ Hp). apply Forall_app. split; [exact Hb|].
      now constructor. }
  split; [exact Hb'|].
  destruct (item_state_cases env df i n s) as (s1 & cp & Ha & Heq).
  rewrite Heq in *. pose proof (attempt_fs _ _ _ _ Ha) as Hfs.
  destruct cp; [|now rewrite Hfs].
  destruct (checkpoint_results env i n s1) as (Hperm & _ & _).
  assert (Forall (from_catalog df) (all_results s1.1)) as Hb1.
  { apply (from_catalog_perm df _ _ (symmetry Hperm)). exact Hb'. }
  unfold checkpoint. destruct (_ =? 0); cbn [snd]; [now rewrite Hfs|].
  destruct (_ =? 0); [|now rewrite Hfs].
  apply (save_all_progress_inv env df w0 s1). split; [exact Hb1 | now rewrite Hfs].
Qed.

Lemma loop_state_inv env df w0 i items s :
  Forall (fun n => 1 <= n) items -> rows_from_catalog_inv df w0 s ->
  rows_from_catalog_inv df w0 (loop_state env df i items s).
Proof.
  revert i s. induction items as [|n items IH]; intros i s Hpos H; simpl; [exact H|].
  apply Forall_cons in Hpos as [Hn Hpos].
  apply IH; [exact Hpos|]. now apply item_state_inv.
Qed.

(** X8.  No row is attributed to the wrong report: when the rows loaded
    from the master file are made from the catalog rows of their numbers,
    so is every row of the buffer at the end of a run, and so is every row
    of the master file when the run has replaced it.  (A row made from the
    catalog has the id [Report_n] of a position [n] of the catalog, the
    name, description and query of that catalog row, which has a name and a
    query, and a response that is not empty.) *)
Theorem rows_come_from_catalog env w df :
  catalog env = CatalogRows df ->
  Forall (from_catalog df) (kept_rows w) ->
  Forall (from_catalog df) (all_results (run env w).1)
  /\ (fs (run env w).2 !! master_file = fs w !! master_file
      \/ exists rows summary failed,
           fs (run env w).2 !! master_file = Some (Workbook rows summary failed)
           /\ Forall (from_catalog df) rows).
Proof.
  intros Hcat Hkept.
  destruct (run_cases env w) as (p1 & _ & Ha & _ & _ & Hrun).
  assert (rows_from_catalog_inv df w (p1, w)) as H1.
  { split; cbn [fst snd]; [now rewrite Ha | now left]. }
  assert (forall items, items `sublist_of`
                          missing_numbers (Z.of_nat (length df)) (processed_reports p1) ->
                        rows_from_catalog_inv df w (loop_state env df 0 items (p1, w)))
    as Hloop.
  { intros items Hsub. apply loop_state_inv; [|exact H1].
    apply Forall_forall. intros n Hn.
    pose proof (elem_of_sublist _ _ _ Hn Hsub) as Hm.
    now apply GapFacts.missing_numbers_spec in Hm as [[? _] _]. }
  change (rows_from_catalog_inv df w (run env w)).
  destruct Hrun as [->|[[-> _]|(df' & Hcat' & _ & Hrun)]].
  - now apply save_all_progress_inv.
  - exact H1.
  - rewrite Hcat in Hcat'. injection Hcat' as <-. cbv zeta in Hrun.
    destruct Hrun as [->|(pre & x & post & Hsplit & _ & ->)].
    + now apply save_all_progress_inv, Hloop.
    + assert (rows_from_catalog_inv df w (loop_state env df 0 pre (p1, w))) as Hpre.
      { apply Hloop. rewrite Hsplit. now apply sublist_inserts_r. }
      destruct (loop_state env df 0 pre (p1, w)) as [pn wn].
      rewrite handle_interrupt_final. cbn [final_state].
      apply save_all_progress_inv. exact Hpre.
Qed.

Lemma rows_come_from_catalog_witness :
  Forall (from_catalog [a_row; a_bad_row; a_row])
    (all_results (run (calm [a_row; a_bad_row; a_row] None) empty_world).1)
  /\ (fs (run (calm [a_row; a_bad_row; a_row] None) empty_world).2 !! master_file
      = fs empty_world !! master_file
      \/ exists rows summary failed,
           fs (run (calm [a_row; a_bad_row; a_row] None) empty_world).2 !! master_file
           = Some (Workbook rows summary failed)
           /\ Forall (from_catalog [a_row; a_bad_row; a_row]) rows).
Proof.
  apply (rows_come_from_catalog (calm [a_row; a_bad_row; a_row] None) empty_world
           [a_row; a_bad_row; a_row]).
  - reflexivity.
  - constructor.
Defined.


End BulletproofRows.


(** ** The large batch processor: status, checkpoint and emergency save *)

Section BatchFiles.
Import LargeBatch LargeBatchFacts.

(** X9.  The batch processors stop on a master file that exists but
    cannot be parsed: [get_current_status] raises, nothing being caught,
    and so does [main] of the large batch script, before any external call
    and without touching a file. *)
Theorem status_raises_on_unreadable_store env p w :
  is_Some (fs w !! master_file) ->
  read_results master_file (fs w) = None ->
  get_current_status env w = Raise "cannot read the master file" w
  /\ SmallBatch.get_current_status env w = Raise "cannot read the master file" w
  /\ main env (start_run p w) = Raise "cannot read the master file" (start_run p w).
Proof.
  intros Hex Hread.
  assert (get_current_status env w = Raise "cannot read the master file" w) as Hs.
  { unfold get_current_status, exists_, bind, get, raise.
    rewrite bool_decide_eq_true_2 by exact Hex. now rewrite Hread. }
  split_and!; [exact Hs | exact Hs |].
  unfold main, bind, in_world. cbn [world start_run]. now rewrite Hs.
Qed.

Lemma status_raises_on_unreadable_store_witness :
  get_current_status (calm [a_row] None) corrupt_world
  = Raise "cannot read the master file" corrupt_world
  /\ SmallBatch.get_current_status (calm [a_row] None) corrupt_world
     = Raise "cannot read the master file" corrupt_world
  /\ main (calm [a_row] None) (start_run init corrupt_world)
     = Raise "cannot read the master file" (start_run init corrupt_world).
Proof.
  apply (status_raises_on_unreadable_store (calm [a_row] None) init corrupt_world).
  - vm_compute. eauto.
  - vm_compute. reflexivity.
Defined.

(** X10.  [emergency_save] always returns, whatever the fault, and writes
    under the backup directory only.  It returns [True] exactly when the
    writes succeed; the JSON backup then holds the results it was given
    and its time stamp, and the CSV and Excel copies are written when, and
    only when, there is at least one result. *)
Theorem emergency_save_outcome env results info w :
  let ts := now env (time w) in
  exists files',
    emergency_save env results info w
    = Ok (match backup_write (io_faults env (time w)) with
          | WriteOk => true
          | WriteRaises _ => false
          end)
         (mkWorld files' (api_calls w) (S (time w)))
    /\ (forall path, (forall ext, path <> backup_path ts ext) ->
                     files' !! path = fs w !! path)
    /\ (backup_write (io_faults env (time w)) = WriteOk ->
        files' !! backup_path ts ".json" = Some (EmergencyJson results ts)
        /\ files' !! backup_path ts ".csv"
           = match results with
             | [] => fs w !! backup_path ts ".csv"
             | _ :: _ => Some (EmergencyCsv results)
             end
        /\ files' !! backup_path ts ".xlsx"
           = match results with
             | [] => fs w !! backup_path ts ".xlsx"
             | _ :: _ => Some (EmergencyXlsx results)
             end).
Proof.
  cbv zeta.
  assert (backup_path (now env (time w)) ".json" <> backup_path (now env (time w)) ".csv")
    as D1 by (intros H; apply backup_path_inj in H; discriminate).
  assert (backup_path (now env (time w)) ".json" <> backup_path (now env (time w)) ".xlsx")
    as D2 by (intros H; apply backup_path_inj in H; discriminate).
  assert (backup_path (now env (time w)) ".csv" <> backup_path (now env (time w)) ".xlsx")
    as D3 by (intros H; apply backup_path_inj in H; discriminate).
  unfold emergency_save. mred.
  destruct (backup_write (io_faults env (time w))) as [|[junk|]]; mred;
    destruct results as [|r rs]; mred;
    eexists; (split; [reflexivity|]); (split;
      [intros path Hpath;
       rewrite ?lookup_insert_ne by (apply not_eq_sym, Hpath); reflexivity|]);
    try discriminate; intros _.
  - split_and!.
    + apply lookup_insert_eq.
    + now rewrite lookup_insert_ne.
    + now rewrite lookup_insert_ne.
  - split_and!.
    + rewrite lookup_insert_ne by (now apply not_eq_sym).
      rewrite lookup_insert_ne by (now apply not_eq_sym). apply lookup_insert_eq.
    + rewrite lookup_insert_ne by (now apply not_eq_sym). apply lookup_insert_eq.
    + apply lookup_insert_eq.
Qed.

Lemma emergency_save_outcome_witness :
  exists files',
    emergency_save (calm [a_row] None) [result_for 1 "first"] (mkBatchInfo 1 1 1 "t")
      empty_world
    = Ok true (mkWorld files' [] 1)
    /\ files' !! backup_path "0" ".json" = Some (EmergencyJson [result_for 1 "first"] "0")
    /\ files' !! master_file = None.
Proof.
  destruct (emergency_save_outcome (calm [a_row] None) [result_for 1 "first"]
              (mkBatchInfo 1 1 1 "t") empty_world) as (files' & H & Hframe & Hok).
  exists files'. split_and!.
  - exact H.
  - exact (proj1 (Hok eq_refl)).
  - rewrite Hframe; [reflexivity|].
    intros ext Heq. symmetry in Heq. now apply backup_not_master in Heq.
Defined.

(** What a checkpoint returns and leaves in the files. *)
Lemma save_checkpoint_full env rows num info w :
  exists files',
    save_checkpoint env rows num info w
    = Ok (flush_commits env w && state_phase_ok (io_faults env (time w)))
         (mkWorld files' (api_calls w) (S (time w)))
    /\ files' !! master_file
       = (if flush_commits env w
          then Some (Workbook rows
                       (mkSummary (catalog_len env) (Z.of_nat (length rows)) 0
                          (now env (time w)) (Some num)) [])
          else fs w !! master_file)
    /\ files' !! state_file
       = (if flush_commits env w && state_phase_ok (io_faults env (time w))
          then Some (StateJson (keys rows) [] (now env (time w))
                       (Some (Z.of_nat (length rows))))
          else fs w !! state_file)
    /\ (forall path, path <> master_file -> path <> temp_file -> path <> state_file ->
                     path <> state_temp -> files' !! path = fs w !! path).
Proof.
  pose proof batch_paths_distinct as D.
  unfold save_checkpoint, flush_commits, write_phase_ok, state_phase_ok, catalog_len, keys.
  mred.
  revert D. generalize temp_file, state_temp, master_file, state_file.
  intros T ST MF SF (D1 & D2 & D3 & D4 & D5 & D6).
  destruct (catalog env) as [| |df]; mred.
  1,2: eexists; split; [reflexivity|]; split_and!; intros; by simplify_map_eq.
  destruct (Z.of_nat (length df) =? 0); mred.
  1: eexists; split; [reflexivity|]; split_and!; intros; by simplify_map_eq.
  destruct (io_faults env (time w)) as [mw mr sw sr bw]; mred.
  destruct mw as [|[junk|]]; mred.
  2,3: eexists; split; [reflexivity|]; split_and!; intros; by simplify_map_eq.
  destruct mr; mred.
  1: eexists; split; [reflexivity|]; split_and!; intros; by simplify_map_eq.
  rewrite lookup_insert_eq. mred.
  destruct sw as [|[junk|]]; mred.
  2,3: eexists; split; [reflexivity|]; split_and!; intros; by simplify_map_eq.
  destruct sr; mred.
  1: eexists; split; [reflexivity|]; split_and!; intros; by simplify_map_eq.
  rewrite lookup_insert_eq. mred.
  eexists; split; [reflexivity|]; split_and!; intros; by simplify_map_eq.
Qed.

(** X11.  [save_checkpoint] always returns.  The master file is replaced
    by the rows given as soon as the temporary file is written and
    renamed, whatever happens to the state file afterwards; the result is
    [True] only when the state file is written and renamed too, so that
    [False] does not mean that the master file is as it was.  The state
    file it writes lists the ids of the rows and an empty list of
    failures. *)
Theorem save_checkpoint_outcome env rows num info w :
  exists files',
    save_checkpoint env rows num info w
    = Ok (flush_commits env w && state_phase_ok (io_faults env (time w)))
         (mkWorld files' (api_calls w) (S (time w)))
    /\ files' !! master_file
       = (if flush_commits env w
          then Some (Workbook rows
                       (mkSummary (catalog_len env) (Z.of_nat (length rows)) 0
                          (now env (time w)) (Some num)) [])
          else fs w !! master_file)
    /\ files' !! state_file
       = (if flush_commits env w && state_phase_ok (io_faults env (time w))
          then Some (StateJson (keys rows) [] (now env (time w))
                       (Some (Z.of_nat (length rows))))
          else fs w !! state_file)
    /\ (forall path, path <> master_file -> path <> temp_file -> path <> state_file ->
                     path <> state_temp -> files' !! path = fs w !! path).
Proof. apply save_checkpoint_full. Qed.

(** X13.  The two processors share their files: after a checkpoint of
    the large batch processor that wrote the master file and the state
    file, [load_existing_work] of the bulletproof processor takes every
    row of the checkpoint into its buffer, a row without an id included,
    and finds no failure, whatever failures the state file listed
    before. *)
Theorem checkpoint_then_resume env rows num info w :
  flush_commits env w = true ->
  state_phase_ok (io_faults env (time w)) = true ->
  let w' := final_state (save_checkpoint env rows num info w) in
  exists p1,
    Bulletproof.load_existing_work (Bulletproof.init, w') = Ok tt (p1, w')
    /\ Bulletproof.all_results p1 = rows
    /\ (forall k, k ∈ Bulletproof.processed_reports p1 <-> k ∈ keys rows)
    /\ Bulletproof.failed_reports p1 = [].
Proof.
  intros Hc Hs. cbv zeta.
  destruct (save_checkpoint_full env rows num info w) as (files' & Hsave & Hm & Hst & _).
  rewrite Hc, Hs in *. cbn [andb] in *. rewrite Hsave. cbn [final_state].
  destruct (load_existing_work_full (mkWorld files' (api_calls w) (S (time w))))
    as (p1 & Hload & Ha & Hp & Hf).
  assert (kept_rows (mkWorld files' (api_calls w) (S (time w))) = rows) as Hk.
  { unfold kept_rows, store_rows, read_results. cbn [fs].
    change Bulletproof.master_file with master_file. now rewrite Hm. }
  exists p1. split_and!.
  - exact Hload.
  - now rewrite Ha.
  - intros k. now rewrite Hp, Hk.
  - rewrite Hf. unfold state_failures. cbn [fs].
    change Bulletproof.state_file with state_file. now rewrite Hst.
Qed.

Lemma checkpoint_then_resume_witness :
  let w := mkWorld {[ state_file :=
                        StateJson [] [mkFailure "Report_2" "API call failed" None] "t" None ]}
                   [] 0 in
  let rows := [result_for 1 "first"; mkResult "" "Orders" "" "select 2" "text" "t"] in
  let w' := final_state (save_checkpoint (calm [a_row; a_row] None)
                           rows 1 (mkBatchInfo 1 1 1 "t") w) in
  exists p1,
    Bulletproof.load_existing_work (Bulletproof.init, w') = Ok tt (p1, w')
    /\ Bulletproof.all_results p1 = rows
    /\ (forall k, k ∈ Bulletproof.processed_reports p1 <-> k ∈ keys rows)
    /\ Bulletproof.failed_reports p1 = [].
Proof.
  cbv zeta.
  apply (checkpoint_then_resume (calm [a_row; a_row] None)
           [result_for 1 "first"; mkResult "" "Orders" "" "select 2" "text" "t"] 1
           (mkBatchInfo 1 1 1 "t")); reflexivity.
Defined.

End BatchFiles.


(** ** The large batch processor: what a crash can lose *)

Section BatchStaleness.
Import LargeBatch LargeBatchFacts.

Variable env : Env.
Hypothesis flushes_commit : forall w, flush_commits env w = true.

(** The checkpoint test of the loop, when every flush commits. *)
Lemma checkpoint_commits info id st :
  0 < checkpoint_frequency (self st) ->
  exists s',
    try_except
      (s0 <~ get;
       let n := Z.of_nat (length (new_results s0)) in
       let K := checkpoint_frequency (self s0) in
       if 0 <? n then
         if K =? 0 then raise "integer modulo by zero"
         else if n mod K =? 0 then
           _ <~ modify next_checkpoint;
           s1 <~ get;
           saved <~ in_world (save_checkpoint env
                      (all_existing_results s1 ++ new_results s1) (checkpoint_count s1) info);
           if saved then ret tt
           else _ <~ in_world (emergency_save env (new_results s1) info); ret tt
         else ret tt
       else ret tt)
      (fun e =>
         _ <~ modify (add_failure (mkFailure id e None));
         s1 <~ get;
         _ <~ in_world (emergency_save env (new_results s1) info);
         ret tt) st = Ok tt s'
    /\ self s' = self st /\ all_existing_results s' = all_existing_results st
    /\ new_results s' = new_results st
    /\ (if (0 <? Z.of_nat (length (new_results st)))
           && (Z.of_nat (length (new_results st)) mod checkpoint_frequency (self st) =? 0)
        then exists summary,
               fs (world s') !! master_file = Some (Workbook (batch_rows st) summary [])
        else fs (world s') !! master_file = fs (world st) !! master_file).
Proof.
  intros HK. unfold try_except. unfold bind at 1, get at 1. cbv beta zeta.
  destruct (0 <? _); cbn [andb];
    [|unfold ret; eexists; split; [reflexivity|]; now split_and!].
  destruct (Z.eqb_spec (checkpoint_frequency (self st)) 0) as [?|_]; [lia|].
  destruct (_ mod _ =? 0); [|unfold ret; eexists; split; [reflexivity|]; now split_and!].
  unfold bind at 1, modify at 1. unfold bind at 1, get at 1. unfold bind at 1.
  destruct (save_checkpoint_spec env
              (all_existing_results (next_checkpoint st) ++ new_results (next_checkpoint st))
              (checkpoint_count (next_checkpoint st)) info (world (next_checkpoint st)))
    as (files' & saved & Hsave & _ & Hm).
  rewrite flushes_commit in Hm.
  rewrite (in_world_ok _ _ _ _ Hsave).
  destruct saved.
  - unfold ret. eexists. split; [reflexivity|].
    cbn [world with_world fs next_checkpoint self all_existing_results new_results] in *.
    split_and!; try reflexivity. eexists. exact Hm.
  - destruct (backup_effect env info
                (with_world (next_checkpoint st)
                   (mkWorld files' (api_calls (world st)) (S (time (world st))))))
      as (s' & Hb & H1 & H2 & H3 & H4 & H5).
    cbn [new_results with_world next_checkpoint world self all_existing_results failed
         checkpoint_count fs] in *.
    rewrite Hb. exists s'. split; [reflexivity|]. split_and!; try assumption.
    rewrite H5. eexists. exact Hm.
Qed.

(** One iteration, when every flush commits: the new results are as they
    were or longer by one row; the master file holds all rows of the run
    when their number has reached a multiple of the frequency at the
    checkpoint test, and is as it was otherwise. *)
Lemma batch_item_commits df info n s :
  0 < checkpoint_frequency (self s) ->
  let s' := batch_item_state env df info n s in
  self s' = self s /\ all_existing_results s' = all_existing_results s
  /\ ((new_results s' = new_results s
       /\ (fs (world s') !! master_file = fs (world s) !! master_file
           \/ (0 < Z.of_nat (length (new_results s))
               /\ Z.of_nat (length (new_results s)) mod checkpoint_frequency (self s) = 0
               /\ exists summary,
                    fs (world s') !! master_file
                    = Some (Workbook (batch_rows s') summary []))))
      \/ (exists r,
            new_results s' = (new_results s ++ [r])%list
            /\ if Z.of_nat (length (new_results s')) mod checkpoint_frequency (self s) =? 0
               then exists summary,
                      fs (world s') !! master_file
                      = Some (Workbook (batch_rows s') summary [])
               else fs (world s') !! master_file = fs (world s) !! master_file)).
Proof.
  intros HK. cbv zeta.
  assert (exists s', s' = batch_item_state env df info n s) as [s' Hs'] by eauto.
  rewrite <- Hs'. unfold batch_item_state, process_item in Hs'.
  unfold try_except at 1 in Hs'. unfold bind at 1 in Hs'. cbv beta in Hs'.
  destruct (BulletproofFacts.iloc_cases (S:=Run) df (n - 1) s) as [[e He]|[row Hrow]].
  { rewrite He in Hs'. unfold bind at 1, modify at 1 in Hs'.
    unfold bind at 1, get at 1 in Hs'.
    destruct (backup_effect env info (add_failure (mkFailure (report_key n) e None) s))
      as (s1 & Hb & H1 & H2 & H3 & H4 & H5).
    rewrite Hb in Hs'. cbn [final_state] in Hs'. subst s'.
    split_and!; [exact H1 | exact H2 |]. left. split; [exact H3 | now left]. }
  rewrite Hrow in Hs'. cbv beta in Hs'. destruct (missing_essential_data row).
  { unfold modify in Hs'. cbn [final_state] in Hs'. subst s'.
    split_and!; try reflexivity. left. split; [reflexivity | now left]. }
  unfold bind at 1 in Hs'. unfold api_call at 1 in Hs'. cbv beta zeta in Hs'.
  set (sc := mkRun (self s) (all_existing_results s) (new_results s) (failed s)
                   (checkpoint_count s)
                   (mkWorld (fs (world s)) (report_key n :: api_calls (world s))
                            (S (time (world s))))) in *.
  destruct (call_gemini_api env (time (world s)) (report_key n)) as [response|msg].
  2:{ unfold bind at 1, modify at 1 in Hs'. unfold bind at 1, get at 1 in Hs'.
      destruct (backup_effect env info (add_failure (mkFailure (report_key n) msg None) sc))
        as (s1 & Hb & H1 & H2 & H3 & H4 & H5).
      rewrite Hb in Hs'. cbn [final_state] in Hs'. subst s' sc.
      cbn [self all_existing_results new_results world add_failure api_calls fs] in *.
      split_and!; [exact H1 | exact H2 |]. left. split; [exact H3 | now left]. }
  unfold bind at 1, get at 1 in Hs'. cbv beta in Hs'. unfold bind at 1 in Hs'.
  assert (forall st,
            self st = self s -> all_existing_results st = all_existing_results s ->
            fs (world st) = fs (world s) ->
            exists s1,
              match
                (s0 <~ get;
                 let n0 := Z.of_nat (length (new_results s0)) in
                 let K := checkpoint_frequency (self s0) in
                 if 0 <? n0 then
                   if K =? 0 then raise "integer modulo by zero"
                   else if n0 mod K =? 0 then
                     _ <~ modify next_checkpoint;
                     s1 <~ get;
                     saved <~ in_world (save_checkpoint env
                                (all_existing_results s1 ++ new_results s1)
                                (checkpoint_count s1) info);
                     if saved then ret tt
                     else _ <~ in_world (emergency_save env (new_results s1) info); ret tt
                   else ret tt
                 else ret tt) st
              with
              | Ok a s' => Ok a s'
              | Raise e s' =>
                  (_ <~ modify (add_failure (mkFailure (report_key n) e None));
                   s1 <~ get;
                   _ <~ in_world (emergency_save env (new_results s1) info);
                   ret tt) s'
              | Exit s' => Exit s'
              end = Ok tt s1
              /\ self s1 = self s /\ all_existing_results s1 = all_existing_results s
              /\ new_results s1 = new_results st
              /\ (if (0 <? Z.of_nat (length (new_results st)))
                     && (Z.of_nat (length (new_results st))
                           mod checkpoint_frequency (self s) =? 0)
                  then exists summary,
                         fs (world s1) !! master_file
                         = Some (Workbook (batch_rows s1) summary [])
                  else fs (world s1) !! master_file = fs (world s) !! master_file))
    as Htail.
  { intros st Hs He Hw.
    destruct (checkpoint_commits info (report_key n) st)
      as (s1 & Hcp & H1 & H2 & H3 & H4); [now rewrite Hs|].
    exists s1. split; [exact Hcp|]. rewrite H1, H2, H3, Hs, He in *.
    split_and!; try reflexivity.
    destruct (_ && _).
    - destruct H4 as [summary H4]. exists summary. rewrite H4.
      unfold batch_rows. now rewrite H2, H3, He.
    - now rewrite H4, Hw. }
  destruct response as [[|c text]|]; unfold modify at 1 in Hs';
    match type of Hs' with
    | context [match _ ?st with _ => _ end] =>
        destruct (Htail st) as (s1 & Hcp & H1 & H2 & H3 & H4);
          [reflexivity | reflexivity | reflexivity |]
    end;
    assert (s' = final_state (Ok (S:=Run) tt s1)) as Hfin
      by (rewrite <- Hcp; exact Hs');
    clear Hs' Hcp; cbn [final_state] in Hfin; subst s';
    subst sc; cbn [new_results add_failure add_result] in *;
    (split_and!; [exact H1 | exact H2 |]).
  - left. split; [exact H3|].
    destruct (Z.ltb_spec 0 (Z.of_nat (length (new_results s)))) as [Hpos|_];
      cbn [andb] in H4; [|now left].
    destruct (Z.eqb_spec (Z.of_nat (length (new_results s)) mod checkpoint_frequency (self s)) 0)
      as [Hmod|_]; [|now left].
    right. now split_and!.
  - right. eexists. split; [exact H3|]. rewrite H3.
    match type of H4 with
    | context [0 <? ?x] =>
        assert ((0 <? x) = true) as Hpos
          by (apply Z.ltb_lt; rewrite length_app; simpl; lia)
    end.
    rewrite Hpos in H4. cbn [andb] in H4. exact H4.
  - left. split; [exact H3|].
    destruct (Z.ltb_spec 0 (Z.of_nat (length (new_results s)))) as [Hpos|_];
      cbn [andb] in H4; [|now left].
    destruct (Z.eqb_spec (Z.of_nat (length (new_results s)) mod checkpoint_frequency (self s)) 0)
      as [Hmod|_]; [|now left].
    right. now split_and!.
Qed.


Lemma covered_le s :
  0 < checkpoint_frequency (self s) -> (covered s <= length (new_results s))%nat.
Proof.
  intros HK. unfold covered. cbv zeta.
  pose proof (Z.mul_div_le (Z.of_nat (length (new_results s))) _ HK). lia.
Qed.

Lemma covered_rest s :
  0 < checkpoint_frequency (self s) ->
  Z.of_nat (length (new_results s) - covered s)
  = Z.of_nat (length (new_results s)) mod checkpoint_frequency (self s).
Proof.
  intros HK. pose proof (covered_le s HK) as Hle. unfold covered in *. cbv zeta in *.
  pose proof (Z.div_mod (Z.of_nat (length (new_results s))) (checkpoint_frequency (self s))).
  pose proof (Z.div_pos (Z.of_nat (length (new_results s))) (checkpoint_frequency (self s))).
  nia.
Qed.

Lemma covered_all s :
  0 < checkpoint_frequency (self s) ->
  Z.of_nat (length (new_results s)) mod checkpoint_frequency (self s) = 0 ->
  covered s = length (new_results s).
Proof.
  intros HK Hmod. pose proof (covered_rest s HK) as Hr. pose proof (covered_le s HK). lia.
Qed.

Lemma covered_same s s' r :
  0 < checkpoint_frequency (self s) ->
  self s' = self s -> new_results s' = (new_results s ++ [r])%list ->
  Z.of_nat (length (new_results s')) mod checkpoint_frequency (self s) <> 0 ->
  covered s' = covered s.
Proof.
  intros HK Hself Hnew Hmod. unfold covered. cbv zeta. rewrite Hself, Hnew in *.
  rewrite length_app in *. cbn [length] in *.
  set (K := checkpoint_frequency (self s)) in *.
  set (n := Z.of_nat (length (new_results s))) in *.
  replace (Z.of_nat (length (new_results s) + 1)) with (n + 1) in * by (subst n; lia).
  f_equal. f_equal.
  pose proof (Z.div_mod n K) as H1. pose proof (Z.mod_pos_bound n K HK) as H2.
  pose proof (Z.div_mod (n + 1) K) as H3. pose proof (Z.mod_pos_bound (n + 1) K HK) as H4.
  symmetry. apply (Z.div_unique_pos (n + 1) K (n / K) (n mod K + 1)); [|lia].
  split; [lia|].
  destruct (Z.eq_dec (n mod K + 1) K) as [Heq|?]; [|lia].
  exfalso. apply Hmod.
  replace (n + 1) with (K * (n / K) + K) by lia.
  replace (K * (n / K) + K) with ((n / K + 1) * K) by lia.
  apply Z_mod_mult.
Qed.

Lemma covered_item df info n s :
  0 < checkpoint_frequency (self s) ->
  covered_in_store s -> covered_in_store (batch_item_state env df info n s).
Proof.
  intros HK Hinv.
  destruct (batch_item_commits df info n s HK) as (Hself & Hex & Hcases).
  set (s' := batch_item_state env df info n s) in *.
  assert (0 < checkpoint_frequency (self s')) as HK' by now rewrite Hself.
  unfold covered_in_store. intros Hcov.
  destruct Hcases as [[Hnew [Hm|(Hpos & Hmod & summary & Hm)]]|(r & Hnew & Hm)].
  - assert (covered s' = covered s) as Hc by (unfold covered; now rewrite Hself, Hnew).
    rewrite Hc in *. destruct (Hinv Hcov) as [summary Hs].
    exists summary. now rewrite Hm, Hex, Hnew.
  - exists summary. rewrite Hm. unfold batch_rows.
    rewrite (covered_all s') by (rewrite ?Hself, ?Hnew; assumption).
    now rewrite firstn_all.
  - destruct (Z.eqb_spec (Z.of_nat (length (new_results s')) mod checkpoint_frequency (self s)) 0)
      as [Hmod|Hmod].
    + destruct Hm as [summary Hm]. exists summary. rewrite Hm. unfold batch_rows.
      rewrite (covered_all s') by (rewrite ?Hself; assumption).
      now rewrite firstn_all.
    + pose proof (covered_same s s' r HK Hself Hnew Hmod) as Hc.
      rewrite Hc in *. destruct (Hinv Hcov) as [summary Hs].
      exists summary. rewrite Hm, Hex, Hnew, Hs.
      rewrite take_app_le by now apply covered_le. reflexivity.
Qed.

Lemma covered_loop df info items s :
  0 < checkpoint_frequency (self s) ->
  covered_in_store s -> covered_in_store (batch_loop_state env df info items s).
Proof.
  revert s. induction items as [|n items IH]; intros s HK Hinv; simpl; [exact Hinv|].
  apply IH; [|now apply covered_item].
  destruct (batch_item_commits df info n s HK) as (-> & _). exact HK.
Qed.


(** X12.  The large batch processor tests its checkpoint on the number
    of new results, so a skipped or failed report does not shift it: when
    every flush commits, after any number of iterations of the loop fewer
    than [checkpoint_frequency] new results are missing from the master
    file.  The new results split into those the checkpoints have covered
    and the rest; the rest is shorter than the frequency, and the master
    file holds the rows the run started from followed by the covered
    ones. *)
Theorem batch_bounded_staleness df info items s :
  0 < checkpoint_frequency (self s) ->
  new_results s = [] ->
  let s' := batch_loop_state env df info items s in
  let saved := take (covered s') (new_results s') in
  let unsaved := drop (covered s') (new_results s') in
  new_results s' = (saved ++ unsaved)%list
  /\ Z.of_nat (length unsaved) < checkpoint_frequency (self s)
  /\ (saved = []
      \/ exists summary,
           fs (world s') !! master_file
           = Some (Workbook (all_existing_results s ++ saved) summary [])).
Proof.
  intros HK Hnew. cbv zeta.
  destruct (batch_loop_frame env df info items s) as [Hself Hex].
  assert (covered_in_store (batch_loop_state env df info items s)) as Hinv.
  { apply covered_loop; [exact HK|]. unfold covered_in_store, covered.
    rewrite Hnew. cbn [length]. rewrite Z.div_0_l by lia. rewrite Z.mul_0_r.
    intros H. now contradiction H. }
  set (s' := batch_loop_state env df info items s) in *.
  assert (0 < checkpoint_frequency (self s')) as HK' by now rewrite Hself.
  split_and!.
  - now rewrite take_drop.
  - rewrite length_drop, (covered_rest s' HK'), Hself.
    now apply Z.mod_pos_bound.
  - destruct (covered s') as [|c] eqn:Hc; [now left|].
    right. rewrite <- Hc, <- Hex. apply Hinv. now rewrite Hc.
Qed.


End BatchStaleness.


Lemma batch_bounded_staleness_witness :
  let s' := batch_loop_state (calm (replicate 20 a_row) None) (replicate 20 a_row)
              (LargeBatch.mkBatchInfo 1 12 12 "t") (Py.range_incl 1 12)
              (LargeBatch.start_run LargeBatch.init empty_world) in
  let saved := take (covered s') (LargeBatch.new_results s') in
  let unsaved := drop (covered s') (LargeBatch.new_results s') in
  LargeBatch.new_results s' = (saved ++ unsaved)%list
  /\ Z.of_nat (length unsaved) < 10
  /\ (saved = []
      \/ exists summary,
           fs (LargeBatch.world s') !! LargeBatch.master_file
           = Some (Workbook ([] ++ saved) summary [])).
Proof.
  apply (batch_bounded_staleness (calm (replicate 20 a_row) None) (fun w => eq_refl)
           (replicate 20 a_row) (LargeBatch.mkBatchInfo 1 12 12 "t") (Py.range_incl 1 12)
           (LargeBatch.start_run LargeBatch.init empty_world)).
  - reflexivity.
  - reflexivity.
Defined.


(** ** The large batch processor: the verdict of a batch *)

Section BatchVerdict.
Import LargeBatch LargeBatchFacts.

(** X14.  When [process_large_batch] returns [True], the master file
    holds exactly the rows it held before the batch followed by the new
    results of the batch: the verification, which compares the numbers of
    rows only, is passed by no other outcome. *)
Theorem large_batch_verdict env batch p w s' :
  interrupted p = false ->
  process_large_batch env batch (start_run p w) = Ok true s' ->
  all_existing_results s' = baseline_rows w
  /\ exists summary,
       fs (world s') !! master_file
       = Some (Workbook (baseline_rows w ++ new_results s') summary []).
Proof.
  intros Hflag H. unfold process_large_batch in H.
  destruct batch as [|first rest]; [discriminate|].
  destruct (last_cons_some first rest) as [last_ Hl]. rewrite Hl in H.
  unfold bind at 1, get at 1 in H. cbv beta zeta in H. unfold bind at 1 in H.
  cbn [world start_run] in H.
  set (info := mkBatchInfo _ _ _ _) in H.
  assert (forall st : Run,
            (if exists_ master_file (fs w)
             then match read_results master_file (fs w) with
                  | Some df0 => ret df0
                  | None => raise "cannot read the master file"
                  end
             else ret []) st = Ok (baseline_rows w) st
            \/ (if exists_ master_file (fs w)
                then match read_results master_file (fs w) with
                     | Some df0 => ret df0
                     | None => raise "cannot read the master file"
                     end
                else ret []) st = Raise "cannot read the master file" st) as Hbase.
  { intros st. unfold baseline_rows, store_rows, ret, raise.
    destruct (exists_ master_file (fs w)) eqn:Hex.
    - destruct (read_results master_file (fs w)); [now left | now right].
    - left. unfold exists_, read_results in *.
      destruct (fs w !! master_file); [|reflexivity].
      now rewrite bool_decide_eq_true_2 in Hex by eauto. }
  match type of H with
  | context [match _ ?st with _ => _ end] => destruct (Hbase st) as [Hb|Hb]; rewrite Hb in H
  end; [|discriminate]. clear Hbase Hb.
  unfold bind at 1, modify at 1 in H.
  destruct (catalog env) as [| |df]; [discriminate | discriminate |].
  destruct (setup_gemini_api env); cbn [negb] in H; [|discriminate].
  match type of H with
  | context [set_existing (baseline_rows w) ?st] => change st with (start_run p w) in H
  end.
  set (s0 := set_existing (baseline_rows w) (start_run p w)) in H.
  unfold bind at 1 in H.
  destruct (batch_loop_cases env df info (first :: rest) s0 Hflag)
    as [Hloop|(pre & x & post & s1 & _ & _ & Hloop & _)]; rewrite Hloop in H;
    [|discriminate].
  destruct (batch_loop_frame env df info (first :: rest) s0) as [_ Hex].
  set (sL := batch_loop_state env df info (first :: rest) s0) in *.
  unfold bind at 1, get at 1 in H. unfold bind at 1 in H.
  destruct (save_checkpoint_spec env (all_existing_results sL ++ new_results sL)
              (checkpoint_count sL + 1) info (world sL))
    as (files' & saved & Hsave & Hcommit & Hm).
  rewrite (in_world_ok _ _ _ _ Hsave) in H.
  destruct saved.
  - rewrite (Hcommit eq_refl) in Hm.
    unfold bind at 1, get at 1 in H. unfold read_results in H.
    cbn [world with_world fs] in H. rewrite Hm in H. unfold ret in H.
    injection H as _ <-. cbn [world with_world fs all_existing_results new_results].
    assert (all_existing_results sL = baseline_rows w) as Hex' by exact Hex.
    rewrite Hex' in Hm |- *.
    split; [reflexivity|]. eexists. exact Hm.
  - unfold bind at 1 in H.
    destruct (in_world (emergency_save env (new_results sL) info) _); discriminate.
Qed.

End BatchVerdict.

Lemma large_batch_verdict_witness :
  let s' := final_state
              (LargeBatch.process_large_batch (calm [a_row; a_row; a_row] None) [3]
                 (LargeBatch.start_run LargeBatch.init complete_world)) in
  LargeBatch.all_existing_results s' = baseline_rows complete_world
  /\ exists summary,
       fs (LargeBatch.world s') !! LargeBatch.master_file
       = Some (Workbook (baseline_rows complete_world ++ LargeBatch.new_results s')
                 summary []).
Proof.
  cbv zeta.
  apply (large_batch_verdict (calm [a_row; a_row; a_row] None) [3] LargeBatch.init
           complete_world).
  - reflexivity.
  - vm_compute. reflexivity.
Defined.


(** ** The recovery script: loading *)

Section RecoveryLoading.
Import Recovery RecoveryFacts.

Lemma load_row_agree p row : ids_agree p -> ids_agree (load_row p row).
Proof.
  unfold ids_agree, load_row. intros H k. cbn [processed_reports all_results].
  rewrite BulletproofFacts.keys_app, elem_of_union, elem_of_singleton, elem_of_app, H.
  unfold keys. simpl. rewrite list_elem_of_singleton. tauto.
Qed.

Lemma recover_row_agree p row : ids_agree p -> ids_agree (recover_row p row).
Proof.
  unfold ids_agree, recover_row. intros H k.
  destruct (bool_decide _); [apply H|]. cbn [processed_reports all_results].
  rewrite BulletproofFacts.keys_app, elem_of_union, elem_of_singleton, elem_of_app, H.
  unfold keys. simpl. rewrite list_elem_of_singleton. tauto.
Qed.

Lemma recover_row_nodup p row :
  ids_agree p -> NoDup (keys (all_results p)) -> NoDup (keys (all_results (recover_row p row))).
Proof.
  unfold recover_row. intros Hag Hnd.
  destruct (bool_decide_reflect (report_id row ∈ processed_reports p)) as [Hin|Hin];
    [exact Hnd|].
  cbn [all_results]. rewrite BulletproofFacts.keys_app. apply NoDup_app. split_and!.
  - exact Hnd.
  - intros k Hk Hk'. unfold keys in Hk'. simpl in Hk'.
    apply list_elem_of_singleton in Hk'. subst k. apply Hin, Hag, Hk.
  - unfold keys. simpl. apply NoDup_singleton.
Qed.

Lemma recover_row_grows p row k :
  k ∈ processed_reports p -> k ∈ processed_reports (recover_row p row).
Proof.
  unfold recover_row. intros H. destruct (bool_decide _); [exact H|].
  cbn [processed_reports]. apply elem_of_union. now right.
Qed.

Lemma recover_row_covers p row :
  report_id row ∈ processed_reports (recover_row p row).
Proof.
  unfold recover_row.
  destruct (bool_decide_reflect (report_id row ∈ processed_reports p)) as [Hin|Hin];
    [exact Hin|].
  cbn [processed_reports]. apply elem_of_union. left. now apply elem_of_singleton.
Qed.

(** The rows of one progress file, merged into the buffer. *)
Lemma foldl_recover_row rows p :
  let p' := foldl recover_row p rows in
  (ids_agree p -> ids_agree p')
  /\ (ids_agree p -> NoDup (keys (all_results p)) -> NoDup (keys (all_results p')))
  /\ (forall k, k ∈ processed_reports p -> k ∈ processed_reports p')
  /\ (forall r, r ∈ rows -> report_id r ∈ processed_reports p')
  /\ failed_reports p' = failed_reports p.
Proof.
  revert p. induction rows as [|row rows IH]; intros p; cbn [foldl].
  - split_and!; auto. intros r Hr. now apply elem_of_nil in Hr.
  - destruct (IH (recover_row p row)) as (H1 & H2 & H4 & H5 & H6).
    split_and!.
    + intros Hag. now apply H1, recover_row_agree.
    + intros Hag Hnd. apply H2; [now apply recover_row_agree | now apply recover_row_nodup].
    + intros k Hk. now apply H4, recover_row_grows.
    + intros r Hr. apply elem_of_cons in Hr as [->|Hr]; [|now apply H5].
      apply H4, recover_row_covers.
    + rewrite H6. unfold recover_row. now destruct (bool_decide _).
Qed.

(** The rows of the master file, loaded into a fresh buffer. *)
Lemma foldl_load_row_init rows :
  let p' := foldl load_row init rows in
  all_results p' = rows
  /\ ids_agree p'
  /\ failed_reports p' = [].
Proof.
  assert (forall p,
            all_results (foldl load_row p rows) = (all_results p ++ rows)%list
            /\ (ids_agree p -> ids_agree (foldl load_row p rows))
            /\ failed_reports (foldl load_row p rows) = failed_reports p) as H.
  { induction rows as [|row rows IH]; intros p; cbn [foldl].
    - rewrite app_nil_r. now split_and!.
    - destruct (IH (load_row p row)) as (H1 & H2 & H3). split_and!.
      + rewrite H1. unfold load_row. cbn [all_results]. now rewrite <- app_assoc.
      + intros Hag. now apply H2, load_row_agree.
      + rewrite H3. reflexivity. }
  destruct (H init) as (H1 & H2 & H3). split_and!; [exact H1 | | exact H3].
  apply H2. intros k. cbn. rewrite elem_of_empty, elem_of_nil. tauto.
Qed.

(** The three steps of [load_existing_work], as functions of the
    buffer. *)
Lemma load_master_results_eq w :
  load_master_results (init, w)
  = Ok tt (match read_results master_results_file (fs w) with
           | Some rows => foldl load_row init rows
           | None => init
           end, w).
Proof.
  unfold load_master_results, bind, get, try_except, raise, ret, on_processor, modify.
  cbn [fst snd]. unfold exists_, read_results.
  destruct (fs w !! master_results_file) as [f|] eqn:Hf.
  - rewrite bool_decide_eq_true_2 by eauto. now destruct f.
  - now rewrite bool_decide_eq_false_2 by (intros [? ?]; congruence).
Qed.

Lemma load_progress_file_eq path p w :
  load_progress_file path (p, w)
  = Ok tt (if bool_decide (path = master_results_file) then p
           else match read_results path (fs w) with
                | Some rows => foldl recover_row p rows
                | None => p
                end, w).
Proof.
  unfold load_progress_file, bind, get, try_except, raise, ret, on_processor, modify.
  destruct (bool_decide _); [reflexivity|]. cbn [fst snd].
  now destruct (read_results _ _).
Qed.

Lemma load_recovery_state_eq p w :
  exists failed,
    load_recovery_state (p, w)
    = Ok tt (mkProcessor (processed_reports p) failed (all_results p), w).
Proof.
  unfold load_recovery_state, bind, get, try_except, raise, ret, on_processor, modify.
  cbn [fst snd]. destruct p as [pr fl ar].
  destruct (exists_ _ _); [|eauto].
  destruct (fs w !! recovery_file) as [[]|]; eauto.
Qed.

(** The progress files, merged one after the other. *)
Lemma load_progress_files_spec paths p w :
  exists p',
    load_progress_files paths (p, w) = Ok tt (p', w)
    /\ (ids_agree p -> ids_agree p')
    /\ (ids_agree p -> NoDup (keys (all_results p)) -> NoDup (keys (all_results p')))
    /\ (forall k, k ∈ processed_reports p -> k ∈ processed_reports p')
    /\ (forall path rows r,
          path ∈ paths -> path <> master_results_file ->
          read_results path (fs w) = Some rows ->
          r ∈ rows -> report_id r ∈ processed_reports p').
Proof.
  revert p. induction paths as [|path paths IH]; intros p; cbn [load_progress_files].
  - exists p. unfold ret. split_and!; auto.
    intros path rows r Hin. now apply elem_of_nil in Hin.
  - unfold bind. rewrite load_progress_file_eq.
    set (p1 := if bool_decide (path = master_results_file) then p
               else match read_results path (fs w) with
                    | Some rows => foldl recover_row p rows
                    | None => p
                    end).
    assert ((ids_agree p -> ids_agree p1)
            /\ (ids_agree p -> NoDup (keys (all_results p)) -> NoDup (keys (all_results p1)))
            /\ (forall k, k ∈ processed_reports p -> k ∈ processed_reports p1)
            /\ (forall rows r, path <> master_results_file ->
                               read_results path (fs w) = Some rows ->
                               r ∈ rows -> report_id r ∈ processed_reports p1))
      as (A1 & A2 & A4 & A5).
    { subst p1. destruct (bool_decide_reflect (path = master_results_file)) as [He|He].
      - split_and!; auto. intros rows r Hne. now contradiction Hne.
      - destruct (read_results path (fs w)) as [rows|].
        + destruct (foldl_recover_row rows p) as (H1 & H2 & H4 & H5 & _).
          split_and!; auto. intros rows' r _ [= <-]. apply H5.
        + split_and!; auto. intros rows r _ H. discriminate. }
    destruct (IH p1) as (p' & Hl & B1 & B2 & B4 & B5).
    exists p'. split; [exact Hl|]. split_and!.
    + auto.
    + intros Hag Hnd. apply B2; auto.
    + auto.
    + intros path' rows r Hin Hne Hread Hr.
      apply elem_of_cons in Hin as [->|Hin].
      * apply B4. now apply (A5 rows r).
      * now apply (B5 path' rows r).
Qed.

(** What [load_existing_work] builds on a fresh processor. *)
Lemma recovery_load_spec w :
  exists p',
    load_existing_work (init, w) = Ok tt (p', w)
    /\ ids_agree p'
    /\ (unique_keys master_results_file w -> NoDup (keys (all_results p')))
    /\ (forall rows r,
          read_results master_results_file (fs w) = Some rows ->
          r ∈ rows -> report_id r ∈ processed_reports p')
    /\ (forall path rows r,
          path ∈ (glob "temp_progress_*.xlsx" (fs w)
                  ++ glob "*business_context*.xlsx" (fs w))%list ->
          path <> master_results_file ->
          read_results path (fs w) = Some rows ->
          r ∈ rows -> report_id r ∈ processed_reports p').
Proof.
  unfold load_existing_work. unfold bind at 1. rewrite load_master_results_eq.
  unfold bind at 1, get at 1. cbn [fst snd]. unfold bind.
  set (p0 := match read_results master_results_file (fs w) with
             | Some rows => foldl load_row init rows
             | None => init
             end).
  assert (ids_agree p0
          /\ (unique_keys master_results_file w -> NoDup (keys (all_results p0)))
          /\ (forall rows r,
                read_results master_results_file (fs w) = Some rows ->
                r ∈ rows -> report_id r ∈ processed_reports p0))
    as (A1 & A2 & A3).
  { subst p0. unfold unique_keys, store_rows.
    destruct (read_results master_results_file (fs w)) as [rows|].
    - destruct (foldl_load_row_init rows) as (H1 & H2 & _). split_and!.
      + exact H2.
      + intros Hu. rewrite H1. now apply Hu.
      + intros rows' r [= <-] Hr. apply H2. rewrite H1.
        apply list_elem_of_fmap. eauto.
    - split_and!.
      + intros k. cbn. rewrite elem_of_empty, elem_of_nil. tauto.
      + intros _. constructor.
      + intros rows r H. discriminate. }
  destruct (load_progress_files_spec
              (glob "temp_progress_*.xlsx" (fs w) ++ glob "*business_context*.xlsx" (fs w))
              p0 w) as (p1 & -> & B1 & B2 & B4 & B5).
  destruct (load_recovery_state_eq p1 w) as [failed ->].
  eexists. split; [reflexivity|]. cbn [processed_reports all_results].
  split_and!.
  - now apply B1.
  - intros Hu. apply B2; auto.
  - intros rows r Hread Hr. apply B4. now apply (A3 rows r).
  - exact B5.
Qed.

(** X15.  [load_existing_work] of the recovery script merges the progress
    files without repeating an id: it always returns and changes no file;
    the completed ids are the ids of the buffer; the id of every row of the
    master file and of every progress file it can read is among them, the
    empty id of a row without one included; and when the master file holds
    no id twice, the buffer holds no id that is not empty twice, however
    many progress files repeat the ids of the master file or of each
    other. *)
Theorem recovery_merge_has_no_duplicates w :
  exists p',
    load_existing_work (init, w) = Ok tt (p', w)
    /\ (forall k, k ∈ processed_reports p' <-> k ∈ keys (all_results p'))
    /\ (forall path rows r,
          path = master_results_file
          \/ path ∈ (glob "temp_progress_*.xlsx" (fs w)
                     ++ glob "*business_context*.xlsx" (fs w))%list ->
          read_results path (fs w) = Some rows ->
          r ∈ rows -> report_id r ∈ keys (all_results p'))
    /\ (unique_keys master_results_file w ->
        NoDup (filter (fun k => k <> EmptyString) (keys (all_results p')))).
Proof.
  destruct (recovery_load_spec w) as (p' & H & H1 & H2 & H3 & H4).
  exists p'. split_and!; [exact H | exact H1 | | intros Hu; now apply NoDup_filter, H2].
  intros path rows r Hpath Hread Hr. apply H1.
  destruct (decide (path = master_results_file)) as [->|Hne].
  - now apply (H3 rows r).
  - destruct Hpath as [Hp|Hp]; [contradiction|]. now apply (H4 path rows r).
Qed.

End RecoveryLoading.


(** ** The generator's progress files and the recovery script *)

Section ProgressFiles.
Import Recovery RecoveryFacts.

Lemma append_cons c (s t : string) : String c s +:+ t = String c (s +:+ t).
Proof. reflexivity. Qed.

Lemma fnmatch_literal lit pat name :
  has_char "*" lit = false ->
  fnmatch (lit +:+ pat) (lit +:+ name) = fnmatch pat name.
Proof.
  induction lit as [|c lit IH]; [reflexivity|].
  cbn [has_char]. intros [Hc Hl]%orb_false_elim.
  rewrite !append_cons. cbn [fnmatch].
  rewrite Ascii.eqb_sym in Hc. rewrite Hc, Ascii.eqb_refl. cbn [andb]. now apply IH.
Qed.

Lemma fnmatch_star pat a b :
  fnmatch pat b = true -> fnmatch (String "*" pat) (a +:+ b) = true.
Proof.
  intros Hb. cbn [fnmatch]. rewrite Ascii.eqb_refl.
  induction a as [|c a IH].
  - change (EmptyString +:+ b) with b. destruct b; now rewrite Hb.
  - rewrite append_cons. rewrite IH. apply orb_true_r.
Qed.

Lemma has_char_app c s t : has_char c (s +:+ t) = has_char c s || has_char c t.
Proof.
  induction s as [|d s IH]; [reflexivity|].
  rewrite append_cons. cbn [has_char]. now rewrite IH, orb_assoc.
Qed.

Lemma numeric_no_slash s : chars_in is_numeric s = true -> has_char "/" s = false.
Proof.
  induction s as [|c s IH]; cbn [chars_in has_char]; [reflexivity|].
  intros [Hc Hs]%andb_true_iff. rewrite (IH Hs), orb_false_r.
  destruct c as [[] [] [] [] [] [] [] []]; try reflexivity; discriminate.
Qed.

Lemma append_assoc (a b c : string) : (a +:+ b) +:+ c = a +:+ (b +:+ c).
Proof.
  induction a as [|x a IH]; [reflexivity|]. rewrite !append_cons. now rewrite IH.
Qed.

(** The progress files of the generator are found by the first pattern
    of [load_existing_work]. *)
Lemma progress_file_matches n :
  fnmatch "temp_progress_*.xlsx" (progress_file n) = true
  /\ has_char "/" (progress_file n) = false
  /\ String.prefix "." (progress_file n) = false
  /\ progress_file n <> master_results_file.
Proof.
  unfold progress_file. split_and!.
  - change "temp_progress_*.xlsx" with ("temp_progress_" +:+ "*.xlsx").
    rewrite fnmatch_literal by reflexivity.
    change "_reports.xlsx" with ("_reports" +:+ ".xlsx").
    rewrite <- append_assoc. now apply fnmatch_star.
  - rewrite !has_char_app, (numeric_no_slash _ (PyFacts.str_numeric n)). reflexivity.
  - reflexivity.
  - intros H.
    exact (eq_ind ("temp_progress_" +:+ Py.str n +:+ "_reports.xlsx")
             (fun s => match s with String "t" _ => True | _ => False end) I _ H).
Qed.

Lemma elem_of_glob pat files name :
  name ∈ glob pat files
  <-> is_Some (files !! name) /\ fnmatch pat name = true
      /\ has_char "/" name = false /\ String.prefix "." name = false.
Proof.
  unfold glob. rewrite list_elem_of_In, filter_In, <- list_elem_of_In.
  rewrite !andb_true_iff, !negb_true_iff.
  assert (name ∈ map fst (map_to_list files) <-> is_Some (files !! name)) as ->.
  { rewrite list_elem_of_In, in_map_iff. split.
    - intros ([k f] & <- & Hin). apply list_elem_of_In, elem_of_map_to_list in Hin.
      cbn. eauto.
    - intros [f Hf]. exists (name, f). split; [reflexivity|].
      now apply list_elem_of_In, elem_of_map_to_list. }
  tauto.
Qed.

(** The incremental save of the generator, when its write succeeds. *)
Lemma save_results_writes env path g w :
  Generator.results g <> [] ->
  master_write (io_faults env (time w)) = WriteOk ->
  exists summary,
    Generator.save_results env path (g, w)
    = Ok path (g, mkWorld (<[path := Workbook (Generator.results g) summary
                                       (Generator.failed_reports g)]> (fs w))
                          (api_calls w) (S (time w))).
Proof.
  intros Hne Hok.
  unfold Generator.save_results, bind, get, try_except, Generator.in_world, modify, ret,
    raise, write_file, set_fs, tick.
  cbn [fst snd fs api_calls time]. rewrite Hok.
  destruct (Generator.results g) as [|r rs] eqn:E; [congruence|].
  unfold bind, modify. cbn [fst snd fs api_calls time]. eauto.
Qed.

(** X16.  What the generator saves as incremental progress, the recovery
    script finds: after [save_results] has written a progress file under
    the name [temp_progress_<n>_reports.xlsx], [load_existing_work] of the
    recovery script on a fresh processor counts every result of that file
    that carries an id as completed and holds a row for it. *)
Theorem incremental_save_is_recovered env g w n :
  Generator.results g <> [] ->
  master_write (io_faults env (time w)) = WriteOk ->
  let w' := (final_state (Generator.save_results env (progress_file n) (g, w))).2 in
  exists p',
    load_existing_work (init, w') = Ok tt (p', w')
    /\ forall r, r ∈ Generator.results g -> report_id r <> EmptyString ->
                 report_id r ∈ processed_reports p'
                 /\ report_id r ∈ keys (all_results p').
Proof.
  intros Hne Hok. cbv zeta.
  destruct (save_results_writes env (progress_file n) g w Hne Hok) as [summary ->].
  cbn [final_state snd].
  set (w' := mkWorld _ _ _).
  destruct (recovery_load_spec w') as (p' & Hload & Hag & _ & _ & Hcov).
  exists p'. split; [exact Hload|]. intros r Hr Hid.
  destruct (progress_file_matches n) as (Hm & Hslash & Hdot & Hnm).
  assert (report_id r ∈ processed_reports p') as Hin.
  { apply (Hcov (progress_file n) (Generator.results g) r); try assumption.
    - apply elem_of_app. left. apply elem_of_glob. subst w'. cbn [fs].
      rewrite lookup_insert_eq. split_and!; eauto.
    - subst w'. unfold read_results. cbn [fs]. now rewrite lookup_insert_eq. }
  split; [exact Hin | now apply Hag].
Qed.


End ProgressFiles.


Lemma recovery_merge_has_no_duplicates_witness :
  exists p',
    Recovery.load_existing_work (Recovery.init, merge_world) = Ok tt (p', merge_world)
    /\ NoDup (filter (fun k => k <> EmptyString) (keys (Recovery.all_results p'))).
Proof.
  destruct (recovery_merge_has_no_duplicates merge_world) as (p' & H & _ & _ & Hnd).
  exists p'. split; [exact H|]. apply Hnd.
  intros rows Hrows. vm_compute in Hrows. injection Hrows as <-.
  apply NoDup_singleton.
Defined.

Lemma incremental_save_is_recovered_witness :
  let w' := (final_state (Generator.save_results (calm [a_row; a_row] None)
                            (progress_file 25) (one_result, empty_world))).2 in
  exists p',
    Recovery.load_existing_work (Recovery.init, w') = Ok tt (p', w')
    /\ forall r, r ∈ Generator.results one_result -> report_id r <> EmptyString ->
                 report_id r ∈ Recovery.processed_reports p'
                 /\ report_id r ∈ keys (Recovery.all_results p').
Proof.
  cbv zeta.
  apply (incremental_save_is_recovered (calm [a_row; a_row] None) one_result empty_world 25).
  - discriminate.
  - reflexivity.
Defined.


(** ** The recovery script: the run *)

Section RecoveryRun.
Import Recovery RecoveryFacts.

Lemma recovery_temp_distinct :
  recovery_file +:+ ".tmp" <> recovery_file
  /\ recovery_file <> master_results_file
  /\ recovery_file +:+ ".tmp" <> master_results_file
  /\ recovery_file <> temp_file
  /\ recovery_file +:+ ".tmp" <> temp_file.
Proof. repeat split; vm_compute; discriminate. Qed.

(** [save_recovery_state] always returns; it writes the completed ids and
    the failures when the write and the rename succeed, and leaves the
    recovery file as it was otherwise. *)
Lemma save_recovery_state_spec env p w :
  exists files',
    save_recovery_state env (p, w) = Ok tt (p, mkWorld files' (api_calls w) (S (time w)))
    /\ files' !! recovery_file
       = (if state_phase_ok (io_faults env (time w))
          then Some (StateJson (elements (processed_reports p)) (failed_reports p)
                       (now env (time w)) None)
          else fs w !! recovery_file)
    /\ files' !! master_results_file = fs w !! master_results_file
    /\ files' !! temp_file = fs w !! temp_file.
Proof.
  pose proof recovery_temp_distinct as D.
  unfold save_recovery_state, state_phase_ok. mred.
  revert D. generalize (recovery_file +:+ ".tmp"), recovery_file, master_results_file, temp_file.
  intros T RF MF MT (D1 & D2 & D3 & D4 & D5).
  destruct (io_faults env (time w)) as [mw mr sw sr bw]; mred.
  destruct sw as [|[junk|]]; mred.
  2,3: eexists; split; [reflexivity|]; split_and!; by simplify_map_eq.
  destruct sr; mred.
  1: eexists; split; [reflexivity|]; split_and!; by simplify_map_eq.
  rewrite lookup_insert_eq. mred.
  eexists; split; [reflexivity|]; split_and!; by simplify_map_eq.
Qed.

(** [save_master_results] returns or raises; it never leaves the
    process.  The buffer is sorted at most; without results no file is
    touched. *)
Lemma save_master_results_cases env p w :
  exists p' w',
    ((exists out, save_master_results env (p, w) = Ok out (p', w'))
     \/ (exists e, save_master_results env (p, w) = Raise e (p', w')))
    /\ processed_reports p' = processed_reports p
    /\ failed_reports p' = failed_reports p
    /\ all_results p' ≡ₚ all_results p
    /\ api_calls w' = api_calls w
    /\ fs w' !! recovery_file = fs w !! recovery_file
    /\ (all_results p = [] -> (p', w') = (p, w)).
Proof.
  pose proof recovery_temp_distinct as (_ & _ & _ & D4 & _).
  unfold save_master_results, write_excel. rewrite temp_rejected. mred.
  destruct (all_results p) as [|r rs] eqn:E; mred.
  { exists p, w. split; [left; eauto|]. rewrite E. now split_and!. }
  assert (sort_by extract_number (r :: rs) ≡ₚ r :: rs) as Hperm by apply GapFacts.sort_by_perm.
  rewrite ?E.
  destruct (catalog env) as [| |rows]; mred.
  1,2: eexists _, _; split; [right; eauto|]; cbn [processed_reports failed_reports
         all_results api_calls fs]; split_and!; try reflexivity; try assumption; discriminate.
  destruct (Z.of_nat (length rows) =? 0); mred.
  1: eexists _, _; split; [right; eauto|]; cbn [processed_reports failed_reports
       all_results api_calls fs]; split_and!; try reflexivity; try assumption; discriminate.
  eexists _, _; split; [left; eauto|]; cbn [processed_reports failed_reports
    all_results api_calls fs]; split_and!; try reflexivity; try assumption;
    try discriminate.
  apply lookup_delete_ne. now apply not_eq_sym.
Qed.


(** The checkpoint of the loop and the handler around it. *)
Lemma recovery_checkpoint env i n p w :
  exists p' w',
    match
      (if (Z.of_nat i + 1) mod 10 =? 0
       then _ <~ save_master_results env; save_recovery_state env
       else ret tt) (p, w)
    with
    | Ok a s' => Ok a s'
    | Raise e s' =>
        on_processor
          (add_failure
             (mkFailure (report_key n) ("Unexpected error: " +:+ e) (Some "Unknown"))) s'
    | Exit s' => Exit s'
    end = Ok tt (p', w')
    /\ all_results p' ≡ₚ all_results p
    /\ api_calls w' = api_calls w
    /\ ((Z.of_nat i + 1) mod 10 <> 0 -> fs w' = fs w)
    /\ (all_results p = [] -> fs w' !! master_results_file = fs w !! master_results_file).
Proof.
  destruct (Z.eqb_spec ((Z.of_nat i + 1) mod 10) 0) as [Hmod|Hmod].
  2:{ exists p, w. unfold ret. now split_and!. }
  unfold bind.
  destruct (save_master_results_cases env p w)
    as (p1 & w1 & [[out H]|[e H]] & _ & _ & Hperm & Hcalls & _ & Hid); rewrite H.
  - destruct (save_recovery_state_spec env p1 w1) as (files' & Hs & _ & Hm & _).
    rewrite Hs. eexists _, _. split; [reflexivity|]. cbn [api_calls fs].
    split_and!; [exact Hperm | exact Hcalls | intros; contradiction |].
    intros He. rewrite Hm. now injection (Hid He) as _ ->.
  - unfold on_processor, modify. eexists _, _. split; [reflexivity|].
    cbn [fst snd all_results add_failure].
    split_and!; [exact Hperm | exact Hcalls | intros; contradiction |].
    intros He. now injection (Hid He) as _ ->.
Qed.

(** One iteration of the loop of the recovery script: it returns, adds
    at most one row, touches no file unless its position is a multiple of
    ten, and leaves the master file alone as long as there is no result. *)
Lemma recovery_item env df i n p w :
  exists p' w',
    process_item env df i n (p, w) = Ok tt (p', w')
    /\ (all_results p' ≡ₚ all_results p
        \/ exists r, all_results p' ≡ₚ (all_results p ++ [r])%list)
    /\ ((Z.of_nat i + 1) mod 10 <> 0 -> fs w' = fs w)
    /\ (all_results p' = [] -> fs w' !! master_results_file = fs w !! master_results_file).
Proof.
  unfold process_item. unfold try_except at 1. unfold bind at 1. cbv beta.
  destruct (BulletproofFacts.iloc_cases (S:=St) df (n - 1) (p, w)) as [[e He]|[row Hrow]].
  { rewrite He. unfold on_processor, modify. eexists _, _. split; [reflexivity|].
    cbn [fst snd all_results add_failure]. split_and!; auto. }
  rewrite Hrow. cbv beta. destruct (missing_essential_data row).
  { unfold on_processor, modify. eexists _, _. split; [reflexivity|].
    cbn [fst snd all_results add_failure]. split_and!; auto. }
  unfold bind at 1. unfold api_call at 1. cbv beta. cbn [fst snd].
  destruct (call_gemini_api env (time w) (report_key n)) as [response|msg].
  2:{ unfold on_processor, modify. eexists _, _. split; [reflexivity|].
      cbn [fst snd all_results add_failure fs]. split_and!; auto. }
  unfold bind at 1, get at 1. cbv beta. unfold bind at 1. cbv beta.
  destruct response as [[|c text]|]; unfold on_processor at 1, modify at 1;
    cbn [fst snd];
    match goal with
    | |- context [match _ (?p1, ?w1) with _ => _ end] =>
        destruct (recovery_checkpoint env i n p1 w1) as (p' & w' & Hcp & Hperm & _ & Hmod & Hm)
    end; rewrite Hcp; exists p', w'; (split; [reflexivity|]);
    cbn [all_results add_failure add_result fs] in *.
  - split_and!; [now left | exact Hmod |]. intros He. apply Hm.
    apply Permutation_nil_r. now rewrite <- Hperm, He.
  - split_and!; [right; eauto | exact Hmod |]. intros He.
    rewrite He in Hperm. apply Permutation_nil_l in Hperm.
    now destruct (all_results p).
  - split_and!; [now left | exact Hmod |]. intros He. apply Hm.
    apply Permutation_nil_r. now rewrite <- Hperm, He.
Qed.

Lemma recovery_results_grow (l l' : list ResultRecord) :
  (l' ≡ₚ l \/ exists r, l' ≡ₚ (l ++ [r])%list) -> l' = [] -> l = [].
Proof.
  intros [H|[r H]] ->.
  - now apply Permutation_nil_l in H.
  - apply Permutation_nil_l in H. now destruct l.
Qed.

(** The loop without a signal: it returns. *)
Lemma recovery_loop_quiet env df i items p w :
  sigint_after env = None ->
  exists p' w',
    process_loop env df i items (p, w) = Ok tt (p', w')
    /\ (all_results p' = [] ->
        all_results p = []
        /\ fs w' !! master_results_file = fs w !! master_results_file).
Proof.
  intros Hsig. revert i p w. induction items as [|n items IH]; intros i p w;
    cbn [process_loop].
  - exists p, w. unfold ret. now split.
  - rewrite Hsig. rewrite bool_decide_eq_false_2 by discriminate.
    unfold bind.
    destruct (recovery_item env df i n p w) as (p1 & w1 & -> & Hgrow & _ & Hm).
    destruct (IH (S i) p1 w1) as (p' & w' & -> & Hrest).
    exists p', w'. split; [reflexivity|]. intros He.
    destruct (Hrest He) as [He1 Hm1]. split.
    + now apply (recovery_results_grow _ _ Hgrow).
    + now rewrite Hm1, (Hm He1).
Qed.

(** The loop never raises: it returns, or a signal ends the process. *)
Lemma recovery_loop_cases env df i items s :
  (exists s', process_loop env df i items s = Ok tt s')
  \/ (exists j s', sigint_after env = Some j /\ process_loop env df i items s = Exit s').
Proof.
  revert i s. induction items as [|n items IH]; intros i [p w]; cbn [process_loop].
  - left. unfold ret. eauto.
  - destruct (bool_decide_reflect (sigint_after env = Some i)) as [Hs|Hs].
    + right. unfold sys_exit. eauto.
    + unfold bind.
      destruct (recovery_item env df i n p w) as (p1 & w1 & -> & _). apply IH.
Qed.

(** A signal during the first nine iterations: the process ends and no
    file has been touched. *)
Lemma recovery_loop_sigint env df i pre x post p w :
  sigint_after env = Some (i + length pre)%nat ->
  (i + length pre < 10)%nat ->
  exists p' w',
    process_loop env df i (pre ++ x :: post) (p, w) = Exit (p', w') /\ fs w' = fs w.
Proof.
  revert i p w. induction pre as [|n pre IH]; intros i p w Hsig Hlt;
    cbn [app process_loop].
  - rewrite Nat.add_0_r in Hsig. rewrite bool_decide_eq_true_2 by exact Hsig.
    unfold sys_exit. eauto.
  - cbn [length] in *.
    rewrite bool_decide_eq_false_2 by (rewrite Hsig; intros [= H]; lia).
    unfold bind.
    destruct (recovery_item env df i n p w) as (p1 & w1 & -> & _ & Hfs & _).
    destruct (IH (S i) p1 w1) as (p' & w' & -> & Hfs'); [| lia |].
    + rewrite Hsig. f_equal. lia.
    + exists p', w'. split; [reflexivity|]. rewrite Hfs'. apply Hfs.
      rewrite Z.mod_small by lia. lia.
Qed.


(** X17.  A run of the recovery loop saves its failures even when it has
    no result: with a readable, non-empty catalog, the API set up, no
    signal and a state file that can be written, [process_missing_reports]
    on a non-empty list returns [True] and leaves a recovery file that
    lists the completed ids and the failures of the processor; when the
    buffer is empty at the end, the master file is as it was. *)
Theorem recovery_state_is_saved env df missing p w :
  catalog env = CatalogRows df -> df <> [] ->
  setup_gemini_api env = true ->
  missing <> [] ->
  sigint_after env = None ->
  (forall t, state_phase_ok (io_faults env t) = true) ->
  exists p' w' stamp,
    process_missing_reports env missing (p, w) = Ok true (p', w')
    /\ fs w' !! recovery_file
       = Some (StateJson (elements (processed_reports p')) (failed_reports p') stamp None)
    /\ (all_results p' = [] ->
        fs w' !! master_results_file = fs w !! master_results_file).
Proof.
  intros Hcat Hdf Hsetup Hmiss Hsig Hstate.
  unfold process_missing_reports. destruct missing as [|m ms]; [congruence|].
  rewrite Hcat, Hsetup. cbn [negb]. unfold bind at 1.
  destruct (recovery_loop_quiet env df 0 (m :: ms) p w Hsig) as (p1 & w1 & -> & Hempty).
  unfold bind at 1.
  destruct (all_results p1) as [|r rs] eqn:E.
  - rewrite (save_master_results_empty env p1 w1 E). unfold bind, ret.
    destruct (save_recovery_state_spec env p1 w1) as (files' & -> & Hrf & Hm & _).
    rewrite Hstate in Hrf.
    eexists _, _, _. split; [reflexivity|]. cbn [fs]. split; [exact Hrf|].
    intros _. rewrite Hm. now apply Hempty.
  - rewrite (save_master_results_flush env p1 w1 df);
      [| congruence | exact Hcat | exact Hdf].
    unfold bind, ret.
    match goal with
    | |- context [save_recovery_state env (?p2, ?w2)] =>
        destruct (save_recovery_state_spec env p2 w2) as (files' & -> & Hrf & _)
    end.
    rewrite Hstate in Hrf. cbn [processed_reports failed_reports] in Hrf.
    eexists _, _, _. split; [reflexivity|]. cbn [fs processed_reports failed_reports].
    split; [exact Hrf|]. cbn [all_results]. intros He.
    pose proof (GapFacts.sort_by_perm extract_number (all_results p1)) as Hp.
    rewrite He, E in Hp. now apply Permutation_nil_l in Hp.
Qed.

(** X18.  The recovery script has no interrupt handler: a SIGINT during
    its first nine iterations ends [process_missing_reports] with every
    file as it was before the loop, whatever results the iterations had
    produced. *)
Theorem recovery_interrupt_saves_nothing env df pre x post p w :
  catalog env = CatalogRows df ->
  setup_gemini_api env = true ->
  sigint_after env = Some (length pre) ->
  (length pre < 10)%nat ->
  exists p' w',
    process_missing_reports env (pre ++ x :: post)%list (p, w) = Exit (p', w')
    /\ fs w' = fs w.
Proof.
  intros Hcat Hsetup Hsig Hlt. unfold process_missing_reports.
  destruct (pre ++ x :: post)%list as [|m ms] eqn:E; [now destruct pre|].
  rewrite Hcat, Hsetup. cbn [negb]. unfold bind at 1. rewrite <- E.
  destruct (recovery_loop_sigint env df 0 pre x post p w) as (p' & w' & -> & Hfs);
    [exact Hsig | exact Hlt |].
  eauto.
Qed.

(** X19.  [main] of the recovery script lets no exception escape: it
    returns, or a SIGINT ends the process. *)
Theorem recovery_main_never_raises env w :
  (exists s, main env (init, w) = Ok tt s)
  \/ (exists j s, sigint_after env = Some j /\ main env (init, w) = Exit s).
Proof.
  assert (forall s, exists s', save_recovery_state env s = Ok tt s') as Hstate.
  { intros [p0 w0]. destruct (save_recovery_state_spec env p0 w0) as (files' & -> & _).
    eauto. }
  assert (forall s, (exists s', (_ <~ save_master_results env; ret tt) s = Ok tt s')
                    \/ (exists e s', (_ <~ save_master_results env; ret tt) s = Raise e s'))
    as Hsave.
  { intros [p0 w0]. unfold bind, ret.
    destruct (save_master_results_cases env p0 w0) as (p1 & w1 & [[out ->]|[e ->]] & _);
      eauto. }
  unfold ret in Hsave.
  assert (exists o, o = main env (init, w)) as [o Ho] by eauto. rewrite <- Ho.
  unfold main in Ho. unfold try_except at 1 in Ho. unfold bind at 1 in Ho.
  destruct (load_existing_work_ok init w) as [p1 Hload]. rewrite Hload in Ho.
  unfold bind at 1 in Ho.
  unfold identify_missing_reports, read_catalog_len in Ho.
  unfold bind at 1 in Ho.
  destruct (catalog env) as [| |df] eqn:Hcat; unfold raise, ret in Ho.
  1,2: left; destruct (Hstate (p1, w)) as [s' Hs]; rewrite Hs in Ho; subst o; eauto.
  unfold bind at 1, get at 1 in Ho. cbn [fst snd] in Ho.
  destruct (Z.of_nat (length df) =? 0).
  { left. destruct (Hstate (p1, w)) as [s' Hs]. rewrite Hs in Ho. subst o. eauto. }
  destruct (Bulletproof.missing_numbers _ _) as [|m ms].
  { left. cbv beta iota in Ho. destruct (Hsave (p1, w)) as [[s' Hs]|(e & s' & Hs)]; rewrite Hs in Ho.
    - subst o. eauto.
    - destruct (Hstate s') as [s2 Hs2]. rewrite Hs2 in Ho. subst o. eauto. }
  unfold bind at 1 in Ho. unfold process_missing_reports in Ho. rewrite Hcat in Ho.
  destruct (setup_gemini_api env); cbn [negb] in Ho.
  2:{ left. subst o. eauto. }
  unfold bind at 1 in Ho.
  destruct (recovery_loop_cases env df 0 (m :: ms) (p1, w))
    as [[s1 Hl]|(j & s1 & Hsig & Hl)]; rewrite Hl in Ho.
  2:{ right. subst o. eauto. }
  unfold bind at 1 in Ho. destruct s1 as [p2 w2].
  destruct (save_master_results_cases env p2 w2) as (p3 & w3 & [[out Hs]|[e Hs]] & _);
    rewrite Hs in Ho.
  2:{ left. destruct (Hstate (p3, w3)) as [s' Hs']. rewrite Hs' in Ho. subst o. eauto. }
  unfold bind at 1 in Ho.
  destruct (Hstate (p3, w3)) as [s4 Hs4]. rewrite Hs4 in Ho.
  unfold ret in Ho. cbv beta iota in Ho.
  left. destruct (Hsave s4) as [[s' Hs']|(e & s' & Hs')]; rewrite Hs' in Ho.
  - subst o. eauto.
  - destruct (Hstate s') as [s5 Hs5]. rewrite Hs5 in Ho. subst o. eauto.
Qed.


End RecoveryRun.


Lemma recovery_state_is_saved_witness :
  exists p' w' stamp,
    Recovery.process_missing_reports (calm [a_bad_row; a_bad_row] None) [1; 2]
      (Recovery.init, empty_world) = Ok true (p', w')
    /\ fs w' !! Recovery.recovery_file
       = Some (StateJson (elements (Recovery.processed_reports p'))
                 (Recovery.failed_reports p') stamp None)
    /\ (Recovery.all_results p' = [] ->
        fs w' !! Recovery.master_results_file
        = fs empty_world !! Recovery.master_results_file).
Proof.
  apply (recovery_state_is_saved (calm [a_bad_row; a_bad_row] None) [a_bad_row; a_bad_row]
           [1; 2] Recovery.init empty_world).
  - reflexivity.
  - discriminate.
  - reflexivity.
  - discriminate.
  - reflexivity.
  - intros t. reflexivity.
Defined.

Lemma recovery_interrupt_saves_nothing_witness :
  exists p' w',
    Recovery.process_missing_reports (calm (replicate 10 a_row) (Some 5%nat))
      ([1; 2; 3; 4; 5] ++ 6 :: [7; 8; 9; 10])%list (Recovery.init, empty_world)
    = Exit (p', w')
    /\ fs w' = fs empty_world.
Proof.
  apply (recovery_interrupt_saves_nothing (calm (replicate 10 a_row) (Some 5%nat))
           (replicate 10 a_row) [1; 2; 3; 4; 5] 6 [7; 8; 9; 10] Recovery.init empty_world).
  - reflexivity.
  - reflexivity.
  - reflexivity.
  - simpl. lia.
Defined.


(** ** The response parser *)

Section ResponseParser.
Import Response.

Lemma prefix_app p s : String.prefix p (p +:+ s) = true.
Proof.
  induction p as [|c p IH].
  - change (EmptyString +:+ s) with s. now destruct s.
  - rewrite append_cons. cbn [String.prefix].
    destruct (ascii_dec c c); [exact IH | congruence].
Qed.








Lemma append_empty_r (s : string) : s +:+ EmptyString = s.
Proof. induction s as [|c s IH]; [reflexivity|]. rewrite append_cons. now rewrite IH. Qed.

Lemma prefix_refl p : String.prefix p p = true.
Proof. pose proof (prefix_app p EmptyString) as H. now rewrite append_empty_r in H. Qed.






Lemma join_nonempty sep x l : x <> EmptyString -> Py.join sep (x :: l) <> EmptyString.
Proof. intros Hx. destruct l; [exact Hx|]. cbn [Py.join]. now destruct x. Qed.









End ResponseParser.




(** ** Combining the result files *)

Section CombineFiles.
Import Combine.

Variable sort_values : list ResultRecord -> list ResultRecord.
Hypothesis sort_values_perm : forall l, sort_values l ≡ₚ l.

Lemma add_result_row_inv origin a row :
  origin row -> combine_inv origin a -> combine_inv origin (add_result_row a row).
Proof.
  intros Ho (Hag & Hnd & Hids & Hf). unfold add_result_row.
  destruct (bool_decide_reflect (report_id row ∈ processed_report_ids a)) as [Hin|Hin];
    [now split_and!|].
  split_and!; cbn [all_results all_failed processed_report_ids].
  - intros k. rewrite BulletproofFacts.keys_app, elem_of_union, elem_of_singleton,
      elem_of_app, Hag. unfold keys. simpl. rewrite list_elem_of_singleton. tauto.
  - rewrite BulletproofFacts.keys_app. apply NoDup_app. split_and!.
    + exact Hnd.
    + intros k Hk Hk'. unfold keys in Hk'. simpl in Hk'.
      apply list_elem_of_singleton in Hk'. subst k. apply Hin, Hag, Hk.
    + unfold keys. simpl. apply NoDup_singleton.
  - apply Forall_app. split; [exact Hids|]. now repeat constructor.
  - exact Hf.
Qed.

Lemma add_result_row_grows a row k :
  k ∈ processed_report_ids a -> k ∈ processed_report_ids (add_result_row a row).
Proof.
  unfold add_result_row. intros H. destruct (bool_decide _); [exact H|].
  cbn [processed_report_ids]. apply elem_of_union. now right.
Qed.

Lemma add_result_row_covers a row :
  report_id row ∈ processed_report_ids (add_result_row a row).
Proof.
  unfold add_result_row.
  destruct (bool_decide_reflect (report_id row ∈ processed_report_ids a)) as [Hin|Hin];
    [exact Hin|].
  cbn [processed_report_ids]. apply elem_of_union. left. now apply elem_of_singleton.
Qed.

Lemma foldl_add_result_row origin rows a :
  Forall origin rows -> combine_inv origin a ->
  let a' := foldl add_result_row a rows in
  combine_inv origin a'
  /\ (forall k, k ∈ processed_report_ids a -> k ∈ processed_report_ids a')
  /\ (forall r, r ∈ rows -> report_id r ∈ processed_report_ids a').
Proof.
  revert a. induction rows as [|row rows IH]; intros a Ho Hinv; cbn [foldl].
  - split_and!; auto. intros r Hr. now apply elem_of_nil in Hr.
  - apply Forall_cons in Ho as [Hrow Ho].
    destruct (IH (add_result_row a row) Ho (add_result_row_inv origin a row Hrow Hinv))
      as (H1 & H2 & H3).
    split_and!; [exact H1 | |].
    + intros k Hk. now apply H2, add_result_row_grows.
    + intros r Hr. apply elem_of_cons in Hr as [->|Hr]; [|now apply H3].
      apply H2, add_result_row_covers.
Qed.

Lemma add_failed_row_inv origin a row :
  combine_inv origin a ->
  combine_inv origin (add_failed_row a row)
  /\ processed_report_ids (add_failed_row a row) = processed_report_ids a.
Proof.
  intros (Hag & Hnd & Hids & Hf). unfold add_failed_row.
  destruct (bool_decide_reflect (failed_report_id row = EmptyString)) as [He|He];
    cbn [negb andb].
  { split; [|reflexivity]. split_and!; cbn [all_results all_failed processed_report_ids];
      try assumption.
    rewrite map_app, filter_app. simpl. rewrite filter_cons, decide_False by tauto.
    rewrite filter_nil, app_nil_r. exact Hf. }
  destruct (existsb _ _) eqn:Hex; [now split_and!|].
  split; [|reflexivity]. split_and!; cbn [all_results all_failed processed_report_ids];
    try assumption.
  rewrite map_app, filter_app. simpl. rewrite filter_cons, decide_True by exact He.
  rewrite filter_nil. apply NoDup_app. split_and!.
  - exact Hf.
  - intros k Hk Hk'. apply list_elem_of_singleton in Hk'. subst k.
    apply list_elem_of_filter in Hk as [_ Hk].
    apply list_elem_of_fmap in Hk as (f & Heq & Hin).
    assert (existsb (fun f0 => bool_decide (failed_report_id f0 = failed_report_id row))
                    (all_failed a) = true) as Htrue.
    { apply existsb_exists. exists f. split; [now apply list_elem_of_In|].
      now apply bool_decide_eq_true_2. }
    congruence.
  - apply NoDup_singleton.
Qed.

Lemma foldl_add_failed_row origin rows a :
  combine_inv origin a ->
  combine_inv origin (foldl add_failed_row a rows)
  /\ processed_report_ids (foldl add_failed_row a rows) = processed_report_ids a.
Proof.
  revert a. induction rows as [|row rows IH]; intros a Hinv; cbn [foldl]; [now split|].
  destruct (add_failed_row_inv origin a row Hinv) as [H1 H2].
  destruct (IH _ H1) as [H3 H4]. split; [exact H3 | congruence].
Qed.

(** The files, read one after the other. *)
Lemma foldl_read_file getmtime files paths a :
  (forall path, path ∈ paths -> path ∈ all_files getmtime files) ->
  combine_inv (combined_input getmtime files) a ->
  let a' := foldl (read_file files) a paths in
  combine_inv (combined_input getmtime files) a'
  /\ (forall k, k ∈ processed_report_ids a -> k ∈ processed_report_ids a')
  /\ (forall path rows r,
        path ∈ paths -> read_results path files = Some rows -> r ∈ rows ->
        report_id r ∈ processed_report_ids a').
Proof.
  revert a. induction paths as [|path paths IH]; intros a Hsub Hinv; cbn [foldl].
  - split_and!; auto. intros path rows r Hin. now apply elem_of_nil in Hin.
  - assert (combine_inv (combined_input getmtime files) (read_file files a path)
            /\ (forall k, k ∈ processed_report_ids a ->
                          k ∈ processed_report_ids (read_file files a path))
            /\ (forall rows r, read_results path files = Some rows -> r ∈ rows ->
                               report_id r ∈ processed_report_ids (read_file files a path)))
      as (A1 & A2 & A3).
    { unfold read_file, read_results.
      destruct (files !! path) as [[rows summary failed| | | | |]|] eqn:Hf;
        try (split_and!; [exact Hinv | auto | intros ? ? [=]]).
      assert (Forall (combined_input getmtime files) rows) as Ho.
      { apply Forall_forall. intros r Hr. exists path, rows. split_and!.
        - apply Hsub. now left.
        - unfold read_results. now rewrite Hf.
        - exact Hr. }
      destruct (foldl_add_result_row _ rows a Ho Hinv) as (H1 & H2 & H3).
      destruct (foldl_add_failed_row _ failed _ H1) as [H4 H5].
      split_and!; [exact H4 | |].
      - intros k Hk. rewrite H5. now apply H2.
      - intros rows' r [= <-] Hr. rewrite H5. now apply H3. }
    destruct (IH (read_file files a path)) as (B1 & B2 & B3); [|exact A1|].
    { intros p Hp. apply Hsub. now right. }
    split_and!; [exact B1 | auto |].
    intros path' rows r Hin Hread Hr. apply elem_of_cons in Hin as [->|Hin].
    + apply B2. now apply (A3 rows r).
    + now apply (B3 path' rows r).
Qed.

(** The accumulators after all files are read. *)
Lemma combine_acc_spec getmtime files :
  let a := foldl (read_file files) (mkAcc [] [] ∅) (all_files getmtime files) in
  combine_inv (combined_input getmtime files) a
  /\ forall r, combined_input getmtime files r -> report_id r ∈ keys (all_results a).
Proof.
  destruct (foldl_read_file getmtime files (all_files getmtime files) (mkAcc [] [] ∅))
    as (Hinv & _ & Hcov).
  { auto. }
  { unfold combine_inv. cbn [all_results all_failed processed_report_ids].
    split_and!.
    - intros k. unfold keys. simpl. rewrite elem_of_empty, elem_of_nil. tauto.
    - apply NoDup_nil_2.
    - apply Forall_nil_2.
    - apply NoDup_nil_2. }
  cbv zeta. split; [exact Hinv|].
  intros r (p & rows & Hin & Hread & Hr).
  destruct Hinv as (Hag & _). apply Hag. now apply (Hcov p rows r).
Qed.

(** X21.  [combine_all_results] removes duplicates: when it returns the
    name of its output file, that file holds the combined rows; no report
    id that is not empty occurs twice among them, nor among the failures;
    every row comes from the results sheet of one of the files read; and
    the id of every row of the results sheet of a file read is present, the
    empty id of a row without one included.  The sort may order rows of
    equal key in any way. *)
Theorem combined_file_has_unique_ids env getmtime w path w' :
  combine_all_results sort_values env getmtime w = Ok (Some path) w' ->
  exists rows summary failed,
    fs w' !! path = Some (Workbook rows summary failed)
    /\ NoDup (filter (fun k => k <> EmptyString) (keys rows))
    /\ NoDup (filter (fun k => k <> EmptyString) (map failed_report_id failed))
    /\ Forall (combined_input getmtime (fs w)) rows
    /\ forall r, combined_input getmtime (fs w) r -> report_id r ∈ keys rows.
Proof.
  unfold combine_all_results. unfold bind at 1, get at 1.
  destruct (combine_acc_spec getmtime (fs w)) as ((Hag & Hnd & Hids & Hf) & Hcov).
  set (a := foldl (read_file (fs w)) (mkAcc [] [] ∅) (all_files getmtime (fs w))) in *.
  destruct (all_results a) as [|r0 rs] eqn:E; [discriminate|]. rewrite <- E in *.
  unfold bind, modify, ret, write_file, set_fs, tick. cbn [fs api_calls time].
  destruct (master_write (io_faults env (time w))) as [|junk];
    unfold bind, modify, raise; [|discriminate].
  intros [= <- <-]. cbn [fs]. rewrite lookup_insert_eq.
  eexists _, _, _. split; [reflexivity|].
  pose proof (sort_values_perm (all_results a)) as Hp.
  split_and!.
  - apply NoDup_filter. unfold keys. now rewrite Hp.
  - exact Hf.
  - apply Forall_forall. intros r Hr. rewrite Forall_forall in Hids. apply Hids.
    now rewrite <- Hp.
  - intros r Hr. unfold keys. rewrite Hp. now apply Hcov.
Qed.

(** X22.  [combine_all_results] returns [None], and writes nothing,
    exactly when no file it reads holds a row in its results sheet; a
    single row without an id is enough for an output file. *)
Theorem combine_returns_none_iff_no_rows env getmtime w :
  combine_all_results sort_values env getmtime w = Ok None w
  <-> forall r, ~ combined_input getmtime (fs w) r.
Proof.
  destruct (combine_acc_spec getmtime (fs w)) as ((Hag & Hnd & Hids & Hf) & Hcov).
  unfold combine_all_results. unfold bind at 1, get at 1.
  destruct (foldl (read_file (fs w)) (mkAcc [] [] ∅) (all_files getmtime (fs w)))
    as [results failed seen] eqn:Ea.
  cbn [all_results all_failed processed_report_ids] in *.
  destruct results as [|r0 rs].
  - split; [|reflexivity]. intros _ r Hr.
    specialize (Hcov r Hr). unfold keys in Hcov. simpl in Hcov.
    now apply elem_of_nil in Hcov.
  - split.
    + unfold bind, modify, ret, write_file, set_fs, tick.
      destruct (master_write (io_faults env (time w))) as [|junk];
        unfold bind, modify, raise; discriminate.
    + intros Hno. apply Forall_cons in Hids as [Ho _].
      exfalso. exact (Hno r0 Ho).
Qed.

End CombineFiles.


Lemma combined_file_has_unique_ids_witness :
  let getmtime := fun path : string => Z.of_nat (String.length path) in
  let w' := final_state (Combine.combine_all_results (sort_by extract_number)
                           (calm [] None) getmtime progress_world) in
  keys (match read_results (Combine.output_file "0") (fs w') with
        | Some rows => rows
        | None => []
        end) = [EmptyString; "Report_1"; "Report_2"; "Report_3"]
  /\ exists rows summary failed,
       fs w' !! Combine.output_file "0" = Some (Workbook rows summary failed)
       /\ NoDup (filter (fun k => k <> EmptyString) (keys rows))
       /\ NoDup (filter (fun k => k <> EmptyString) (map failed_report_id failed))
       /\ Forall (combined_input getmtime (fs progress_world)) rows
       /\ forall r, combined_input getmtime (fs progress_world) r ->
                    report_id r ∈ keys rows.
Proof.
  cbv zeta. split; [vm_compute; reflexivity|].
  apply (combined_file_has_unique_ids (sort_by extract_number)
           (fun l => GapFacts.sort_by_perm extract_number l) (calm [] None)).
  vm_compute. reflexivity.
Defined.


(** ** The small batch processor *)

Section SmallBatchRun.
Import SmallBatch.

Ltac sred :=
  unfold bind, ret, raise, sys_exit, try_except, get, modify, in_world,
       write_file, rename, set_fs, tick, add_result, add_failure in *;
  cbn [fst snd fs api_calls time results failed final_state
       master_write master_rename_raises state_write state_rename_raises] in *.

Lemma small_paths_distinct :
  temp_file <> master_file /\ state_temp <> master_file /\ state_file <> master_file
  /\ state_temp <> temp_file /\ state_file <> temp_file /\ state_temp <> state_file.
Proof. repeat split; vm_compute; discriminate. Qed.

Lemma accounted_refl s : accounted [] s s.
Proof.
  split; [reflexivity|]. exists [], []. rewrite !app_nil_r. now split_and!.
Qed.

Lemma accounted_trans items1 items2 s1 s2 s3 :
  accounted items1 s1 s2 -> accounted items2 s2 s3 ->
  accounted (items1 ++ items2) s1 s3.
Proof.
  intros (Hf1 & rs1 & fl1 & Hr1 & Hl1 & Hp1) (Hf2 & rs2 & fl2 & Hr2 & Hl2 & Hp2).
  split; [congruence|]. exists (rs1 ++ rs2)%list, (fl1 ++ fl2)%list. split_and!.
  - rewrite Hr2, Hr1. now rewrite app_assoc.
  - rewrite Hl2, Hl1. now rewrite app_assoc.
  - rewrite !map_app, <- Hp1, <- Hp2. rewrite <- !app_assoc.
    apply Permutation_app_head. rewrite !app_assoc. apply Permutation_app_tail.
    apply Permutation_app_comm.
Qed.

Lemma accounted_failure n e name s w' :
  fs w' = fs s.2 ->
  accounted [n] s (mkBatch (results s.1) (failed s.1 ++ [mkFailure (report_key n) e name]), w').
Proof.
  intros Hfs. split; [exact Hfs|]. exists [], [mkFailure (report_key n) e name].
  cbn [fst snd results failed]. rewrite app_nil_r. now split_and!.
Qed.

(** An iteration always returns, writes no file and accounts for its
    report. *)
Lemma small_item_spec env df n s :
  exists s', process_item env df n s = Ok tt s' /\ accounted [n] s s'.
Proof.
  unfold process_item. unfold try_except at 1, bind at 1.
  destruct (BulletproofFacts.iloc_cases df (n - 1) s) as [[e He]|[row Hr]].
  { rewrite He. sred. eexists. split; [reflexivity|]. now apply accounted_failure. }
  rewrite Hr. destruct (missing_essential_data row).
  { sred. eexists. split; [reflexivity|]. now apply accounted_failure. }
  unfold bind at 1, api_call at 1.
  destruct (call_gemini_api env (time s.2) (report_key n)) as [response|msg].
  2:{ sred. eexists. split; [reflexivity|]. now apply accounted_failure. }
  destruct response as [[|c text]|]; sred.
  1,3: eexists; split; [reflexivity|]; now apply accounted_failure.
  eexists. split; [reflexivity|]. split; [reflexivity|].
  eexists [_], []. cbn [fst snd results failed]. rewrite app_nil_r. now split_and!.
Qed.

Lemma small_loop_quiet env df items : forall i s,
  (forall j, sigint_after env = Some j -> (j < i \/ i + length items <= j)%nat) ->
  exists s', process_loop env df i items s = Ok tt s' /\ accounted items s s'.
Proof.
  induction items as [|n rest IH]; intros i s Hq; cbn [process_loop].
  - eexists. split; [reflexivity|]. apply accounted_refl.
  - rewrite bool_decide_eq_false_2.
    2:{ intros Hj. specialize (Hq i Hj). cbn [length] in Hq. lia. }
    destruct (small_item_spec env df n s) as (s1 & H1 & A1).
    unfold bind at 1. rewrite H1.
    destruct (IH (S i) s1) as (s2 & H2 & A2).
    { intros j Hj. specialize (Hq j Hj). cbn [length] in Hq. lia. }
    exists s2. split; [exact H2|].
    exact (accounted_trans [n] rest s s1 s2 A1 A2).
Qed.

Lemma small_loop_sigint env df items : forall i j s,
  sigint_after env = Some j -> (i <= j < i + length items)%nat ->
  exists s', process_loop env df i items s = Exit s'
             /\ accounted (take (j - i) items) s s'.
Proof.
  induction items as [|n rest IH]; intros i j s Hj Hr; cbn [length] in Hr; [lia|].
  cbn [process_loop].
  destruct (bool_decide_reflect (sigint_after env = Some i)) as [Hi|Hi].
  - assert (j = i) as -> by congruence. rewrite Nat.sub_diag. cbn [take].
    eexists. split; [reflexivity|]. apply accounted_refl.
  - assert (j <> i) as Hne by congruence.
    destruct (small_item_spec env df n s) as (s1 & H1 & A1).
    unfold bind at 1. rewrite H1.
    destruct (IH (S i) j s1 Hj) as (s2 & H2 & A2); [lia|].
    exists s2. split; [exact H2|].
    replace (j - i)%nat with (S (j - S i)) by lia. cbn [take].
    exact (accounted_trans [n] _ s s1 s2 A1 A2).
Qed.

Lemma read_master_cases s :
  (read_master s = Ok (master_rows (fs s.2)) s /\ master_readable (fs s.2))
  \/ read_master s = Raise "cannot read the master file" s.
Proof.
  unfold read_master, master_rows, master_readable. sred.
  destruct (exists_ master_file (fs s.2)) eqn:Hex.
  - destruct (read_results master_file (fs s.2)) eqn:Hr; [left | now right].
    split; [reflexivity|]. eauto.
  - left. unfold exists_, read_results in *.
    destruct (fs s.2 !! master_file) eqn:Hf.
    + now rewrite bool_decide_eq_true_2 in Hex by eauto.
    + split; [reflexivity|]. intros [? [=]].
Qed.

Lemma read_master_readable s :
  master_readable (fs s.2) -> read_master s = Ok (master_rows (fs s.2)) s.
Proof.
  intros Hr. destruct (read_master_cases s) as [[H _]|H]; [exact H|].
  exfalso. revert H. unfold read_master, master_readable in *. sred.
  destruct (exists_ master_file (fs s.2)) eqn:Hex; [|discriminate].
  apply bool_decide_eq_true_1 in Hex. destruct (Hr Hex) as [rows ->]. discriminate.
Qed.

(** The save, when the master file can be read. *)
Lemma small_save_spec env df s :
  master_readable (fs s.2) ->
  let rows := (master_rows (fs s.2) ++ results s.1)%list in
  let w := s.2 in
  exists files',
    save env df s
    = Ok (small_save_commits env df w && state_phase_ok (io_faults env (time w)))
         (s.1, mkWorld files' (api_calls w) (S (time w)))
    /\ files' !! master_file
       = (if small_save_commits env df w
          then Some (Workbook rows
                       (mkSummary (Z.of_nat (length df)) (Z.of_nat (length rows))
                          (Z.of_nat (length (failed s.1))) (now env (time w)) None)
                       (failed s.1))
          else fs w !! master_file)
    /\ files' !! state_file
       = (if small_save_commits env df w && state_phase_ok (io_faults env (time w))
          then Some (StateJson (map report_id rows) (failed s.1) (now env (time w))
                       (Some (Z.of_nat (length rows))))
          else fs w !! state_file).
Proof.
  intros Hread. cbv zeta. unfold save. unfold bind at 1.
  rewrite (read_master_readable s Hread).
  generalize (master_rows (fs s.2)). intros base.
  pose proof small_paths_distinct as D.
  unfold small_save_commits, write_phase_ok, state_phase_ok.
  destruct s as [b w]. sred.
  revert D. generalize temp_file, state_temp, master_file, state_file.
  intros T ST MF SF (D1 & D2 & D3 & D4 & D5 & D6).
  destruct (Z.of_nat (length df) =? 0); sred.
  1: eexists; split; [reflexivity|]; split_and!; intros; by simplify_map_eq.
  destruct (io_faults env (time w)) as [mw mr sw sr bw]; sred.
  destruct mw as [|[junk|]]; sred.
  2,3: eexists; split; [reflexivity|]; split_and!; intros; by simplify_map_eq.
  destruct mr; sred.
  1: eexists; split; [reflexivity|]; split_and!; intros; by simplify_map_eq.
  rewrite lookup_insert_eq. sred.
  destruct sw as [|[junk|]]; sred.
  2,3: eexists; split; [reflexivity|]; split_and!; intros; by simplify_map_eq.
  destruct sr; sred.
  1: eexists; split; [reflexivity|]; split_and!; intros; by simplify_map_eq.
  rewrite lookup_insert_eq. sred.
  eexists; split; [reflexivity|]; split_and!; intros; by simplify_map_eq.
Qed.


Lemma small_loop_cases env df items s :
  (exists s', process_loop env df 0 items s = Ok tt s' /\ accounted items s s')
  \/ (exists s', process_loop env df 0 items s = Exit s').
Proof.
  destruct (sigint_after env) as [j|] eqn:Hj.
  - destruct (decide (j < length items)%nat) as [Hlt|Hge].
    + right. destruct (small_loop_sigint env df items 0 j s Hj) as (s' & H & _); [lia|].
      eauto.
    + left. apply small_loop_quiet. intros j' Hj'. rewrite Hj in Hj'.
      injection Hj' as <-. lia.
  - left. apply small_loop_quiet. intros j' Hj'. congruence.
Qed.

(** X23.  The small batch processor saves nothing before its loop is
    over: a SIGINT that arrives when [i] reports of the batch are done ends
    the process with the files as they were when [process_batch] started,
    and the [i] results and failures it held in memory are lost. *)
Theorem small_batch_interrupt_loses_batch env df batch w i :
  catalog env = CatalogRows df ->
  setup_gemini_api env = true ->
  master_readable (fs w) ->
  sigint_after env = Some i ->
  (i < length batch)%nat ->
  exists s',
    process_batch env batch (start w) = Exit s'
    /\ fs s'.2 = fs w
    /\ (length (results s'.1) + length (failed s'.1) = i)%nat.
Proof.
  intros Hcat Hsetup Hread Hsig Hi. unfold process_batch.
  destruct batch as [|first rest]; [cbn [length] in Hi; lia|].
  destruct (LargeBatchFacts.last_cons_some first rest) as [last_ Hl]. rewrite Hl.
  unfold bind at 1. rewrite (read_master_readable (start w) Hread).
  rewrite Hcat, Hsetup. cbn [negb]. unfold bind at 1.
  destruct (small_loop_sigint env df (first :: rest) 0 i (start w) Hsig)
    as (s' & Hloop & Hfs & rs & fl & Hrs & Hfl & Hperm); [lia|].
  rewrite Hloop. exists s'. split; [reflexivity|]. split; [exact Hfs|].
  rewrite Hrs, Hfl. cbn [start fst results failed app].
  apply Permutation_length in Hperm.
  rewrite length_app, !length_map, Nat.sub_0_r, length_take in Hperm. lia.
Qed.

(** X24.  The verdict of [process_batch].  When it returns [True], the
    master file holds the rows it held before followed by the results of
    the batch, the state file lists their ids, and every report of the
    batch has one entry among the results and the failures.  When it
    returns [False], the master file is as it was or already holds the
    results of the batch (the state file could then not be saved). *)
Theorem small_batch_verdict env batch w b s' :
  process_batch env batch (start w) = Ok b s' ->
  let rows := (master_rows (fs w) ++ results s'.1)%list in
  if b then
    (exists summary,
        fs s'.2 !! master_file = Some (Workbook rows summary (failed s'.1)))
    /\ (exists stamp,
          fs s'.2 !! state_file
          = Some (StateJson (map report_id rows) (failed s'.1) stamp
                    (Some (Z.of_nat (length rows)))))
    /\ (map report_id (results s'.1) ++ map failed_report_id (failed s'.1))%list
       ≡ₚ map report_key batch
  else
    fs s'.2 !! master_file = fs w !! master_file
    \/ exists summary,
         fs s'.2 !! master_file = Some (Workbook rows summary (failed s'.1)).
Proof.
  intros H. cbv zeta. unfold process_batch in H.
  destruct batch as [|first rest]; [discriminate|].
  destruct (LargeBatchFacts.last_cons_some first rest) as [last_ Hl]. rewrite Hl in H.
  unfold bind at 1 in H.
  destruct (read_master_cases (start w)) as [[Hbase Hread]|Hbase]; rewrite Hbase in H;
    [|discriminate].
  cbn [start snd] in Hread.
  destruct (catalog env) as [| |df]; [discriminate | |].
  { unfold ret in H. injection H as <- <-. now left. }
  destruct (setup_gemini_api env); cbn [negb] in H.
  2:{ unfold ret in H. injection H as <- <-. now left. }
  unfold bind at 1 in H.
  destruct (small_loop_cases env df (first :: rest) (start w))
    as [(s1 & Hloop & Hfs & rs & fl & Hrs & Hfl & Hperm)|(s1 & Hloop)];
    rewrite Hloop in H; [|discriminate].
  cbn [start fst snd results failed app] in Hfs, Hrs, Hfl.
  unfold bind at 1 in H.
  assert (master_readable (fs s1.2)) as Hread1 by (now rewrite Hfs).
  destruct (small_save_spec env df s1 Hread1) as (files' & Hsave & Hm & Hst).
  rewrite ?Hfs in Hm, Hst. rewrite Hsave in H.
  destruct (small_save_commits env df s1.2) eqn:Hc; cbn [andb] in H, Hst.
  - destruct (state_phase_ok (io_faults env (time s1.2))).
    + unfold bind at 1, get at 1 in H. unfold read_results in H.
      cbn [fst snd fs] in H. rewrite Hm in H. unfold ret in H.
      rewrite bool_decide_eq_true_2 in H.
      2:{ rewrite length_app. reflexivity. }
      unfold raise in H.
      destruct (master_rows (fs w) ++ results s1.1)%list as [|r0 rs0] eqn:Eapp;
        [discriminate|].
      rewrite <- Eapp in Hm, Hst.
      injection H as <- <-. cbn [fst snd fs]. split_and!.
      * eexists. exact Hm.
      * eexists. exact Hst.
      * rewrite Hrs, Hfl. exact Hperm.
    + unfold ret in H. injection H as <- <-. cbn [fst snd fs].
      right. eexists. exact Hm.
  - unfold ret in H. injection H as <- <-. cbn [fst snd fs]. left. exact Hm.
Qed.


(** What a run of [process_batch] that returns [True] went through. *)
Lemma small_batch_true env batch w s' :
  process_batch env batch (start w) = Ok true s' ->
  exists df summary,
    catalog env = CatalogRows df
    /\ Z.of_nat (length df) <> 0
    /\ fs s'.2 !! master_file
       = Some (Workbook (master_rows (fs w) ++ results s'.1) summary (failed s'.1))
    /\ (master_rows (fs w) ++ results s'.1)%list <> []
    /\ (map report_id (results s'.1) ++ map failed_report_id (failed s'.1))%list
       ≡ₚ map report_key batch.
Proof.
  intros H. unfold process_batch in H.
  destruct batch as [|first rest]; [discriminate|].
  destruct (LargeBatchFacts.last_cons_some first rest) as [last_ Hl]. rewrite Hl in H.
  unfold bind at 1 in H.
  destruct (read_master_cases (start w)) as [[Hbase Hread]|Hbase]; rewrite Hbase in H;
    [|discriminate].
  cbn [start snd] in Hread.
  destruct (catalog env) as [| |df]; [discriminate | discriminate |].
  destruct (setup_gemini_api env); cbn [negb] in H; [|discriminate].
  unfold bind at 1 in H.
  destruct (small_loop_cases env df (first :: rest) (start w))
    as [(s1 & Hloop & Hfs & rs & fl & Hrs & Hfl & Hperm)|(s1 & Hloop)];
    rewrite Hloop in H; [|discriminate].
  cbn [start fst snd results failed app] in Hfs, Hrs, Hfl.
  unfold bind at 1 in H.
  assert (master_readable (fs s1.2)) as Hread1 by (now rewrite Hfs).
  destruct (small_save_spec env df s1 Hread1) as (files' & Hsave & Hm & _).
  rewrite ?Hfs in Hm. rewrite Hsave in H.
  destruct (small_save_commits env df s1.2) eqn:Hc; cbn [andb] in H; [|discriminate].
  destruct (state_phase_ok (io_faults env (time s1.2))); [|discriminate].
  unfold bind at 1, get at 1 in H. unfold read_results in H.
  cbn [fst snd fs] in H. rewrite Hm in H. unfold ret, raise in H.
  destruct (bool_decide _); [|discriminate].
  destruct (master_rows (fs w) ++ results s1.1)%list as [|r0 rs0] eqn:Eapp;
    [discriminate|].
  rewrite <- Eapp in Hm.
  injection H as <-. cbn [fst snd fs].
  exists df. eexists. split_and!.
  - reflexivity.
  - unfold small_save_commits in Hc. apply andb_true_iff in Hc as [Hc _].
    apply negb_true_iff in Hc. lia.
  - exact Hm.
  - rewrite Eapp. discriminate.
  - rewrite Hrs, Hfl. exact Hperm.
Qed.

(** X26.  After a batch that returned [True], [get_current_status]
    reports as missing exactly the reports of the catalog that had no
    numbered row in the master file before the batch and got no result in
    it.  The reports that failed in the batch are missing again: the
    failures kept in the state file are not consulted. *)
Theorem small_batch_then_status env batch w s' :
  process_batch env batch (start w) = Ok true s' ->
  exists status,
    get_current_status env s'.2 = Ok status s'.2
    /\ forall n,
         n ∈ LargeBatch.missing_numbers status
         <-> 1 <= n <= LargeBatch.total_reports status
             /\ (n ∉ Bulletproof.processed_numbers
                       (list_to_set (keys (master_rows (fs w)))))
             /\ report_key n ∉ keys (results s'.1).
Proof.
  intros H. destruct (small_batch_true env batch w s' H)
    as (df & summary & Hcat & Hne & Hm & Hrows & Hperm).
  unfold get_current_status, LargeBatch.get_current_status,
    read_catalog_len, bind, get, ret, exists_, read_results.
  change LargeBatch.master_file with master_file.
  rewrite Hm, Hcat. rewrite bool_decide_eq_true_2 by eauto.
  assert (forall (l : list ResultRecord) (x y : M World (gset string)),
            l <> [] -> match l with [] => x | _ :: _ => y end = y) as Hmatch
    by (intros [|? ?] x y Hl; [congruence | reflexivity]).
  rewrite (Hmatch _ _ _ Hrows). clear Hmatch.
  destruct (Z.eqb_spec (Z.of_nat (length df)) 0) as [H0|_]; [contradiction|].
  eexists. split; [reflexivity|].
  cbn [LargeBatch.missing_numbers LargeBatch.total_reports]. intros n.
  match goal with
  | |- context [sorted ?X] => destruct (GapFacts.sorted_spec X) as [_ Hs]
  end.
  rewrite Hs, elem_of_difference, GapFacts.elem_of_all_numbers.
  rewrite !GapFacts.elem_of_processed_numbers.
  assert (forall id, id ∈ keys (results s'.1) -> exists m, id = report_key m) as Hids.
  { intros id Hid.
    assert (id ∈ map report_key batch) as Hin.
    { rewrite <- Hperm. apply elem_of_app. now left. }
    apply list_elem_of_fmap in Hin as (m & -> & _). eauto. }
  split.
  - intros [Hr Hnot]. split; [exact Hr|]. split.
    + intros (id & Hid & Hnum). apply Hnot. exists id. split; [|exact Hnum].
      apply elem_of_list_to_set. apply elem_of_list_to_set in Hid.
      rewrite map_app. apply elem_of_app. now left.
    + intros Hk. apply Hnot. exists (report_key n).
      split; [|apply PyFacts.report_number_key].
      apply elem_of_list_to_set. rewrite map_app. apply elem_of_app. now right.
  - intros (Hr & Hbase & Hres). split; [exact Hr|].
    intros (id & Hid & Hnum). apply elem_of_list_to_set in Hid.
    rewrite map_app in Hid. apply elem_of_app in Hid as [Hid|Hid].
    + apply Hbase. exists id. split; [|exact Hnum]. now apply elem_of_list_to_set.
    + destruct (Hids id Hid) as [m ->]. rewrite PyFacts.report_number_key in Hnum.
      injection Hnum as ->. exact (Hres Hid).
Qed.

End SmallBatchRun.


Lemma small_batch_interrupt_loses_batch_witness :
  exists s',
    SmallBatch.process_batch (calm [a_row; a_row] (Some 1%nat)) [1; 2]
      (SmallBatch.start empty_world) = Exit s'
    /\ fs s'.2 = fs empty_world
    /\ (length (SmallBatch.results s'.1) + length (SmallBatch.failed s'.1) = 1)%nat.
Proof.
  apply (small_batch_interrupt_loses_batch (calm [a_row; a_row] (Some 1%nat))
           [a_row; a_row] [1; 2] empty_world 1%nat).
  - reflexivity.
  - reflexivity.
  - intros [x Hx]. vm_compute in Hx. discriminate.
  - reflexivity.
  - simpl. lia.
Defined.

Lemma small_batch_verdict_witness :
  let s' := final_state (SmallBatch.process_batch (calm [a_row; a_row] None) [1; 2]
                           (SmallBatch.start empty_world)) in
  let rows := (master_rows (fs empty_world) ++ SmallBatch.results s'.1)%list in
  (exists summary,
      fs s'.2 !! SmallBatch.master_file
      = Some (Workbook rows summary (SmallBatch.failed s'.1)))
  /\ (exists stamp,
        fs s'.2 !! SmallBatch.state_file
        = Some (StateJson (map report_id rows) (SmallBatch.failed s'.1) stamp
                  (Some (Z.of_nat (length rows)))))
  /\ (map report_id (SmallBatch.results s'.1)
      ++ map failed_report_id (SmallBatch.failed s'.1))%list
     ≡ₚ map report_key [1; 2].
Proof.
  cbv zeta.
  apply (small_batch_verdict (calm [a_row; a_row] None) [1; 2] empty_world true).
  vm_compute. reflexivity.
Defined.


(** ** The generator: a range that ends beyond the table *)

Section GeneratorRange.
Import Generator GeneratorFacts.

Lemma generator_loop_app env rows l1 l2 s :
  process_loop env rows (l1 ++ l2) s
  = (_ <~ process_loop env rows l1; process_loop env rows l2) s.
Proof.
  revert s. induction l1 as [|k l1 IH]; intros s; cbn [app process_loop].
  - reflexivity.
  - unfold bind in *. destruct (iloc rows k s) as [row s1|e s1|s1]; try reflexivity.
    destruct (process_item env row k s1) as [[] s2|e s2|s2]; try reflexivity.
    apply IH.
Qed.

Lemma range_incl_split a b c :
  a <= b + 1 -> b < c ->
  exists rest, Py.range_incl a c = (Py.range_incl a b ++ (b + 1) :: rest)%list.
Proof.
  intros Hab Hbc. unfold Py.range_incl.
  replace (Z.to_nat (c - a + 1))
    with (Z.to_nat (b - a + 1) + S (Z.to_nat (c - b - 1)))%nat by lia.
  rewrite seq_app, map_app. cbn [seq map plus].
  eexists. f_equal. f_equal. lia.
Qed.

(** X25.  [process_reports] takes the row before it enters the [try]
    statement: with an end beyond the table it works through the reports up
    to the last row, each of which leaves a result or a failure in memory,
    and then raises the [IndexError] of the first position beyond the table
    instead of returning. *)
Theorem range_end_beyond_table_raises env rows g w start_from_report end_at_report :
  df g = Some rows ->
  1 <= start_from_report <= Z.of_nat (length rows) + 1 ->
  Z.of_nat (length rows) < end_at_report ->
  exists g' w',
    process_reports env start_from_report (Some end_at_report) (g, w)
    = Raise "single positional indexer is out-of-bounds" (g', w')
    /\ generator_records g'
       = (generator_records g
          + Z.to_nat (Z.of_nat (length rows) - start_from_report + 1))%nat.
Proof.
  intros Hdf Hstart Hend. unfold process_reports. unfold bind at 1, get at 1.
  cbn [fst]. rewrite Hdf.
  assert ((end_at_report =? 0) = false) as -> by lia.
  destruct (range_incl_split (start_from_report - 1) (Z.of_nat (length rows) - 1)
              (end_at_report - 1)) as [rest ->]; [lia | lia |].
  unfold bind at 1. rewrite generator_loop_app. unfold bind at 1.
  destruct (process_loop_isolated env rows
              (Py.range_incl (start_from_report - 1) (Z.of_nat (length rows) - 1)) g w)
    as (g' & w' & -> & Hcount & _).
  { apply Forall_forall. intros k Hk. apply GapFacts.elem_of_range_incl in Hk. lia. }
  cbn [process_loop]. unfold bind at 1.
  replace (Z.of_nat (length rows) - 1 + 1) with (Z.of_nat (length rows)) by lia.
  unfold iloc at 1.
  assert ((Z.of_nat (length rows) <? 0) = false) as -> by lia.
  assert ((Z.of_nat (length rows) <=? Z.of_nat (length rows)) = true) as -> by lia.
  rewrite orb_true_r. unfold raise.
  exists g', w'. split; [reflexivity|].
  rewrite Hcount. f_equal. unfold Py.range_incl. rewrite length_map, length_seq. lia.
Qed.

End GeneratorRange.

Lemma range_end_beyond_table_raises_witness :
  exists g' w',
    Generator.process_reports (calm [a_row; a_row] None) 2 (Some 5)
      (Generator.mkGenerator (Some [a_row; a_row]) [] [], empty_world)
    = Raise "single positional indexer is out-of-bounds" (g', w')
    /\ generator_records g'
       = (generator_records (Generator.mkGenerator (Some [a_row; a_row]) [] [])
          + Z.to_nat (Z.of_nat (length [a_row; a_row]) - 2 + 1))%nat.
Proof.
  apply (range_end_beyond_table_raises (calm [a_row; a_row] None) [a_row; a_row]
           (Generator.mkGenerator (Some [a_row; a_row]) [] []) empty_world 2 5).
  - reflexivity.
  - simpl. lia.
  - simpl. lia.
Defined.


Lemma small_batch_then_status_witness :
  let s' := final_state (SmallBatch.process_batch (calm [a_row; a_row] None) [1]
                           (SmallBatch.start empty_world)) in
  exists status,
    SmallBatch.get_current_status (calm [a_row; a_row] None) s'.2 = Ok status s'.2
    /\ forall n,
         n ∈ LargeBatch.missing_numbers status
         <-> 1 <= n <= LargeBatch.total_reports status
             /\ (n ∉ Bulletproof.processed_numbers
                       (list_to_set (keys (master_rows (fs empty_world)))))
             /\ report_key n ∉ keys (SmallBatch.results s'.1).
Proof.
  cbv zeta.
  apply (small_batch_then_status (calm [a_row; a_row] None) [1] empty_world).
  vm_compute. reflexivity.
Defined.

End Extras.
